(** * Lead pipeline agent: a shallow embedding of [autonomous-agent.js]

    The development follows the class [AutonomousHealthcareAgent]: the string
    helpers it relies on, the candidate discovery and filter engine, the
    conversational configurator with its per-channel context, the site
    extractor, the deployment orchestrator and the per-lead sequencer.

    Conventions.
    - A JavaScript string is a list of 8-bit characters ([str]).  The case
      mappings act on the ASCII letters and white space is the ASCII white
      space; host names, the keywords of the filter engine and the markers
      of fenced blocks are all ASCII, and other text is carried as the bytes
      of its UTF-8 form.
    - An [async] method whose body may throw returns a [Result]; [Throw]
      carries [error.message].
    - Every answer of an external collaborator (search, fetch, completion
      endpoint, store, repository host, deployment platform, clock, random
      source) is read from a world record, one per call site. *)

From Stdlib Require Import String Ascii List ZArith Lia Bool Arith.
From Stdlib Require Import Numbers.DecimalString.
From stdpp Require Import base list strings gmap.

Open Scope string_scope.
Open Scope nat_scope.
Open Scope list_scope.

(** ** Strings *)

Definition str := list ascii.
Coercion list_ascii_of_string : string >-> list.

Module Js.

Definition between (lo hi : nat) (c : ascii) : bool :=
  (lo <=? nat_of_ascii c) && (nat_of_ascii c <=? hi).

Definition isUpper (c : ascii) : bool := between 65 90 c.
Definition isLower (c : ascii) : bool := between 97 122 c.
Definition isDigit (c : ascii) : bool := between 48 57 c.

(** The class [[a-z0-9]]. *)
Definition isLowerAlnum (c : ascii) : bool := isLower c || isDigit c.

(** The class [\s], ASCII part: tab, line feed, vertical tab, form feed,
    carriage return, space. *)
Definition isSpace (c : ascii) : bool :=
  between 9 13 c || (nat_of_ascii c =? 32).

Definition isHyphen (c : ascii) : bool := Ascii.eqb c "-".

Definition lowerChar (c : ascii) : ascii :=
  if isUpper c then ascii_of_nat (nat_of_ascii c + 32) else c.

Definition upperChar (c : ascii) : ascii :=
  if isLower c then ascii_of_nat (nat_of_ascii c - 32) else c.

Definition toLowerCase (s : str) : str := map lowerChar s.
Definition toUpperCase (s : str) : str := map upperChar s.

Fixpoint startsWith (p s : str) : bool :=
  match p, s with
  | [], _ => true
  | a :: p', b :: s' => Ascii.eqb a b && startsWith p' s'
  | _ :: _, [] => false
  end.

Definition endsWith (p s : str) : bool :=
  startsWith (rev p) (rev s).

(** [s.includes(needle)]. *)
Fixpoint includes (needle s : str) : bool :=
  startsWith needle s ||
  match s with
  | [] => false
  | _ :: t => includes needle t
  end.

Fixpoint dropWhile (f : ascii -> bool) (s : str) : str :=
  match s with
  | [] => []
  | c :: t => if f c then dropWhile f t else s
  end.

Definition trimStart (s : str) : str := dropWhile isSpace s.
Definition trimEnd (s : str) : str := rev (dropWhile isSpace (rev s)).
Definition trim (s : str) : str := trimEnd (trimStart s).

(** [s.split(sep)] for a separator that is one character of a class. *)
Fixpoint splitOn (sep : ascii -> bool) (s : str) : list str :=
  match s with
  | [] => [[]]
  | c :: t =>
      if sep c then [] :: splitOn sep t
      else match splitOn sep t with
           | w :: ws => (c :: w) :: ws
           | [] => [[c]]
           end
  end.

Fixpoint join (sep : str) (l : list str) : str :=
  match l with
  | [] => []
  | [w] => w
  | w :: ws => w ++ sep ++ join sep ws
  end.

(** [s.substring(0, n)]. *)
Definition substring0 (n : nat) (s : str) : str := firstn n s.

(** [s.replace(/^p/, '')] for a literal [p]. *)
Definition stripPrefix (p s : str) : str :=
  if startsWith p s then skipn (length p) s else s.

(** [s.replace(/p$/, '')] for a literal [p]. *)
Definition stripSuffix (p s : str) : str :=
  if endsWith p s then firstn (length s - length p) s else s.

(** Decimal rendering of a number, as string concatenation does. *)
Definition ofNat (n : nat) : str :=
  list_ascii_of_string (NilZero.string_of_uint (Nat.to_uint n)).

Definition ofN (n : N) : str :=
  list_ascii_of_string (NilZero.string_of_uint (N.to_uint n)).

Definition ofZ (n : Z) : str :=
  list_ascii_of_string (NilZero.string_of_int (Z.to_int n)).

End Js.

(** ** Utility functions of the agent *)

(** [.replace(/\.(com|co\.uk|org|net)$/, '')]: the four endings exclude one
    another, so at most one branch applies. *)
Definition stripTld (s : str) : str :=
  if Js.endsWith ".co.uk" s then Js.stripSuffix ".co.uk" s
  else if Js.endsWith ".com" s then Js.stripSuffix ".com" s
  else if Js.endsWith ".org" s then Js.stripSuffix ".org" s
  else if Js.endsWith ".net" s then Js.stripSuffix ".net" s
  else s.

(** [.replace(/[^a-z0-9]/g, '-')]. *)
Definition hyphenate (s : str) : str :=
  map (fun c => if Js.isLowerAlnum c then c else "-"%char) s.

(** [.replace(/-+/g, '-')]: every run of hyphens becomes one hyphen. *)
Fixpoint collapseHyphens (s : str) : str :=
  match s with
  | [] => []
  | c :: t =>
      if Js.isHyphen c then
        match t with
        | h :: _ => if Js.isHyphen h then collapseHyphens t
                    else c :: collapseHyphens t
        | [] => [c]
        end
      else c :: collapseHyphens t
  end.

Definition dropLeadingHyphen (s : str) : str :=
  match s with
  | c :: t => if Js.isHyphen c then t else s
  | [] => []
  end.

Definition dropTrailingHyphen (s : str) : str :=
  rev (dropLeadingHyphen (rev s)).

(** [.replace(/^-|-$/g, '')]: one hyphen at the start and one at the end;
    the scan resumes after the first match, so on ["-"] alone only the first
    alternative fires. *)
Definition stripEdgeHyphens (s : str) : str :=
  dropTrailingHyphen (dropLeadingHyphen s).

(** The id before [.substring(0, 25)]. *)
Definition practiceIdUncut (domain : str) : str :=
  stripEdgeHyphens
    (collapseHyphens
       (hyphenate
          (Js.toLowerCase (stripTld (Js.stripPrefix "www." domain))))).

Definition generatePracticeId (domain : str) : str :=
  Js.substring0 25 (practiceIdUncut domain).

Definition capitalize (word : str) : str :=
  match word with
  | [] => []
  | c :: t => Js.upperChar c :: t
  end.

Definition extractCompanyFromDomain (domain : str) : str :=
  let name :=
    Js.join " "
      (map capitalize
         (Js.splitOn (fun c => Js.isHyphen c || Ascii.eqb c ".")
            (stripTld (Js.stripPrefix "www." domain)))) in
  name ++ " Clinic".

(** The shape the stable id is expected to have: characters of
    [[a-z0-9-]], between [lo] and 25 of them. *)
Definition isIdChar (c : ascii) : bool := Js.isLowerAlnum c || Js.isHyphen c.

Definition matchesIdPattern (lo : nat) (s : str) : bool :=
  forallb isIdChar s && (lo <=? length s) && (length s <=? 25).

Definition leadingHyphen (s : str) : bool :=
  match s with
  | c :: _ => Js.isHyphen c
  | [] => false
  end.

Definition trailingHyphen (s : str) : bool := leadingHyphen (rev s).

(** No two hyphens in a row. *)
Fixpoint noDouble (s : str) : bool :=
  match s with
  | [] => true
  | c :: t => negb (Js.isHyphen c && leadingHyphen t) && noDouble t
  end.

(** ** Exceptions *)

Inductive Result (A : Type) : Type :=
| Ok (a : A)
| Throw (message : str).
Arguments Ok {A} a.
Arguments Throw {A} message.

#[global] Instance Result_ret : MRet Result := @Ok.

#[global] Instance Result_bind : MBind Result :=
  fun A B (k : A -> Result B) (m : Result A) =>
    match m with
    | Ok a => k a
    | Throw e => Throw e
    end.

(** [try { m } catch (error) { h error }]. *)
Definition tryCatch {A : Type} (m : Result A) (h : str -> Result A) : Result A :=
  match m with
  | Ok a => Ok a
  | Throw e => h e
  end.

(** An HTTP call through [axios]: the promise rejects (network error or a
    status outside 2xx) or resolves with [response.data]. *)
Inductive AxiosOutcome (A : Type) : Type :=
| AxiosRejects (message : str)
| AxiosResolves (data : A).
Arguments AxiosRejects {A} message.
Arguments AxiosResolves {A} data.

Definition awaitAxios {A : Type} (o : AxiosOutcome A) : Result A :=
  match o with
  | AxiosRejects e => Throw e
  | AxiosResolves d => Ok d
  end.

(** ** Candidate discovery and the custom filter engine *)

(** One entry of the search collaborator's [results]; [title] and [text] may
    be absent, which the code guards with [?.] and [|| '']. *)
Record ExaResult := {
  r_url : str;
  r_title : option str;
  r_text : option str;
  r_id : str
}.

Record WorkflowConfig := {
  leadCount : option nat;
  specialty : option str;
  location : option str;
  searchQuery : option str;
  filters : option (list str)
}.

(** [x || ''] for a string that may be undefined. *)
Definition orEmpty (x : option str) : str :=
  match x with
  | Some s => s
  | None => []
  end.

(** Truthiness of a string that may be undefined. *)
Definition truthyStr (x : option str) : option str :=
  match x with
  | Some (c :: t) => Some (c :: t)
  | _ => None
  end.

Record ExaRequest := {
  q_query : str;
  q_numResults : nat
}.

(** The search collaborator: [response.data.results] may be missing. *)
Definition ExaWorld := ExaRequest -> AxiosOutcome (option (list ExaResult)).

Definition locationVariants (location : str) : list str :=
  [location]
  ++ (if decide (location = ("austria" : str))
      then ["österreich" : str; "at" : str; ".at" : str; "vienna" : str; "wien" : str;
            "salzburg" : str; "innsbruck" : str; "graz" : str; "linz" : str]
      else [])
  ++ (if decide (location = ("netherlands" : str))
      then ["nederland" : str; "holland" : str; "nl" : str; ".nl" : str;
            "amsterdam" : str; "rotterdam" : str; "den haag" : str; "utrecht" : str]
      else [])
  ++ (if decide (location = ("germany" : str))
      then ["deutschland" : str; "de" : str; ".de" : str; "berlin" : str;
            "munich" : str; "münchen" : str; "hamburg" : str; "cologne" : str;
            "köln" : str]
      else []).

Definition locationSearchText (practice : ExaResult) : str :=
  Js.toLowerCase
    (orEmpty (r_title practice) ++ " " ++ r_url practice ++ " "
     ++ orEmpty (r_text practice)).

Definition matchesLocation (variants : list str) (practice : ExaResult) : bool :=
  existsb (fun variant => Js.includes variant (locationSearchText practice)) variants.

(** [practice.title?.toLowerCase().includes(s) ||
     practice.text?.toLowerCase().includes(s)]. *)
Definition lowerIncludes (needle : str) (field : option str) : bool :=
  match field with
  | Some s => Js.includes needle (Js.toLowerCase s)
  | None => false
  end.

Definition matchesSpecialty (specialty : str) (practice : ExaResult) : bool :=
  lowerIncludes (Js.toLowerCase specialty) (r_title practice)
  || lowerIncludes (Js.toLowerCase specialty) (r_text practice).

Definition findHealthcarePracticesWithCustomEXA
    (exa : ExaWorld) (searchQuery : str) (leadCount : nat)
    (workflowConfig : WorkflowConfig) : Result (list ExaResult) :=
  let exaRequestPayload :=
    {| q_query := searchQuery; q_numResults := Nat.min (leadCount * 2) 20 |} in
  data ← awaitAxios (exa exaRequestPayload);
  let practices := match data with Some l => l | None => [] end in
  if (length practices =? 0) then Ok []
  else
    let practices :=
      match truthyStr (location workflowConfig) with
      | Some loc =>
          List.filter (matchesLocation (locationVariants (Js.toLowerCase loc)))
            practices
      | None => practices
      end in
    let practices :=
      match truthyStr (specialty workflowConfig) with
      | Some spec => List.filter (matchesSpecialty spec) practices
      | None => practices
      end in
    Ok (firstn leadCount practices).

(** [s.replace(/k1|k2|.../g, '')]: at each position the first keyword that
    matches is removed and the scan resumes after it. *)
Fixpoint removeAll (keywords : list str) (skip : nat) (s : str) : str :=
  match s with
  | [] => []
  | c :: t =>
      match skip with
      | S k => removeAll keywords k t
      | 0 =>
          match List.find (fun k => Js.startsWith k s) keywords with
          | Some k => removeAll keywords (length k - 1) t
          | None => c :: removeAll keywords 0 t
          end
      end
  end.

Definition isBlank (c : ascii) : bool := Ascii.eqb c " ".

(** [kept.trim().split(' ')] of a filter with its keywords removed. *)
Definition filterTerms (keywords : list str) (filterLower : str) : list str :=
  Js.splitOn isBlank (Js.trim (removeAll keywords 0 filterLower)).

Definition nonEmpty (s : str) : bool :=
  match s with
  | [] => false
  | _ :: _ => true
  end.

(** Some term is non-empty and occurs in the title or in the text. *)
Definition someTermOccurs (terms : list str) (titleLower textLower : str) : bool :=
  existsb
    (fun term => nonEmpty term
                 && (Js.includes term titleLower || Js.includes term textLower))
    terms.

Definition lowerOrEmpty (field : option str) : str :=
  match field with
  | Some s => Js.toLowerCase s
  | None => []
  end.

Fixpoint passesCustomFilters (practice : ExaResult) (filters : list str) : bool :=
  match filters with
  | [] => true
  | filter :: rest =>
      let filterLower := Js.toLowerCase filter in
      let titleLower := lowerOrEmpty (r_title practice) in
      let textLower := lowerOrEmpty (r_text practice) in
      if Js.includes "exclude" filterLower || Js.includes "avoid" filterLower then
        if someTermOccurs
             (filterTerms ["exclude" : str; "avoid" : str] filterLower)
             titleLower textLower
        then false
        else passesCustomFilters practice rest
      else if Js.includes "require" filterLower || Js.includes "must" filterLower then
        if someTermOccurs
             (filterTerms ["require" : str; "must" : str] filterLower)
             titleLower textLower
        then passesCustomFilters practice rest
        else false
      else passesCustomFilters practice rest
  end.

(** A word: non-empty and free of white space. *)
Definition isWord (X : str) : Prop :=
  X <> [] /\ forallb (fun c => negb (Js.isSpace c)) X = true.

(** The title or the text of the candidate contains [X], case-insensitively. *)
Definition mentions (X : str) (practice : ExaResult) : bool :=
  Js.includes (Js.toLowerCase X) (lowerOrEmpty (r_title practice))
  || Js.includes (Js.toLowerCase X) (lowerOrEmpty (r_text practice)).

(** What passing the active filters of a configuration means. *)
Definition passesLocationFilter (cfg : WorkflowConfig) (practice : ExaResult) : Prop :=
  match truthyStr (location cfg) with
  | Some loc =>
      exists variant,
        In variant (locationVariants (Js.toLowerCase loc)) /\
        Js.includes variant (locationSearchText practice) = true
  | None => True
  end.

Definition passesSpecialtyFilter (cfg : WorkflowConfig) (practice : ExaResult) : Prop :=
  match truthyStr (specialty cfg) with
  | Some spec =>
      (exists t, r_title practice = Some t /\
                 Js.includes (Js.toLowerCase spec) (Js.toLowerCase t) = true) \/
      (exists t, r_text practice = Some t /\
                 Js.includes (Js.toLowerCase spec) (Js.toLowerCase t) = true)
  | None => True
  end.

(** ** JavaScript values *)

(** The values a parsed JSON text or a response body can hold; numbers are
    restricted to the integers. *)
#[warnings="-register-all"]
Inductive JsVal : Type :=
| JUndefined
| JNull
| JBool (b : bool)
| JNum (n : Z)
| JStr (s : str)
| JArr (items : list JsVal)
| JObj (fields : list (str * JsVal)).

Definition strEq (a b : str) : bool := bool_decide (a = b).

Fixpoint lookupField (name : str) (fields : list (str * JsVal)) : JsVal :=
  match fields with
  | [] => JUndefined
  | (k, v) :: rest => if strEq k name then v else lookupField name rest
  end.

Definition typeErrorReading (what name : str) : str :=
  "Cannot read properties of " ++ what ++ " (reading '" ++ name ++ "')".

(** [v.name] for a name that is not a built-in property. *)
Definition getProp (v : JsVal) (name : str) : Result JsVal :=
  match v with
  | JUndefined => Throw (typeErrorReading "undefined" name)
  | JNull => Throw (typeErrorReading "null" name)
  | JObj fields => Ok (lookupField name fields)
  | _ => Ok JUndefined
  end.

(** [v[0]]. *)
Definition getFirst (v : JsVal) : Result JsVal :=
  match v with
  | JUndefined => Throw (typeErrorReading "undefined" "0")
  | JNull => Throw (typeErrorReading "null" "0")
  | JArr items => Ok (match items with x :: _ => x | [] => JUndefined end)
  | JStr s => Ok (match s with c :: _ => JStr [c] | [] => JUndefined end)
  | JObj fields => Ok (lookupField "0" fields)
  | _ => Ok JUndefined
  end.

(** [v?.name]. *)
Definition getPropOpt (v : JsVal) (name : str) : JsVal :=
  match getProp v name with
  | Ok x => x
  | Throw _ => JUndefined
  end.

Definition truthy (v : JsVal) : bool :=
  match v with
  | JUndefined | JNull => false
  | JBool b => b
  | JNum n => negb (n =? 0)%Z
  | JStr s => nonEmpty s
  | JArr _ | JObj _ => true
  end.

(** [typeof v === 'object' && v !== null]. *)
Definition isObject (v : JsVal) : bool :=
  match v with
  | JArr _ | JObj _ => true
  | _ => false
  end.

(** Whether the conversion of a value to a string returns, as a template
    literal or [join] performs it.  The values are those of a parsed JSON
    text: an object that has a property [toString] of its own makes the
    conversion throw a [TypeError] (the property is not callable, and
    [valueOf] gives the object back); any other object prints as
    [[object Object]]; an array prints its elements, [null] as the empty
    string. *)
Fixpoint canStringify (v : JsVal) : bool :=
  match v with
  | JArr items => forallb canStringify items
  | JObj fields => negb (existsb (fun kv => strEq (fst kv) "toString") fields)
  | _ => true
  end.

Definition typeErrorPrimitive : str := "Cannot convert object to primitive value".

(** Built-ins of the platform the agent runs on: [JSON.parse] ([None] when
    it throws a [SyntaxError]) and [new URL(url).hostname] ([None] when the
    constructor throws). *)
Class Platform := {
  JSON_parse : str -> option JsVal;
  URL_hostname : str -> option str
}.

(** ** The conversational configurator *)

Record HistoryEntry := {
  role : str;
  content : JsVal;
  timestamp : str
}.

Record UserContext := {
  conversationHistory : list HistoryEntry;
  lastWorkflowConfig : JsVal
}.

Definition fence : str := "```".
Definition fenceJson : str := "```json".

(** [s.replace(/^p\s*/, '')] for a literal [p] that [s] starts with. *)
Definition stripOpeningFence (p s : str) : str :=
  if Js.startsWith p s then Js.trimStart (skipn (length p) s) else s.

(** [s.replace(/\s*```$/, '')]: the leftmost match takes all the white space
    in front of the closing marker. *)
Definition stripClosingFence (s : str) : str :=
  if Js.endsWith fence s then Js.trimEnd (firstn (length s - length fence) s) else s.

Definition stripCodeFences (aiContent : str) : str :=
  let cleanedContent := Js.trim aiContent in
  if Js.startsWith fenceJson cleanedContent && Js.endsWith fence cleanedContent then
    stripClosingFence (stripOpeningFence fenceJson cleanedContent)
  else if Js.startsWith fence cleanedContent && Js.endsWith fence cleanedContent then
    stripClosingFence (stripOpeningFence fence cleanedContent)
  else cleanedContent.

(** The text-response object of the [catch (parseError)] branch. *)
Definition textResponse (aiContent : JsVal) : JsVal :=
  JObj [("executeWorkflow" : str, JBool false); ("response" : str, aiContent)].

(** [response.data.choices[0].message.content]. *)
Definition completionContent (data : JsVal) : Result JsVal :=
  choices ← getProp data "choices";
  first ← getFirst choices;
  message ← getProp first "message";
  getProp message "content".

(** The inner [try]: [aiContent.trim()] throws unless the content is a
    string, and [JSON.parse] throws on a text that is not JSON. *)
Definition parseCompletion {pf : Platform} (aiContent : JsVal) : Result JsVal :=
  match aiContent with
  | JStr text =>
      match JSON_parse (stripCodeFences text) with
      | Some parsed => Ok parsed
      | None => Throw "Unexpected token"
      end
  | JUndefined => Throw (typeErrorReading "undefined" "trim")
  | JNull => Throw (typeErrorReading "null" "trim")
  | _ => Throw "aiContent.trim is not a function"
  end.

(** The completion endpoint answers a message and the history sent with it. *)
Definition CompletionWorld := str -> list HistoryEntry -> AxiosOutcome JsVal.

(** The system prompt is a template literal evaluated before the [try]:
    it prints the role and the content of every entry of the history. *)
Definition buildPrompt (history : list HistoryEntry) : Result unit :=
  if forallb (fun msg => canStringify (content msg)) history then Ok tt
  else Throw typeErrorPrimitive.

(** The outer [try] of [processConversationalInput]: the request and the
    reading of its answer. *)
Definition requestCompletion {pf : Platform} (llm : CompletionWorld)
    (messageText : str) (history : list HistoryEntry) : Result JsVal :=
  tryCatch
    (data ← awaitAxios (llm messageText history);
     aiContent ← completionContent data;
     tryCatch (parseCompletion aiContent)
       (fun _ => Ok (textResponse aiContent)))
    (fun _ => Throw "AI model communication failed").

Definition processConversationalInput {pf : Platform} (llm : CompletionWorld)
    (messageText : str) (history : list HistoryEntry) : Result JsVal :=
  _ ← buildPrompt history;
  requestCompletion llm messageText history.

(** What one turn meets: the clock at the two pushes, whether the two
    [bot.sendMessage] calls before and after the completion resolve, and the
    completion endpoint. *)
Record TurnWorld := {
  t_clockUser : str;
  t_clockAssistant : str;
  t_sendProcessing : Result unit;
  t_llm : CompletionWorld;
  t_sendReply : Result unit
}.

(** [x || d]. *)
Definition orElse (x d : JsVal) : JsVal := if truthy x then x else d.

(** [history.slice(-10)]. *)
Definition lastTen (history : list HistoryEntry) : list HistoryEntry :=
  skipn (length history - 10) history.

Definition newContext : UserContext :=
  {| conversationHistory := []; lastWorkflowConfig := JNull |}.

(** The context of the channel after the user's message is pushed and the
    history is cut to its last ten entries: the handler up to its first
    [await]. *)
Definition pushUserMessage (ctx : UserContext) (w : TurnWorld) (messageText : str)
    : UserContext :=
  let history :=
    conversationHistory ctx
    ++ [{| role := "user"; content := JStr messageText; timestamp := t_clockUser w |}] in
  {| conversationHistory := if 10 <? length history then lastTen history else history;
     lastWorkflowConfig := lastWorkflowConfig ctx |}.

Definition pushAssistantMessage (ctx : UserContext) (w : TurnWorld) (reply : JsVal)
    : UserContext :=
  {| conversationHistory :=
       conversationHistory ctx
       ++ [{| role := "assistant"; content := reply; timestamp := t_clockAssistant w |}];
     lastWorkflowConfig := lastWorkflowConfig ctx |}.

(** Where a handler that has pushed the user's message stands: at one of its
    three [await]s that matter to the context (the processing notice, the
    completion request with the history it sent, the reply), or past them.
    The messages of the [catch] blocks and the custom workflow are awaited
    too; they touch no context. *)
Inductive Stage : Type :=
| AwaitProcessing
| AwaitCompletion (history : list HistoryEntry)
| AwaitReply (aiResponse : JsVal)
| Finished.

(** The handler from the [await] it stands at to the next one, on the
    context object it holds as that object is when the handler resumes.
    - After the processing notice: the prompt is built from the history of
      that moment and the request leaves.
    - After the completion: the answer is checked and pushed, without a cut,
      and the log line prints the reply.
    - After the reply: the workflow configuration is recorded. *)
Definition resumeHandler {pf : Platform} (ctx : UserContext) (w : TurnWorld)
    (messageText : str) (stage : Stage) : UserContext * Stage :=
  match stage with
  | AwaitProcessing =>
      match t_sendProcessing w with
      | Throw _ => (ctx, Finished)
      | Ok _ =>
          match buildPrompt (conversationHistory ctx) with
          | Throw _ => (ctx, Finished)
          | Ok _ => (ctx, AwaitCompletion (conversationHistory ctx))
          end
      end
  | AwaitCompletion history =>
      match requestCompletion (t_llm w) messageText history with
      | Throw _ => (ctx, Finished)
      | Ok aiResponse =>
          if negb (isObject aiResponse) then (ctx, Finished)
          else
            let pushed :=
              pushAssistantMessage ctx w
                (orElse (getPropOpt aiResponse "response")
                   (JStr "AI processing completed")) in
            let userMessage :=
              orElse (getPropOpt aiResponse "response")
                (JStr "Processing your request...") in
            if canStringify userMessage then (pushed, AwaitReply aiResponse)
            else (pushed, Finished)
      end
  | AwaitReply aiResponse =>
      match t_sendReply w with
      | Throw _ => (ctx, Finished)
      | Ok _ =>
          if truthy (getPropOpt aiResponse "executeWorkflow")
             && truthy (getPropOpt aiResponse "workflowConfig")
          then ({| conversationHistory := conversationHistory ctx;
                   lastWorkflowConfig := getPropOpt aiResponse "workflowConfig" |},
                Finished)
          else (ctx, Finished)
      end
  | Finished => (ctx, Finished)
  end.

(** The handler resumed [n] times in a row. *)
Fixpoint resumeTimes {pf : Platform} (n : nat) (ctx : UserContext) (w : TurnWorld)
    (messageText : str) (stage : Stage) : UserContext * Stage :=
  match n with
  | 0 => (ctx, stage)
  | S n' =>
      let (ctx', stage') := resumeHandler ctx w messageText stage in
      resumeTimes n' ctx' w messageText stage'
  end.

(** The rest of a turn that nothing interrupts, after the user's push: the
    three continuations one after the other. *)
Definition answerTurn {pf : Platform} (ctx : UserContext) (w : TurnWorld)
    (messageText : str) : UserContext :=
  fst (resumeTimes 3 ctx w messageText AwaitProcessing).

(** The per-channel contexts after one turn that runs to its end before the
    next update is handled. *)
Definition handleConversationalMessage {pf : Platform}
    (userContexts : gmap Z UserContext) (chatId : Z) (messageText : str)
    (w : TurnWorld) : gmap Z UserContext :=
  let ctx := default newContext (userContexts !! chatId) in
  <[chatId := answerTurn (pushUserMessage ctx w messageText) w messageText]>
    userContexts.

(** A sequence of such turns, each with its channel, its message and its
    world. *)
Fixpoint runTurns {pf : Platform} (userContexts : gmap Z UserContext)
    (turns : list (Z * str * TurnWorld)) : gmap Z UserContext :=
  match turns with
  | [] => userContexts
  | (chatId, messageText, w) :: rest =>
      runTurns (handleConversationalMessage userContexts chatId messageText w) rest
  end.

Definition historyOf (userContexts : gmap Z UserContext) (chatId : Z)
    : list HistoryEntry :=
  match userContexts !! chatId with
  | Some ctx => conversationHistory ctx
  | None => []
  end.

(** *** Handlers that overlap

    The webhook starts a handler and answers without waiting for it, so the
    handler of the next update may run while an earlier one is suspended at
    an [await].  The agent is then described by its context objects, by the
    map from channels to the object each currently has, and by the handlers
    with the object each one took when it started; [/start] gives a channel
    a fresh object and leaves the old one to the handlers that hold it. *)

Record Handler := {
  h_context : nat;
  h_text : str;
  h_world : TurnWorld;
  h_stage : Stage
}.

Record Agent := {
  objects : list UserContext;
  contextOf : gmap Z nat;
  handlers : list Handler
}.

Definition noAgent : Agent :=
  {| objects := []; contextOf := ∅; handlers := [] |}.

(** What the event loop runs next: [handleStartCommand], a new
    [handleConversationalMessage] up to its first [await], or the
    continuation of the handler started as the [handler]-th. *)
Inductive Event : Type :=
| EvStart (chatId : Z)
| EvMessage (chatId : Z) (messageText : str) (w : TurnWorld)
| EvSettle (handler : nat).

Definition agentStep {pf : Platform} (st : Agent) (e : Event) : Agent :=
  match e with
  | EvStart chatId =>
      {| objects := objects st ++ [newContext];
         contextOf := <[chatId := length (objects st)]> (contextOf st);
         handlers := handlers st |}
  | EvMessage chatId messageText w =>
      let (objs, a) :=
        match contextOf st !! chatId with
        | Some a => (objects st, a)
        | None => (objects st ++ [newContext], length (objects st))
        end in
      let ctx := default newContext (objs !! a) in
      {| objects := <[a := pushUserMessage ctx w messageText]> objs;
         contextOf := <[chatId := a]> (contextOf st);
         handlers :=
           handlers st
           ++ [{| h_context := a; h_text := messageText; h_world := w;
                  h_stage := AwaitProcessing |}] |}
  | EvSettle i =>
      match handlers st !! i with
      | None => st
      | Some h =>
          match objects st !! h_context h with
          | None => st
          | Some ctx =>
              let (ctx', stage') :=
                resumeHandler ctx (h_world h) (h_text h) (h_stage h) in
              {| objects := <[h_context h := ctx']> (objects st);
                 contextOf := contextOf st;
                 handlers :=
                   <[i := {| h_context := h_context h; h_text := h_text h;
                             h_world := h_world h; h_stage := stage' |}]>
                     (handlers st) |}
          end
      end
  end.

Definition runAgent {pf : Platform} (st : Agent) (events : list Event) : Agent :=
  fold_left agentStep events st.

(** The events of a turn that nothing interrupts: the arrival of the message
    and the three continuations of its handler, started as the [n]-th. *)
Definition turnEvents (n : nat) (turn : Z * str * TurnWorld) : list Event :=
  let '(chatId, messageText, w) := turn in
  EvMessage chatId messageText w :: replicate 3 (EvSettle n).

(** Turns one after the other, the first handler being the [n]-th. *)
Fixpoint sequentialRun (n : nat) (turns : list (Z * str * TurnWorld)) : list Event :=
  match turns with
  | [] => []
  | turn :: rest => turnEvents n turn ++ sequentialRun (S n) rest
  end.

(** The context a channel has at the moment. *)
Definition contextNow (st : Agent) (chatId : Z) : option UserContext :=
  a ← contextOf st !! chatId; objects st !! a.

(** A handler that may still push its answer. *)
Definition mayAnswer (stage : Stage) : bool :=
  match stage with
  | AwaitProcessing | AwaitCompletion _ => true
  | _ => false
  end.

(** The number of such handlers on the context object [a]. *)
Definition pendingOn (st : Agent) (a : nat) : nat :=
  length (List.filter (fun h => (h_context h =? a) && mayAnswer (h_stage h))
            (handlers st)).

(** At no point of the run are more than [k] handlers of one context object
    waiting to answer. *)
Fixpoint overlapWithin {pf : Platform} (k : nat) (st : Agent) (events : list Event)
    : bool :=
  forallb (fun a => pendingOn st a <=? k) (seq 0 (length (objects st)))
  && match events with
     | [] => true
     | e :: rest => overlapWithin k (agentStep st e) rest
     end.

(** The bound carried along a run: on every context object, the length of
    the history and the number of handlers still to answer add up to at
    most [10 + k]; a history that was sent is shorter than that. *)
Definition historyInv (k : nat) (st : Agent) : Prop :=
  (forall a ctx, objects st !! a = Some ctx ->
                 length (conversationHistory ctx) + pendingOn st a <= 10 + k) /\
  (forall h history, In h (handlers st) -> h_stage h = AwaitCompletion history ->
                     length history < 10 + k).

(** The agent [st] holds the per-channel contexts [m]: every channel has the
    context [m] gives it, in an object of its own. *)
Definition represents (st : Agent) (m : gmap Z UserContext) : Prop :=
  (forall c, contextNow st c = m !! c) /\
  (forall c a, contextOf st !! c = Some a -> a < length (objects st)) /\
  (forall c1 c2 a, contextOf st !! c1 = Some a -> contextOf st !! c2 = Some a ->
                   c1 = c2).

(** ** The site extractor *)

(** A call through [fetch]: the promise rejects, or resolves with a response
    whose body is read by [text()] or [json()], which may reject in turn. *)
Record FetchResponse (A : Type) := {
  f_ok : bool;
  f_status : nat;
  f_statusText : str;
  f_body : Result A
}.
Arguments f_ok {A} _.
Arguments f_status {A} _.
Arguments f_statusText {A} _.
Arguments f_body {A} _.

Inductive FetchOutcome (A : Type) : Type :=
| FetchRejects (message : str)
| FetchResolves (response : FetchResponse A).
Arguments FetchRejects {A} message.
Arguments FetchResolves {A} response.

Definition awaitFetch {A : Type} (o : FetchOutcome A) : Result (FetchResponse A) :=
  match o with
  | FetchRejects e => Throw e
  | FetchResolves r => Ok r
  end.

Record BrandColors := {
  primary : str;
  secondary : str
}.

Record PracticeData := {
  company : str;
  contactName : str;
  phone : str;
  email : str;
  p_location : str;
  services : list JsVal;
  practiceType : str;
  practiceId : str;
  leadSource : str;
  leadScore : nat;
  brandColors : BrandColors;
  website : option str;
  isGeneralVersion : bool
}.

(** What the extractor meets for one URL: the page, the two completion
    requests, and the draws of [Math.random]; the k-th draw stands for the
    integer [Math.floor(Math.random() * range)] before it is reduced to the
    range. *)
Record ScrapeWorld := {
  s_page : FetchOutcome str;
  s_services : FetchOutcome JsVal;
  s_location : FetchOutcome JsVal;
  s_random : nat -> N
}.

(** [data.choices[0]?.message?.content?.trim()]; [None] is [undefined]. *)
Definition completionText (data : JsVal) : Result (option str) :=
  choices ← getProp data "choices";
  first ← getFirst choices;
  match getPropOpt (getPropOpt first "message") "content" with
  | JUndefined | JNull => Ok None
  | JStr text => Ok (Some (Js.trim text))
  | _ => Throw "content.trim is not a function"
  end.

(** The text of the completion when the response is [ok]; the outer [catch]
    of both extraction helpers turns every exception into [null]. *)
Definition completionOfResponse (w : FetchOutcome JsVal) : Result (option (option str)) :=
  response ← awaitFetch w;
  if f_ok response then
    data ← f_body response;
    text ← completionText data;
    Ok (Some text)
  else Ok None.

(** [null] is [None]; the array keeps whatever values the completion lists. *)
Definition extractServicesWithGLM {pf : Platform} (w : FetchOutcome JsVal)
    : option (list JsVal) :=
  match completionOfResponse w with
  | Ok (Some servicesText) =>
      match servicesText with
      | Some text =>
          match JSON_parse text with
          | Some (JArr items) => Some (firstn 4 items)
          | _ => None
          end
      | None => None
      end
  | _ => None
  end.

Definition extractLocationWithGLM (w : FetchOutcome JsVal) : option str :=
  match completionOfResponse w with
  | Ok (Some (Some loc)) =>
      if nonEmpty loc && negb (strEq loc "null") then Some loc else None
  | _ => None
  end.

Definition extractPhoneFromDomain (random : nat -> N) (domain : str) : str :=
  if Js.includes ".co.uk" domain || Js.includes ".uk" domain then
    "+44 20 7" ++ Js.ofN (random 0 mod 900 + 100) ++ " "
    ++ Js.ofN (random 1 mod 9000 + 1000)
  else if Js.includes ".au" domain then
    "+61 2 " ++ Js.ofN (random 0 mod 9000 + 1000) ++ " "
    ++ Js.ofN (random 1 mod 9000 + 1000)
  else
    "+1 " ++ Js.ofN (random 0 mod 900 + 100) ++ "-"
    ++ Js.ofN (random 1 mod 900 + 100) ++ "-"
    ++ Js.ofN (random 2 mod 9000 + 1000).

Definition defaultServices : list JsVal :=
  [JStr "Aesthetic Treatments"; JStr "Cosmetic Surgery"; JStr "Dermatology"].

Definition defaultLocation : str := "Professional Healthcare Location".

Definition clinicColors : BrandColors :=
  {| primary := "#0066cc"; secondary := "#004499" |}.

(** [new URL(url).hostname]. *)
Definition hostnameOf {pf : Platform} (url : str) : Result str :=
  match URL_hostname url with
  | Some domain => Ok domain
  | None => Throw "Invalid URL"
  end.

(** The page text: the [try] block up to [await response.text()]. *)
Definition fetchPage (w : ScrapeWorld) (url : str) : Result str :=
  response ← awaitFetch (s_page w);
  if f_ok response then f_body response
  else Throw ("Failed to fetch " ++ url ++ ": " ++ Js.ofNat (f_status response)).

(** The number of draws [extractPhoneFromDomain] takes from [Math.random]. *)
Definition phoneDraws (domain : str) : nat :=
  if Js.includes ".co.uk" domain || Js.includes ".uk" domain then 2
  else if Js.includes ".au" domain then 2
  else 3.

(** The object literal of the [try] block. *)
Definition pageProfile {pf : Platform} (w : ScrapeWorld) (url domain : str)
    : PracticeData :=
  let practiceId := generatePracticeId domain in
  let companyName := extractCompanyFromDomain domain in
  (* [[] || d] is [[]]: an array is truthy also when it is empty *)
  let realServices := default defaultServices (extractServicesWithGLM (s_services w)) in
  let realLocation := default defaultLocation (extractLocationWithGLM (s_location w)) in
  {| company := companyName;
     contactName := companyName ++ " Team";
     phone := extractPhoneFromDomain (s_random w) domain;
     email := "info@" ++ domain;
     p_location := realLocation;
     services := realServices;
     practiceType := "beauty";
     practiceId := practiceId;
     leadSource := "clinic-team-version";
     leadScore := 80;
     brandColors := clinicColors;
     website := Some url;
     isGeneralVersion := true |}.

(** The log line that closes the [try] block prints
    [realServices.slice(0,2).join(', ')]. *)
Definition servicesLogLine (realServices : list JsVal) : Result unit :=
  if forallb canStringify (firstn 2 realServices) then Ok tt
  else Throw typeErrorPrimitive.

(** The [try] block of [scrapeHealthcareWebsite], with the number of random
    draws it has taken when it ends: none when it stops before the profile
    is built, those of the phone number afterwards. *)
Definition scrapeFromPage {pf : Platform} (w : ScrapeWorld) (url : str)
    : nat * Result PracticeData :=
  match hostnameOf url with
  | Throw e => (0, Throw e)
  | Ok domain =>
      match fetchPage w url with
      | Throw e => (0, Throw e)
      | Ok html =>
          let practiceData := pageProfile w url domain in
          (phoneDraws domain,
           _ ← servicesLogLine (services practiceData); Ok practiceData)
      end
  end.

(** The object literal of the [catch] block; [drawn] draws are used up. *)
Definition fallbackProfile (w : ScrapeWorld) (drawn : nat) (domain : str)
    : PracticeData :=
  let practiceId := generatePracticeId domain in
  let companyName := extractCompanyFromDomain domain in
  {| company := companyName;
     contactName := companyName ++ " Team";
     phone := extractPhoneFromDomain (fun k => s_random w (drawn + k)) domain;
     email := "info@" ++ domain;
     p_location := "Unknown Location";
     services := [JStr "Healthcare Services"];
     practiceType := "beauty";
     practiceId := practiceId;
     leadSource := "fallback-extraction";
     leadScore := 60;
     brandColors := clinicColors;
     website := None;
     isGeneralVersion := true |}.

(** The [catch] block: the host name is computed again. *)
Definition scrapeFallback {pf : Platform} (w : ScrapeWorld) (drawn : nat) (url : str)
    : Result PracticeData :=
  domain ← hostnameOf url;
  Ok (fallbackProfile w drawn domain).

Definition scrapeHealthcareWebsite {pf : Platform} (w : ScrapeWorld) (url : str)
    : Result PracticeData :=
  let (drawn, attempt) := scrapeFromPage w url in
  tryCatch attempt (fun _ => scrapeFallback w drawn url).

(** ** The deployment orchestrator *)

(** The calls made to the deployment platform, in order. *)
Inductive Call : Type :=
| CProjectCreate (name : str)
| CEnvironments (projectId : str)
| CServiceCreate (projectId repo : str)
| CCliVariableSet (key value serviceId : str)
| CGqlVariableUpsert (key value projectId environmentId serviceId : str)
| CCliDomainGenerate (serviceId : str)
| CGqlDomainCreate (projectId environmentId serviceId : str).

(** A computation that may throw and records the calls it makes. *)
Record Traced (A : Type) := {
  calls : list Call;
  outcome : Result A
}.
Arguments calls {A} _.
Arguments outcome {A} _.

#[global] Instance Traced_ret : MRet Traced :=
  fun A (a : A) => {| calls := []; outcome := Ok a |}.

#[global] Instance Traced_bind : MBind Traced :=
  fun A B (k : A -> Traced B) (m : Traced A) =>
    match outcome m with
    | Ok a => {| calls := calls m ++ calls (k a); outcome := outcome (k a) |}
    | Throw e => {| calls := calls m; outcome := Throw e |}
    end.

Definition perform {A : Type} (c : Call) (r : Result A) : Traced A :=
  {| calls := [c]; outcome := r |}.

Definition throwT {A : Type} (e : str) : Traced A :=
  {| calls := []; outcome := Throw e |}.

Definition tryCatchT {A : Type} (m : Traced A) (h : str -> Traced A) : Traced A :=
  match outcome m with
  | Ok _ => m
  | Throw e => {| calls := calls m ++ calls (h e); outcome := outcome (h e) |}
  end.

(** The body of a GraphQL answer: [errors] rendered by [JSON.stringify] when
    it is set, the payload under [data] when it is there, and the rendering
    of the whole body. *)
Record GqlBody (A : Type) := {
  g_errors : option str;
  g_data : option A;
  g_text : str
}.
Arguments g_errors {A} _.
Arguments g_data {A} _.
Arguments g_text {A} _.

(** A child process started by [spawn]: the ['error'] event, or ['close']
    with the exit code and what was written to the two streams.  As the
    options passed to [spawn] read [process.env] inside the initialiser of
    the local [const process], a run that evaluates them ends in the first
    case. *)
Inductive CliOutcome : Type :=
| CliSpawnError (message : str)
| CliClosed (code : Z) (output errorOutput : str).

Record Project := {
  project_id : str;
  project_name : str
}.

Record Environment := {
  env_id : str;
  env_name : str
}.

Record Service := {
  service_id : str
}.

Record Repository := {
  repo_name : str;
  html_url : str;
  clone_url : str;
  full_name : str;
  owner_login : str
}.

Record VariableInput := {
  v_name : str;
  v_value : str;
  v_projectId : str;
  v_environmentId : str;
  v_serviceId : str
}.

Record DomainInput := {
  d_projectId : str;
  d_environmentId : str;
  d_serviceId : str
}.

(** The deployment platform; the environments query answers [None] when the
    path [data.project.environments.edges] cannot be read. *)
Record RailwayWorld := {
  rw_projectCreate : str -> AxiosOutcome (GqlBody Project);
  rw_environments : str -> AxiosOutcome (option (list Environment));
  rw_serviceCreate : str -> str -> AxiosOutcome (GqlBody Service);
  rw_cliVariableSet : str -> str -> str -> CliOutcome;
  rw_gqlVariableUpsert : VariableInput -> AxiosOutcome (GqlBody unit);
  rw_cliDomainGenerate : str -> CliOutcome;
  rw_gqlDomainCreate : DomainInput -> AxiosOutcome (GqlBody str)
}.

Inductive DeployStatus : Type :=
| Deployed
| Fallback.

Record DeploymentResult := {
  d_url : str;
  d_status : DeployStatus;
  d_deploymentMethod : str
}.

Record Domain := {
  dom_url : str;
  dom_domain : str
}.

Definition railwayCreateProject (w : RailwayWorld) (name : str) : Traced Project :=
  perform (CProjectCreate name)
    (body ← awaitAxios (rw_projectCreate w name);
     match g_errors body with
     | Some errors => Throw ("Railway GraphQL errors: " ++ errors)
     | None =>
         match g_data body with
         | Some project => Ok project
         | None => Throw ("Railway API returned null data: " ++ g_text body)
         end
     end).

Definition railwayGetEnvironments (w : RailwayWorld) (projectId : str)
    : Traced (list Environment) :=
  perform (CEnvironments projectId)
    (edges ← awaitAxios (rw_environments w projectId);
     match edges with
     | Some environments => Ok environments
     | None => Throw (typeErrorReading "undefined" "project")
     end).

Definition railwayCreateService (w : RailwayWorld) (projectId repoFullName : str)
    : Traced Service :=
  perform (CServiceCreate projectId repoFullName)
    (body ← awaitAxios (rw_serviceCreate w projectId repoFullName);
     match g_errors body with
     | Some errors => Throw ("Railway Service GraphQL errors: " ++ errors)
     | None =>
         match g_data body with
         | Some service => Ok service
         | None => Throw ("Railway Service API returned null data: " ++ g_text body)
         end
     end).

(** The promise around [railway variables set]. *)
Definition cliVariableResult (o : CliOutcome) : Result unit :=
  match o with
  | CliSpawnError e => Throw e
  | CliClosed code _ errorOutput =>
      if (code =? 0)%Z then Ok tt else Throw ("Railway CLI failed: " ++ errorOutput)
  end.

Fixpoint cliSetAll (w : RailwayWorld) (serviceId : str)
    (variables : list (str * str)) : Traced unit :=
  match variables with
  | [] => mret tt
  | (key, value) :: rest =>
      _ ← perform (CCliVariableSet key value serviceId)
            (cliVariableResult (rw_cliVariableSet w key value serviceId));
      cliSetAll w serviceId rest
  end.

Fixpoint gqlSetAll (w : RailwayWorld) (projectId environmentId serviceId : str)
    (variables : list (str * str)) : Traced unit :=
  match variables with
  | [] => mret tt
  | (key, value) :: rest =>
      _ ← perform (CGqlVariableUpsert key value projectId environmentId serviceId)
            (body ← awaitAxios
                      (rw_gqlVariableUpsert w
                         {| v_name := key; v_value := value; v_projectId := projectId;
                            v_environmentId := environmentId;
                            v_serviceId := serviceId |});
             match g_errors body with
             | Some errors => Throw ("GraphQL error: " ++ errors)
             | None => Ok tt
             end);
      gqlSetAll w projectId environmentId serviceId rest
  end.

Definition railwayVariables (practiceData : PracticeData) : list (str * str) :=
  [("NEXT_PUBLIC_PRACTICE_ID" : str, practiceId practiceData);
   ("NEXT_PUBLIC_COMPANY_NAME" : str, company practiceData);
   ("NODE_ENV" : str, "production" : str)].

(** The command line first; when it fails, the structured API, whose own
    failure is logged and swallowed. *)
Definition railwaySetVariables (w : RailwayWorld)
    (projectId environmentId serviceId : str) (practiceData : PracticeData)
    : Traced unit :=
  tryCatchT (cliSetAll w serviceId (railwayVariables practiceData))
    (fun _ =>
       tryCatchT
         (gqlSetAll w projectId environmentId serviceId (railwayVariables practiceData))
         (fun _ => mret tt)).

Definition isHostStop (c : ascii) : bool := Ascii.eqb c "/" || Js.isSpace c.

Fixpoint takeUntil (stop : ascii -> bool) (s : str) : str :=
  match s with
  | [] => []
  | c :: t => if stop c then [] else c :: takeUntil stop t
  end.

(** The group of [/https?:\/\/([^\/\s]+)/] when the match starts here. *)
Definition domainHere (s : str) : option str :=
  let after :=
    if Js.startsWith "https://" s then Some (skipn 8 s)
    else if Js.startsWith "http://" s then Some (skipn 7 s)
    else None in
  match after with
  | Some rest =>
      match takeUntil isHostStop rest with
      | [] => None
      | host => Some host
      end
  | None => None
  end.

(** [output.match(/https?:\/\/([^\/\s]+)/)]: the leftmost match. *)
Fixpoint matchDomain (output : str) : option str :=
  match domainHere output with
  | Some host => Some host
  | None =>
      match output with
      | [] => None
      | _ :: t => matchDomain t
      end
  end.

(** The promise around [railway domain generate]. *)
Definition cliDomainResult (o : CliOutcome) : Result str :=
  match o with
  | CliSpawnError e => Throw e
  | CliClosed code output errorOutput =>
      if (code =? 0)%Z then
        match matchDomain output with
        | Some domain => Ok domain
        | None => Throw "Could not extract domain from CLI output"
        end
      else Throw ("Railway CLI failed: " ++ errorOutput)
  end.

Definition domainOf (domain : str) : Domain :=
  {| dom_url := "https://" ++ domain; dom_domain := domain |}.

(** The structured mutation that follows a failed command line. *)
Definition gqlCreateDomain (w : RailwayWorld)
    (projectId environmentId serviceId : str) : Traced Domain :=
  perform (CGqlDomainCreate projectId environmentId serviceId)
    (body ← awaitAxios
              (rw_gqlDomainCreate w
                 {| d_projectId := projectId; d_environmentId := environmentId;
                    d_serviceId := serviceId |});
     match g_errors body with
     | Some errors => Throw ("Railway domain GraphQL error: " ++ errors)
     | None =>
         match g_data body with
         | Some domain => Ok (domainOf domain)
         | None => Throw (typeErrorReading "undefined" "domainCreate")
         end
     end).

Definition cliCreateDomain (w : RailwayWorld) (serviceId : str) : Traced Domain :=
  domain ← perform (CCliDomainGenerate serviceId)
             (cliDomainResult (rw_cliDomainGenerate w serviceId));
  mret (domainOf domain).

Definition railwayCreateDomain (w : RailwayWorld)
    (projectId environmentId serviceId : str) : Traced Domain :=
  tryCatchT (cliCreateDomain w serviceId)
    (fun error =>
       tryCatchT (gqlCreateDomain w projectId environmentId serviceId)
         (fun fallbackError =>
            throwT ("Railway domain creation completely failed: " ++ error
                    ++ " | " ++ fallbackError))).

(** [environments.find(env => env.name === 'production') || environments[0]]. *)
Definition chooseEnvironment (environments : list Environment) : option Environment :=
  match List.find (fun env => strEq (env_name env) "production") environments with
  | Some env => Some env
  | None => head environments
  end.

(** The [try] block of [deployToRailway]. *)
Definition deployToRailwayTry (w : RailwayWorld) (practiceData : PracticeData)
    (repository : Repository) : Traced DeploymentResult :=
  let projectName := hyphenate (Js.toLowerCase (company practiceData)) ++ "-demo" in
  project ← railwayCreateProject w projectName;
  environments ← railwayGetEnvironments w (project_id project);
  let prodEnv := chooseEnvironment environments in
  service ← railwayCreateService w (project_id project) (full_name repository);
  prodEnv ← match prodEnv with
            | Some env => mret env
            | None => throwT (typeErrorReading "undefined" "id")
            end;
  _ ← tryCatchT
        (railwaySetVariables w (project_id project) (env_id prodEnv)
           (service_id service) practiceData)
        (fun _ => mret tt);
  domain ← railwayCreateDomain w (project_id project) (env_id prodEnv)
             (service_id service);
  mret {| d_url := dom_url domain; d_status := Deployed;
          d_deploymentMethod := "railway-mcp-direct" |}.

Definition fallbackUrl (repository : Repository) : str :=
  "https://" ++ owner_login repository ++ ".github.io/" ++ repo_name repository.

Definition deployToRailway (w : RailwayWorld) (practiceData : PracticeData)
    (repository : Repository) : Traced DeploymentResult :=
  tryCatchT (deployToRailwayTry w practiceData repository)
    (fun _ =>
       mret {| d_url := fallbackUrl repository; d_status := Fallback;
               d_deploymentMethod := "github-pages" |}).

(** The calls that follow the command-line attempt at a domain. *)
Fixpoint afterCliDomain (trace : list Call) : list Call :=
  match trace with
  | [] => []
  | CCliDomainGenerate _ :: rest => rest
  | _ :: rest => afterCliDomain rest
  end.

Definition isVariableCall (c : Call) : bool :=
  match c with
  | CCliVariableSet _ _ _ | CGqlVariableUpsert _ _ _ _ _ => true
  | _ => false
  end.

(** ** The per-lead sequencer *)

Record Config := {
  masterAgentId : str
}.

Record NotionPage := {
  page_id : str
}.

(** What the processing of one lead meets.  [l_clock k] is what [Date.now()]
    reads at the k-th place of the lead that calls it, in the order of the
    text: the start (0), the lead id (1), the agent id (2), the repository
    name (3), and the end of the lead (4), in the [try] block or in the
    [catch] block.  A place is read once at most; a lead that fails early
    leaves the places of the later phases unread.  [l_isoTime] is the final
    [toISOString()].  [l_personalize] is the outcome of the clone, write,
    commit and push steps taken together: the message of the first one that
    fails. *)
Record LeadWorld := {
  l_clock : nat -> Z;
  l_isoTime : str;
  l_scrape : ScrapeWorld;
  l_notionCreate : AxiosOutcome NotionPage;
  l_github : str -> AxiosOutcome Repository;
  l_personalize : Result unit;
  l_railway : RailwayWorld;
  l_notionUpdate : AxiosOutcome unit
}.

Inductive LeadStatus : Type :=
| Success
| Failed.

(** One entry of the result list; a field that the object does not have is
    [None]. *)
Record PipelineResult := {
  r_leadId : option str;
  r_leadUrl : str;
  r_status : LeadStatus;
  r_company : option str;
  r_doctor : option str;
  r_demoUrl : option str;
  r_agentId : option str;
  r_notionId : option str;
  r_repositoryUrl : option str;
  r_error : option str;
  r_duration : option Z;
  r_timestamp : str
}.

Definition storeLeadInNotion (w : LeadWorld) (leadData : PracticeData)
    (websiteUrl : str) : Result NotionPage :=
  tryCatch (awaitAxios (l_notionCreate w))
    (fun error => Throw ("Notion storage failed: " ++ error)).

Definition createElevenLabsAgent (config : Config) (w : LeadWorld)
    (practiceData : PracticeData) : str :=
  match
    Ok ("agent_" ++ Js.ofZ (l_clock w 2) ++ "_" ++ practiceId practiceData)
  with
  | Ok agentId => agentId
  | Throw _ => masterAgentId config
  end.

Definition personalizeRepository (w : LeadWorld) (repository : Repository)
    : Result unit :=
  tryCatch (l_personalize w)
    (fun error => Throw ("Repository personalization failed: " ++ error)).

Definition createPersonalizedRepository (w : LeadWorld)
    (practiceData : PracticeData) (agentId : str) : Result Repository :=
  let repoName := practiceId practiceData ++ "-demo-" ++ Js.ofZ (l_clock w 3) in
  tryCatch
    (repository ← awaitAxios (l_github w repoName);
     _ ← personalizeRepository w repository;
     Ok repository)
    (fun error => Throw ("Repository creation failed: " ++ error)).

(** Best effort: a failure is logged and swallowed. *)
Definition updateNotionWithResults (w : LeadWorld) (notionPageId demoUrl agentId : str)
    : Result unit :=
  tryCatch (awaitAxios (l_notionUpdate w)) (fun _ => Ok tt).

(** [Math.round(ms / 1000)]. *)
Definition roundSeconds (ms : Z) : Z := ((ms + 500) / 1000)%Z.

(** The phases of one lead, up to the deployment result. *)
Definition leadPhases {pf : Platform} (config : Config) (w : LeadWorld)
    (websiteUrl : str)
    : Result (PracticeData * NotionPage * str * Repository * DeploymentResult) :=
  scrapedData ← scrapeHealthcareWebsite (l_scrape w) websiteUrl;
  notionPage ← storeLeadInNotion w scrapedData websiteUrl;
  let agentId := createElevenLabsAgent config w scrapedData in
  repository ← createPersonalizedRepository w scrapedData agentId;
  deployment ← outcome (deployToRailway (l_railway w) scrapedData repository);
  _ ← updateNotionWithResults w (page_id notionPage) (d_url deployment) agentId;
  Ok (scrapedData, notionPage, agentId, repository, deployment).

Definition processHealthcareWebsite {pf : Platform} (config : Config) (w : LeadWorld)
    (websiteUrl : str) : Result PipelineResult :=
  let startTime := l_clock w 0 in
  let leadId := "lead-" ++ Js.ofZ (l_clock w 1) in
  match leadPhases config w websiteUrl with
  | Ok (scrapedData, notionPage, agentId, repository, deployment) =>
      Ok {| r_leadId := Some leadId;
            r_leadUrl := websiteUrl;
            r_status := Success;
            r_company := Some (company scrapedData);
            r_doctor := Some (contactName scrapedData);
            r_demoUrl := Some (d_url deployment);
            r_agentId := Some agentId;
            r_notionId := Some (page_id notionPage);
            r_repositoryUrl := Some (html_url repository);
            r_error := None;
            r_duration := Some (roundSeconds (l_clock w 4 - startTime));
            r_timestamp := l_isoTime w |}
  | Throw message =>
      Ok {| r_leadId := Some leadId;
            r_leadUrl := websiteUrl;
            r_status := Failed;
            r_company := None;
            r_doctor := None;
            r_demoUrl := None;
            r_agentId := None;
            r_notionId := None;
            r_repositoryUrl := None;
            r_error := Some message;
            r_duration := Some (roundSeconds (l_clock w 4 - startTime));
            r_timestamp := l_isoTime w |}
  end.

Record LeadCandidate := {
  c_url : str;
  c_title : option str;
  c_snippet : str;
  c_id : str
}.

(** A batch run: the search collaborator, and the world of the i-th lead. *)
Record BatchWorld := {
  b_search : nat -> FetchOutcome (option (list ExaResult));
  b_lead : nat -> LeadWorld
}.

Definition findHealthcarePracticesWithEXA (w : BatchWorld) (count : nat)
    : Result (list LeadCandidate) :=
  response ← awaitFetch (b_search w count);
  if negb (f_ok response) then
    Throw ("EXA API error: " ++ Js.ofNat (f_status response) ++ " "
           ++ f_statusText response)
  else
    data ← f_body response;
    match data with
    | Some (r :: rs) =>
        Ok (map (fun result =>
                   {| c_url := r_url result;
                      c_title := r_title result;
                      c_snippet := orEmpty (r_text result);
                      c_id := r_id result |})
              (r :: rs))
    | _ => Throw "No healthcare practices found by EXA"
    end.

(** The entry pushed by the [catch] of the loop. *)
Definition failedEntry (w : LeadWorld) (url message : str) : PipelineResult :=
  {| r_leadId := None;
     r_leadUrl := url;
     r_status := Failed;
     r_company := None;
     r_doctor := None;
     r_demoUrl := None;
     r_agentId := None;
     r_notionId := None;
     r_repositoryUrl := None;
     r_error := Some message;
     r_duration := None;
     r_timestamp := l_isoTime w |}.

(** The loop over the candidates, from index [i] on. *)
Fixpoint processLeads {pf : Platform} (config : Config) (w : BatchWorld) (i : nat)
    (practices : list LeadCandidate) : list PipelineResult :=
  match practices with
  | [] => []
  | practice :: rest =>
      let url := c_url practice in
      let entry :=
        match processHealthcareWebsite config (b_lead w i) url with
        | Ok result => result
        | Throw message => failedEntry (b_lead w i) url message
        end in
      entry :: processLeads config w (S i) rest
  end.

Definition executeAutonomousWorkflow {pf : Platform} (config : Config) (w : BatchWorld)
    (leadCount : nat) : Result (list PipelineResult) :=
  healthcarePractices ← findHealthcarePracticesWithEXA w leadCount;
  if length healthcarePractices =? 0 then
    Throw "No healthcare practices found with EXA search"
  else Ok (processLeads config w 0 healthcarePractices).

(** An entry as the batch summary expects it. *)
Definition wellFormedEntry (r : PipelineResult) : Prop :=
  match r_status r with
  | Failed => exists message, r_error r = Some message /\ message <> []
  | Success =>
      is_Some (r_demoUrl r) /\ is_Some (r_agentId r) /\ is_Some (r_repositoryUrl r)
  end.

(** ** A platform to run examples on *)

(** [JSON.parse] on the part of JSON that has no escape sequence in strings
    and no fraction or exponent in numbers; other texts are rejected, also
    where [JSON.parse] reads them.  The general results below hold for every
    platform; this one evaluates the examples, whose texts are within that
    part. *)
Module JsonFragment.

Definition quote : ascii := ascii_of_nat 34.

(** A string literal of JSON without escapes. *)
Definition quoted (s : str) : str := quote :: s ++ [quote].

Definition isJsonSpace (c : ascii) : bool :=
  Ascii.eqb c " " || (nat_of_ascii c =? 9) || (nat_of_ascii c =? 10)
  || (nat_of_ascii c =? 13).

Definition skipSpace (s : str) : str := Js.dropWhile isJsonSpace s.

(** The characters of a string literal up to its closing quote. *)
Fixpoint stringBody (s : str) : option (str * str) :=
  match s with
  | [] => None
  | c :: t =>
      if Ascii.eqb c quote then Some ([], t)
      else if Ascii.eqb c "\" || (nat_of_ascii c <? 32) then None
      else match stringBody t with
           | Some (body, rest) => Some (c :: body, rest)
           | None => None
           end
  end.

Fixpoint digits (acc : Z) (s : str) : Z * str :=
  match s with
  | c :: t =>
      if Js.isDigit c
      then digits (10 * acc + Z.of_nat (nat_of_ascii c - 48)) t
      else (acc, s)
  | [] => (acc, [])
  end.

Definition leadingDigit (s : str) : bool :=
  match s with
  | d :: _ => Js.isDigit d
  | [] => false
  end.

Definition number (s : str) : option (JsVal * str) :=
  match s with
  | c :: t =>
      if Js.isDigit c then
        (if Ascii.eqb c "0" && leadingDigit t then None
         else let (n, rest) := digits 0 s in Some (JNum n, rest))
      else None
  | [] => None
  end.

(** A member in front of the members that follow it: when its name comes
    again, the later value is the one the object has. *)
Definition addMember (key : str) (v : JsVal) (fields : list (str * JsVal))
    : list (str * JsVal) :=
  if existsb (fun kv => strEq (fst kv) key) fields then fields
  else (key, v) :: fields.

Fixpoint value (fuel : nat) (s : str) : option (JsVal * str) :=
  match fuel with
  | 0 => None
  | S fuel =>
      let s := skipSpace s in
      if Js.startsWith "null" s then Some (JNull, skipn 4 s)
      else if Js.startsWith "true" s then Some (JBool true, skipn 4 s)
      else if Js.startsWith "false" s then Some (JBool false, skipn 5 s)
      else match s with
           | [] => None
           | c :: t =>
               if Ascii.eqb c quote then
                 match stringBody t with
                 | Some (body, rest) => Some (JStr body, rest)
                 | None => None
                 end
               else if Ascii.eqb c "[" then
                 (if Js.startsWith "]" (skipSpace t)
                  then Some (JArr [], skipn 1 (skipSpace t))
                  else match elements fuel t with
                       | Some (items, rest) => Some (JArr items, rest)
                       | None => None
                       end)
               else if Ascii.eqb c "{" then
                 (if Js.startsWith "}" (skipSpace t)
                  then Some (JObj [], skipn 1 (skipSpace t))
                  else match members fuel t with
                       | Some (fields, rest) => Some (JObj fields, rest)
                       | None => None
                       end)
               else if Ascii.eqb c "-" then
                 match number t with
                 | Some (JNum n, rest) => Some (JNum (- n), rest)
                 | _ => None
                 end
               else number s
           end
  end
with elements (fuel : nat) (s : str) : option (list JsVal * str) :=
  match fuel with
  | 0 => None
  | S fuel =>
      match value fuel s with
      | Some (v, rest) =>
          match skipSpace rest with
          | c :: t =>
              if Ascii.eqb c "]" then Some ([v], t)
              else if Ascii.eqb c "," then
                match elements fuel t with
                | Some (vs, rest') => Some (v :: vs, rest')
                | None => None
                end
              else None
          | [] => None
          end
      | None => None
      end
  end
with members (fuel : nat) (s : str) : option (list (str * JsVal) * str) :=
  match fuel with
  | 0 => None
  | S fuel =>
      match skipSpace s with
      | q :: t =>
          if Ascii.eqb q quote then
            match stringBody t with
            | Some (key, rest) =>
                match skipSpace rest with
                | colon :: t' =>
                    if Ascii.eqb colon ":" then
                      match value fuel t' with
                      | Some (v, rest') =>
                          match skipSpace rest' with
                          | c :: t'' =>
                              if Ascii.eqb c "}" then Some ([(key, v)], t'')
                              else if Ascii.eqb c "," then
                                match members fuel t'' with
                                | Some (fs, rest'') => Some (addMember key v fs, rest'')
                                | None => None
                                end
                              else None
                          | [] => None
                          end
                      | None => None
                      end
                    else None
                | [] => None
                end
            | None => None
            end
          else None
      | [] => None
      end
  end.

Definition parse (text : str) : option JsVal :=
  match value (2 * length text + 2) text with
  | Some (v, rest) =>
      match skipSpace rest with
      | [] => Some v
      | _ :: _ => None
      end
  | None => None
  end.

End JsonFragment.

(** [new URL(url).hostname] on absolute [http] and [https] URLs whose
    authority is a host with or without a port: the host is lower-cased and
    the port left out; anything else is rejected. *)
Module UrlFragment.

Definition isHostEnd (c : ascii) : bool :=
  Ascii.eqb c "/" || Ascii.eqb c "?" || Ascii.eqb c "#".

Fixpoint takeHost (s : str) : str :=
  match s with
  | [] => []
  | c :: t => if isHostEnd c then [] else c :: takeHost t
  end.

Definition isHostChar (c : ascii) : bool :=
  Js.isLowerAlnum c || Js.isHyphen c || Ascii.eqb c "."
  || Ascii.eqb c "[" || Ascii.eqb c "]" || Ascii.eqb c ":".

Fixpoint splitAt (stop : ascii -> bool) (s : str) : str * str :=
  match s with
  | [] => ([], [])
  | c :: t =>
      if stop c then ([], s)
      else let (before, after) := splitAt stop t in (c :: before, after)
  end.

(** Nothing, or a colon and the digits of a port. *)
Definition isPort (s : str) : bool :=
  match s with
  | [] => true
  | c :: t => Ascii.eqb c ":" && forallb Js.isDigit t
  end.

(** The host and what follows it in the authority: a bracketed address ends
    at its bracket, a name at the first colon. *)
Definition splitPort (authority : str) : str * str :=
  if Js.startsWith "[" authority then
    let (address, after) := splitAt (fun c => Ascii.eqb c "]") authority in
    (address ++ firstn 1 after, skipn 1 after)
  else splitAt (fun c => Ascii.eqb c ":") authority.

Definition hostname (url : str) : option str :=
  let rest :=
    if Js.startsWith "https://" url then Some (skipn 8 url)
    else if Js.startsWith "http://" url then Some (skipn 7 url)
    else None in
  match rest with
  | Some r =>
      let (name, port) := splitPort (takeHost r) in
      let host := Js.toLowerCase name in
      if nonEmpty host && forallb isHostChar host && isPort port then Some host
      else None
  | None => None
  end.

End UrlFragment.

Definition samplePlatform : Platform :=
  {| JSON_parse := JsonFragment.parse; URL_hostname := UrlFragment.hostname |}.

(** ** Sample worlds *)

(** A completion body whose first choice carries [text]. *)
Definition completionOf (text : JsVal) : JsVal :=
  JObj [("choices" : str,
         JArr [JObj [("message" : str, JObj [("content" : str, text)])]])].

(** A body without [choices], as the endpoint sends with an error report. *)
Definition errorBody : JsVal :=
  JObj [("error" : str, JObj [("message" : str, JStr "Rate limit exceeded")])].

Definition chatWorld (body : JsVal) : TurnWorld :=
  {| t_clockUser := "2025-01-01T10:00:00.000Z";
     t_clockAssistant := "2025-01-01T10:00:02.000Z";
     t_sendProcessing := Ok tt;
     t_llm := fun _ _ => AxiosResolves body;
     t_sendReply := Ok tt |}.

Definition fencedReply : str :=
  "```json" ++ [ascii_of_nat 10]
  ++ "{" ++ JsonFragment.quoted "executeWorkflow" ++ ": false, "
  ++ JsonFragment.quoted "response" ++ ": " ++ JsonFragment.quoted "I find clinics."
  ++ "}"
  ++ [ascii_of_nat 10] ++ "```".

Definition okResponse {A : Type} (body : A) : FetchOutcome A :=
  FetchResolves {| f_ok := true; f_status := 200; f_statusText := "OK";
                   f_body := Ok body |}.

(** A page that loads, a services completion that lists nothing, and a
    location completion that names a city. *)
Definition emptyServicesWorld : ScrapeWorld :=
  {| s_page := okResponse ("<html><body>Glow Aesthetics</body></html>" : str);
     s_services := okResponse (completionOf (JStr "[]"));
     s_location := okResponse (completionOf (JStr "Vienna, Austria"));
     s_random := fun k => (7 * N.of_nat k + 123)%N |}.

(** The page loads and the services completion lists an object that has a
    property [toString] of its own. *)
Definition unprintableServicesWorld : ScrapeWorld :=
  {| s_page := okResponse ("<html><body>Glow Aesthetics</body></html>" : str);
     s_services :=
       okResponse
         (completionOf
            (JStr (("[{" : str) ++ JsonFragment.quoted "toString" ++ (": 1}]" : str))));
     s_location := okResponse (completionOf (JStr "Vienna, Austria"));
     s_random := fun k => (7 * N.of_nat k + 123)%N |}.

(** A page that does not answer. *)
Definition unreachableWorld : ScrapeWorld :=
  {| s_page := FetchRejects "fetch failed";
     s_services := FetchRejects "fetch failed";
     s_location := FetchRejects "fetch failed";
     s_random := fun k => (7 * N.of_nat k + 123)%N |}.

Definition gqlOk {A : Type} (payload : A) : AxiosOutcome (GqlBody A) :=
  AxiosResolves {| g_errors := None; g_data := Some payload; g_text := "{}" |}.

Definition spawnFails : CliOutcome :=
  CliSpawnError "Cannot access 'process' before initialization".

(** The command line fails at both steps; the structured API answers. *)
Definition secondTierRailway : RailwayWorld :=
  {| rw_projectCreate := fun name => gqlOk {| project_id := "prj_1"; project_name := name |};
     rw_environments := fun _ =>
       AxiosResolves (Some [{| env_id := "env_s"; env_name := "staging" |};
                            {| env_id := "env_p"; env_name := "production" |}]);
     rw_serviceCreate := fun _ _ => gqlOk {| service_id := "svc_1" |};
     rw_cliVariableSet := fun _ _ _ => spawnFails;
     rw_gqlVariableUpsert := fun _ => gqlOk tt;
     rw_cliDomainGenerate := fun _ => spawnFails;
     rw_gqlDomainCreate := fun _ => gqlOk ("glow-demo.up.railway.app" : str) |}.

(** The platform refuses the project: the whole orchestration step throws. *)
Definition downRailway : RailwayWorld :=
  {| rw_projectCreate := fun _ => AxiosRejects "Request failed with status code 503";
     rw_environments := fun _ => AxiosRejects "Request failed with status code 503";
     rw_serviceCreate := fun _ _ => AxiosRejects "Request failed with status code 503";
     rw_cliVariableSet := fun _ _ _ => spawnFails;
     rw_gqlVariableUpsert := fun _ => AxiosRejects "Request failed with status code 503";
     rw_cliDomainGenerate := fun _ => spawnFails;
     rw_gqlDomainCreate := fun _ => AxiosRejects "Request failed with status code 503" |}.

Definition sampleRepository (name : str) : Repository :=
  {| repo_name := name;
     html_url := "https://github.com/leadsprint/" ++ name;
     clone_url := "https://github.com/leadsprint/" ++ name ++ ".git";
     full_name := "leadsprint/" ++ name;
     owner_login := "leadsprint" |}.

Definition sampleLead (railway : RailwayWorld) (personalize : Result unit) : LeadWorld :=
  {| l_clock := fun k => (1700000000000 + 1500 * Z.of_nat k)%Z;
     l_isoTime := "2023-11-14T22:13:26.000Z";
     l_scrape := emptyServicesWorld;
     l_notionCreate := AxiosResolves {| page_id := "page_1" |};
     l_github := fun name => AxiosResolves (sampleRepository name);
     l_personalize := personalize;
     l_railway := railway;
     l_notionUpdate := AxiosRejects "Request failed with status code 400" |}.

(** The profile extracted in [emptyServicesWorld]. *)
Definition emptyServicesProfile : PracticeData :=
  {| company := "Glow Aesthetics Clinic";
     contactName := "Glow Aesthetics Clinic Team";
     phone := "+44 20 7223 1130";
     email := "info@www.glow-aesthetics.co.uk";
     p_location := "Vienna, Austria";
     services := [];
     practiceType := "beauty";
     practiceId := "glow-aesthetics";
     leadSource := "clinic-team-version";
     leadScore := 80;
     brandColors := clinicColors;
     website := Some ("https://www.glow-aesthetics.co.uk/" : str);
     isGeneralVersion := true |}.

Definition sampleConfig : Config := {| masterAgentId := "agent_master" |}.

Definition sampleProfile : PracticeData :=
  {| company := "Glow Aesthetics Clinic";
     contactName := "Glow Aesthetics Clinic Team";
     phone := "+44 20 7223 1130";
     email := "info@www.glow-aesthetics.co.uk";
     p_location := "Vienna, Austria";
     services := defaultServices;
     practiceType := "beauty";
     practiceId := "glow-aesthetics";
     leadSource := "clinic-team-version";
     leadScore := 80;
     brandColors := clinicColors;
     website := Some ("https://www.glow-aesthetics.co.uk/" : str);
     isGeneralVersion := true |}.

(** Two candidates: the push of the first repository fails, the second lead
    goes through. *)
Definition twoLeadBatch : BatchWorld :=
  {| b_search := fun _ =>
       okResponse
         (Some [{| r_url := "https://www.glow-aesthetics.co.uk/";
                   r_title := Some ("Glow Aesthetics" : str);
                   r_text := None; r_id := "a" |};
                {| r_url := "https://www.skin-lab.com/";
                   r_title := Some ("Skin Lab" : str);
                   r_text := Some ("Botox and fillers" : str); r_id := "b" |}]);
     b_lead := fun i =>
       match i with
       | 0 => sampleLead secondTierRailway (Throw "Command failed: git push origin main")
       | _ => sampleLead secondTierRailway (Ok tt)
       end |}.

Definition austriaSearch : ExaWorld :=
  fun _ =>
    AxiosResolves
      (Some [{| r_url := "https://www.glow.at/"; r_title := Some ("Glow Botox Wien" : str);
                r_text := None; r_id := "a" |};
             {| r_url := "https://www.skin-lab.com/"; r_title := Some ("Skin Lab" : str);
                r_text := Some ("Botox in London" : str); r_id := "b" |};
             {| r_url := "https://www.derma.at/"; r_title := None;
                r_text := Some ("BOTOX Salzburg" : str); r_id := "c" |}]).

Definition austriaBotox : WorkflowConfig :=
  {| leadCount := Some 1; specialty := Some ("Botox" : str);
     location := Some ("Austria" : str); searchQuery := None; filters := None |}.

(** ** The custom workflow *)

Definition generateCustomSearchQuery (workflowConfig : WorkflowConfig) : str :=
  let query :=
    match truthyStr (specialty workflowConfig) with
    | Some s => s ++ " clinic practice doctor"
    | None => "healthcare practice" : str
    end in
  match truthyStr (location workflowConfig) with
  | Some l => query ++ " " ++ l
  | None => query
  end.

(** One entry of the custom result list; [practice] is the title, which may
    be absent. *)
Record CustomResult := {
  cr_practice : option str;
  cr_url : option str;
  cr_success : bool;
  cr_customConfig : option bool;
  cr_reason : option str;
  cr_error : option str
}.

Definition processSinglePractice (practice : ExaResult)
    (workflowConfig : option WorkflowConfig) : CustomResult :=
  {| cr_practice := r_title practice;
     cr_url := Some (r_url practice);
     cr_success := true;
     cr_customConfig := Some (match workflowConfig with Some _ => true | None => false end);
     cr_reason := None;
     cr_error := None |}.

(** The body of the loop for one practice; an array of filters is truthy
    also when it is empty. *)
Definition customEntry (workflowConfig : WorkflowConfig) (practice : ExaResult)
    : CustomResult :=
  let filteredOut :=
    match filters workflowConfig with
    | Some fs => negb (passesCustomFilters practice fs)
    | None => false
    end in
  if filteredOut then
    {| cr_practice := r_title practice;
       cr_url := None;
       cr_success := false;
       cr_customConfig := None;
       cr_reason := Some ("Filtered out by custom criteria" : str);
       cr_error := None |}
  else processSinglePractice practice (Some workflowConfig).

(** [workflowConfig.leadCount || 3]. *)
Definition effectiveLeadCount (workflowConfig : WorkflowConfig) : nat :=
  match leadCount workflowConfig with
  | Some (S n) => S n
  | _ => 3
  end.

(** [workflowConfig.searchQuery || this.generateCustomSearchQuery(...)]. *)
Definition effectiveQuery (workflowConfig : WorkflowConfig) : str :=
  match truthyStr (searchQuery workflowConfig) with
  | Some q => q
  | None => generateCustomSearchQuery workflowConfig
  end.

Definition executeCustomAutonomousWorkflow (exa : ExaWorld)
    (workflowConfig : WorkflowConfig) : Result (list CustomResult) :=
  let leadCount := effectiveLeadCount workflowConfig in
  let customSearchQuery := effectiveQuery workflowConfig in
  healthcarePractices ←
    findHealthcarePracticesWithCustomEXA exa customSearchQuery leadCount workflowConfig;
  if length healthcarePractices =? 0 then
    Throw ("No healthcare practices found with custom search: " ++ customSearchQuery)
  else Ok (map (customEntry workflowConfig) healthcarePractices).

(** None of the four keywords of the filter engine occurs in the text. *)
Definition keywordFree (s : str) : Prop :=
  Js.includes "exclude" s = false /\ Js.includes "avoid" s = false /\
  Js.includes "require" s = false /\ Js.includes "must" s = false.

(** A text with no white space at either end. *)
Definition isTrimmed (s : str) : Prop :=
  Js.trimStart s = s /\ Js.trimEnd s = s.

Definition newline : str := [ascii_of_nat 10].


Definition isGqlVariableCall (c : Call) : bool :=
  match c with
  | CGqlVariableUpsert _ _ _ _ _ => true
  | _ => false
  end.

Definition isCliVariableCall (c : Call) : bool :=
  match c with
  | CCliVariableSet _ _ _ => true
  | _ => false
  end.

(** Some variable is refused by the command line. *)
Definition someCliSetFails (w : RailwayWorld) (serviceId : str)
    (variables : list (str * str)) : bool :=
  existsb
    (fun kv =>
       match cliVariableResult (rw_cliVariableSet w (fst kv) (snd kv) serviceId) with
       | Ok _ => false
       | Throw _ => true
       end)
    variables.

(** ** The chat summary of the standard workflow *)

Definition optField (name : str) (value : option str) : list (str * JsVal) :=
  match value with
  | Some s => [(name, JStr s)]
  | None => []
  end.

(** The properties of a result object, as its two object literals list
    them. *)
Definition resultObject (r : PipelineResult) : list (str * JsVal) :=
  optField "leadId" (r_leadId r)
  ++ [("url" : str, JStr (r_leadUrl r));
      ("status" : str,
       JStr match r_status r with
            | Success => "success" : str
            | Failed => "failed" : str
            end)]
  ++ optField "company" (r_company r)
  ++ optField "doctor" (r_doctor r)
  ++ optField "demoUrl" (r_demoUrl r)
  ++ optField "agentId" (r_agentId r)
  ++ optField "notionId" (r_notionId r)
  ++ optField "repositoryUrl" (r_repositoryUrl r)
  ++ optField "error" (r_error r)
  ++ match r_duration r with
     | Some d => [("duration" : str, JNum d)]
     | None => []
     end
  ++ [("timestamp" : str, JStr (r_timestamp r))].

(** [results.filter(r => r.success).length]. *)
Definition successCount (results : list PipelineResult) : nat :=
  length (List.filter (fun r => truthy (lookupField "success" (resultObject r))) results).

(** The messages of [executeWorkflowWithUpdates], by their parameters. *)
Inductive BotMessage : Type :=
| MsgSearching
| MsgWorkflowComplete (successes total : nat)
| MsgNoLeads
| MsgWorkflowFailed (message : str).

(** [send k] is the outcome of the k-th [bot.sendMessage]; the result lists
    the messages handed to the bot and tells whether the method throws. *)
Definition executeWorkflowWithUpdates {pf : Platform} (config : Config)
    (send : nat -> Result unit) (w : BatchWorld) (leadCount : nat)
    : list BotMessage * Result unit :=
  let caught (k : nat) (sent : list BotMessage) (message : str) :=
    (sent ++ [MsgWorkflowFailed message], send k) in
  match send 0 with
  | Throw e => caught 1 [MsgSearching] e
  | Ok _ =>
      match executeAutonomousWorkflow config w leadCount with
      | Throw e => caught 1 [MsgSearching] e
      | Ok results =>
          let summary :=
            if 0 <? length results
            then MsgWorkflowComplete (successCount results) (length results)
            else MsgNoLeads in
          match send 1 with
          | Ok _ => ([MsgSearching; summary], Ok tt)
          | Throw e => caught 2 [MsgSearching; summary] e
          end
      end
  end.

(** ** Waiting for a deployment *)

Record WorkflowRun := {
  run_name : str;
  run_conclusion : option str;
  run_updatedAt : option Z
}.

(** What the wait meets: the runs listed at each attempt ([None] when the
    body has no [workflow_runs]), the clock read for the i-th run of an
    attempt, and the answer to the [HEAD] request for a URL at an attempt.
    [run_updatedAt] is the time value of [new Date(run.updated_at)], [None]
    for an invalid date. *)
Record WaitWorld := {
  gw_runs : nat -> AxiosOutcome (option (list WorkflowRun));
  gw_now : nat -> nat -> Z;
  gw_head : nat -> str -> FetchOutcome unit
}.

Definition isRecentDeployment (w : WaitWorld) (attempt i : nat) (run : WorkflowRun)
    : bool :=
  strEq (run_name run) "Deploy to Railway"
  && match run_conclusion run with
     | Some c => strEq c "success"
     | None => false
     end
  && match run_updatedAt run with
     | Some t => (gw_now w attempt i - 600000 <? t)%Z
     | None => false
     end.

Fixpoint findRun (w : WaitWorld) (attempt i : nat) (runs : list WorkflowRun)
    : option WorkflowRun :=
  match runs with
  | [] => None
  | run :: rest =>
      if isRecentDeployment w attempt i run then Some run
      else findRun w attempt (S i) rest
  end.

Definition possibleUrls (repository : Repository) (practiceId : str) : list str :=
  [("https://" : str) ++ practiceId ++ "-production.up.railway.app";
   ("https://" : str) ++ repo_name repository ++ "-production.up.railway.app";
   ("https://" : str) ++ practiceId ++ "-demo-production.up.railway.app"].

Definition headOk (w : WaitWorld) (attempt : nat) (url : str) : bool :=
  match gw_head w attempt url with
  | FetchResolves response => f_ok response
  | FetchRejects _ => false
  end.

(** One attempt: the URL that answers, if a recent successful run is listed. *)
Definition checkDeployment (w : WaitWorld) (attempt : nat)
    (repository : Repository) (practiceId : str) : option str :=
  match gw_runs w attempt with
  | AxiosResolves (Some recentRuns) =>
      match findRun w attempt 0 recentRuns with
      | Some _ => List.find (headOk w attempt) (possibleUrls repository practiceId)
      | None => None
      end
  | _ => None
  end.

(** The loop from [attempt] on, with [remaining] attempts left. *)
Fixpoint waitLoop (w : WaitWorld) (remaining attempt : nat)
    (repository : Repository) (practiceId : str) : str :=
  match remaining with
  | 0 => ("https://" : str) ++ practiceId ++ "-production.up.railway.app"
  | S remaining' =>
      match checkDeployment w attempt repository practiceId with
      | Some url => url
      | None => waitLoop w remaining' (S attempt) repository practiceId
      end
  end.

Definition waitForGitHubActionsDeployment (w : WaitWorld)
    (repository : Repository) (practiceId : str) : str :=
  waitLoop w 30 1 repository practiceId.

(** ** Shapes used in the statements *)

(** A group of [k] decimal digits. *)
Definition isDigitGroup (k : nat) (s : str) : Prop :=
  length s = k /\ forallb Js.isDigit s = true.

(** The separators of [split(/[-.]/)]. *)
Definition isNameSeparator (c : ascii) : bool := Js.isHyphen c || Ascii.eqb c ".".

Definition austriaFiltered : WorkflowConfig :=
  {| leadCount := Some 2; specialty := Some ("Botox" : str);
     location := Some ("Austria" : str); searchQuery := None;
     filters := Some ["exclude salzburg" : str] |}.

(** The second attempt lists a fresh successful run and the URL named after
    the repository answers. *)
Definition secondAttemptWorld : WaitWorld :=
  {| gw_runs := fun attempt =>
       match attempt with
       | 2 => AxiosResolves
                (Some [{| run_name := "Deploy to Railway";
                          run_conclusion := Some ("success" : str);
                          run_updatedAt := Some 1700000000000%Z |}])
       | _ => AxiosResolves (Some [])
       end;
     gw_now := fun _ _ => 1700000100000%Z;
     gw_head := fun _ url =>
       if strEq url "https://glow-repo-production.up.railway.app"
       then FetchResolves {| f_ok := true; f_status := 200; f_statusText := "OK";
                             f_body := Ok tt |}
       else FetchRejects "getaddrinfo ENOTFOUND" |}.

(** Text made of ASCII characters, as every host name is. *)
Definition isAscii (s : str) : bool := forallb (fun c => nat_of_ascii c <? 128) s.

(** A lead goes through when its URL parses and the three steps that can
    fail a lead succeed: the record in the store, the repository, and its
    personalisation. *)
Definition leadGoesThrough {pf : Platform} (w : LeadWorld) (url : str) : Prop :=
  exists domain page repository,
    URL_hostname url = Some domain /\
    l_notionCreate w = AxiosResolves page /\
    l_github w (generatePracticeId domain ++ ("-demo-" : str) ++ Js.ofZ (l_clock w 3))
    = AxiosResolves repository /\
    l_personalize w = Ok tt.

(** The entry of a lead that went through: status [Success], no error, the
    URL the deployment step returned, which is an [https] URL, the agent id
    made for the practice, and the URL of the repository the host created. *)
Definition successEntry {pf : Platform} (w : LeadWorld) (url : str)
    (r : PipelineResult) : Prop :=
  exists domain repository scraped deployment,
    URL_hostname url = Some domain /\
    l_github w (generatePracticeId domain ++ ("-demo-" : str) ++ Js.ofZ (l_clock w 3))
    = AxiosResolves repository /\
    scrapeHealthcareWebsite (l_scrape w) url = Ok scraped /\
    outcome (deployToRailway (l_railway w) scraped repository) = Ok deployment /\
    r_status r = Success /\
    r_error r = None /\
    r_demoUrl r = Some (d_url deployment) /\
    Js.startsWith "https://" (d_url deployment) = true /\
    r_agentId r = Some (("agent_" : str) ++ Js.ofZ (l_clock w 2) ++ ("_" : str)
                        ++ generatePracticeId domain) /\
    r_repositoryUrl r = Some (html_url repository).

(** The entry of a lead that did not: status [Failed], none of the three
    references, and a message that names the step that failed. *)
Definition failureEntry {pf : Platform} (w : LeadWorld) (url : str)
    (r : PipelineResult) : Prop :=
  r_status r = Failed /\
  r_demoUrl r = None /\ r_agentId r = None /\ r_repositoryUrl r = None /\
  exists message,
    r_error r = Some message /\ message <> [] /\
    ((message = ("Invalid URL" : str) /\ URL_hostname url = None) \/
     (exists e, message = ("Notion storage failed: " : str) ++ e /\
                l_notionCreate w = AxiosRejects e) \/
     (exists e, message = ("Repository creation failed: " : str) ++ e)).

(** Five turns on one channel, one after the other, then two messages whose
    handlers overlap: both arrive before either is answered. *)
Definition overlappingRun : list Event :=
  let w := chatWorld (completionOf (JStr "I can find clinics.")) in
  let turn := (42%Z, "Find 3 botox clinics in Berlin" : str, w) in
  sequentialRun 0 (replicate 5 turn)
  ++ [EvMessage 42 "And in Vienna?" w; EvMessage 42 "And in Graz?" w]
  ++ replicate 3 (EvSettle 5) ++ replicate 3 (EvSettle 6).


(** * Properties *)

Example generatePracticeId_sample :
  generatePracticeId "www.glow-aesthetics.co.uk" = "glow-aesthetics".
Proof. reflexivity. Qed.

Example extractCompanyFromDomain_sample :
  extractCompanyFromDomain "www.glow-aesthetics.co.uk" = "Glow Aesthetics Clinic".
Proof. reflexivity. Qed.

(** ** The stable practice id *)

Section PracticeId.

Local Abbreviation IdChars := (Forall (fun c => isIdChar c = true)).

Lemma hyphenate_idchars (s : str) : IdChars (hyphenate s).
Proof.
  induction s as [|c t IH]; simpl; constructor; auto.
  unfold isIdChar. destruct (Js.isLowerAlnum c) eqn:E; [now rewrite E|reflexivity].
Qed.

Lemma collapseHyphens_sub (s : str) (c : ascii) :
  In c (collapseHyphens s) -> In c s.
Proof.
  induction s as [|a t IH]; simpl; [easy|].
  destruct (Js.isHyphen a).
  - destruct t as [|h t'].
    + simpl; tauto.
    + destruct (Js.isHyphen h).
      * intros H. right. now apply IH.
      * intros [H|H]; [now left|right; now apply IH].
  - intros [H|H]; [now left|right; now apply IH].
Qed.

Lemma dropLeadingHyphen_sub (s : str) (c : ascii) :
  In c (dropLeadingHyphen s) -> In c s.
Proof.
  destruct s as [|a t]; simpl; [easy|].
  destruct (Js.isHyphen a); simpl; tauto.
Qed.

Lemma stripEdgeHyphens_sub (s : str) (c : ascii) :
  In c (stripEdgeHyphens s) -> In c s.
Proof.
  unfold stripEdgeHyphens, dropTrailingHyphen. intros H.
  apply dropLeadingHyphen_sub. apply in_rev.
  apply dropLeadingHyphen_sub. now apply in_rev.
Qed.

Lemma practiceIdUncut_idchars (d : str) : IdChars (practiceIdUncut d).
Proof.
  unfold practiceIdUncut. apply List.Forall_forall. intros c Hc.
  apply stripEdgeHyphens_sub, collapseHyphens_sub in Hc.
  revert c Hc. apply List.Forall_forall, hyphenate_idchars.
Qed.

Lemma collapseHyphens_cons (a : ascii) (t : str) :
  collapseHyphens (a :: t) =
  if Js.isHyphen a then
    match t with
    | h :: _ => if Js.isHyphen h then collapseHyphens t
                else a :: collapseHyphens t
    | [] => [a]
    end
  else a :: collapseHyphens t.
Proof. reflexivity. Qed.

Lemma collapseHyphens_leading (s : str) :
  leadingHyphen (collapseHyphens s) = leadingHyphen s.
Proof.
  induction s as [|a t IH]; [reflexivity|].
  rewrite collapseHyphens_cons.
  destruct (Js.isHyphen a) eqn:Ea; [|reflexivity].
  destruct t as [|h t']; [reflexivity|].
  destruct (Js.isHyphen h) eqn:Eh; [|reflexivity].
  rewrite IH. simpl. congruence.
Qed.

Lemma collapseHyphens_noDouble (s : str) : noDouble (collapseHyphens s) = true.
Proof.
  induction s as [|a t IH]; [reflexivity|].
  rewrite collapseHyphens_cons.
  destruct (Js.isHyphen a) eqn:Ea.
  - destruct t as [|h t']; [simpl; now rewrite Ea|].
    destruct (Js.isHyphen h) eqn:Eh; [assumption|].
    cbn [noDouble]. rewrite IH, collapseHyphens_leading. simpl.
    rewrite Eh, andb_false_r. reflexivity.
  - cbn [noDouble]. rewrite Ea, IH. reflexivity.
Qed.

Lemma leadingHyphen_app (s t : str) :
  leadingHyphen (s ++ t) = match s with [] => leadingHyphen t | _ => leadingHyphen s end.
Proof. destruct s; reflexivity. Qed.

Lemma noDouble_snoc (s : str) (c : ascii) :
  noDouble (s ++ [c]) = noDouble s && negb (trailingHyphen s && Js.isHyphen c).
Proof.
  induction s as [|a t IH]; simpl.
  - unfold trailingHyphen. simpl. now rewrite andb_false_r.
  - rewrite IH, leadingHyphen_app. unfold trailingHyphen. simpl.
    rewrite leadingHyphen_app.
    destruct t as [|b t']; simpl.
    + destruct (Js.isHyphen a), (Js.isHyphen c); reflexivity.
    + destruct (rev t' ++ [b]) eqn:E.
      * now destruct (rev t').
      * destruct (Js.isHyphen a), (Js.isHyphen b), (noDouble t'),
          (leadingHyphen t'), (leadingHyphen (a0 :: l)), (Js.isHyphen c);
          reflexivity.
Qed.

Lemma noDouble_rev (s : str) : noDouble (rev s) = noDouble s.
Proof.
  induction s as [|a t IH]; simpl; [reflexivity|].
  rewrite noDouble_snoc, IH. unfold trailingHyphen. rewrite rev_involutive.
  destruct (noDouble t), (leadingHyphen t), (Js.isHyphen a); reflexivity.
Qed.

Lemma dropLeadingHyphen_noDouble (s : str) :
  noDouble s = true ->
  noDouble (dropLeadingHyphen s) = true /\ leadingHyphen (dropLeadingHyphen s) = false.
Proof.
  destruct s as [|a t]; simpl; [auto|].
  destruct (Js.isHyphen a) eqn:Ea; simpl.
  - destruct (leadingHyphen t); simpl; [discriminate|auto].
  - rewrite Ea. auto.
Qed.

Lemma dropTrailingHyphen_leading (z : str) :
  leadingHyphen z = false -> leadingHyphen (dropTrailingHyphen z) = false.
Proof.
  destruct z as [|c t]; [reflexivity|].
  intros H. simpl in H. unfold dropTrailingHyphen. simpl rev.
  destruct (rev t) as [|b r]; simpl.
  - rewrite H. simpl. assumption.
  - destruct (Js.isHyphen b).
    + rewrite rev_unit. assumption.
    + simpl. rewrite rev_unit. assumption.
Qed.

Lemma stripEdgeHyphens_edges (s : str) :
  noDouble s = true ->
  leadingHyphen (stripEdgeHyphens s) = false /\
  trailingHyphen (stripEdgeHyphens s) = false.
Proof.
  intros H. unfold stripEdgeHyphens.
  destruct (dropLeadingHyphen_noDouble s H) as [H1 H2].
  set (z := dropLeadingHyphen s) in *.
  assert (Hr : noDouble (rev z) = true) by now rewrite noDouble_rev.
  destruct (dropLeadingHyphen_noDouble (rev z) Hr) as [_ H4].
  split.
  - now apply dropTrailingHyphen_leading.
  - unfold trailingHyphen, dropTrailingHyphen. now rewrite rev_involutive.
Qed.

Lemma practiceIdUncut_edges (d : str) :
  leadingHyphen (practiceIdUncut d) = false /\
  trailingHyphen (practiceIdUncut d) = false.
Proof. apply stripEdgeHyphens_edges, collapseHyphens_noDouble. Qed.

Lemma firstn_In (A : Type) (n : nat) (l : list A) (x : A) :
  In x (firstn n l) -> In x l.
Proof.
  intros H. rewrite <- (firstn_skipn n l). apply in_or_app. now left.
Qed.

Lemma leadingHyphen_firstn (n : nat) (s : str) :
  leadingHyphen s = false -> leadingHyphen (firstn n s) = false.
Proof. destruct n, s; simpl; auto. Qed.

(** A letter or digit survives every rewriting step. *)
Lemma collapseHyphens_keeps (s : str) (c : ascii) :
  Js.isHyphen c = false -> In c s -> In c (collapseHyphens s).
Proof.
  intros Hc. induction s as [|a t IH]; simpl; [easy|].
  intros [->|H].
  - rewrite Hc. now left.
  - destruct (Js.isHyphen a).
    + destruct t as [|h t']; [easy|].
      destruct (Js.isHyphen h); [now apply IH|right; now apply IH].
    + right. now apply IH.
Qed.

Lemma dropLeadingHyphen_keeps (s : str) (c : ascii) :
  Js.isHyphen c = false -> In c s -> In c (dropLeadingHyphen s).
Proof.
  intros Hc. destruct s as [|a t]; simpl; [easy|].
  destruct (Js.isHyphen a) eqn:Ea; [|easy].
  intros [->|H]; [congruence|assumption].
Qed.

Lemma stripEdgeHyphens_keeps (s : str) (c : ascii) :
  Js.isHyphen c = false -> In c s -> In c (stripEdgeHyphens s).
Proof.
  intros Hc H. unfold stripEdgeHyphens, dropTrailingHyphen.
  apply in_rev. rewrite rev_involutive.
  apply dropLeadingHyphen_keeps; [assumption|].
  apply in_rev. rewrite rev_involutive.
  now apply dropLeadingHyphen_keeps.
Qed.

Lemma isLowerAlnum_not_hyphen (c : ascii) :
  Js.isLowerAlnum c = true -> Js.isHyphen c = false.
Proof.
  unfold Js.isHyphen. destruct (Ascii.eqb_spec c "-"); [subst; discriminate|easy].
Qed.

Lemma hyphenate_alnum (s : str) (c : ascii) :
  Js.isLowerAlnum c = true -> (In c (hyphenate s) <-> In c s).
Proof.
  intros Hc. induction s as [|a t IH]; simpl; [tauto|].
  rewrite IH. destruct (Js.isLowerAlnum a) eqn:Ea; [tauto|].
  split; intros [H|H]; auto.
  - subst c. discriminate.
  - subst c. congruence.
Qed.

Lemma practiceIdUncut_nonempty (d : str) :
  practiceIdUncut d <> [] <->
  existsb Js.isLowerAlnum
    (Js.toLowerCase (stripTld (Js.stripPrefix "www." d))) = true.
Proof.
  unfold practiceIdUncut.
  set (s := Js.toLowerCase (stripTld (Js.stripPrefix "www." d))).
  rewrite existsb_exists. split.
  - intros Hne.
    destruct (stripEdgeHyphens_edges (collapseHyphens (hyphenate s))
                (collapseHyphens_noDouble _)) as [Hl _].
    destruct (stripEdgeHyphens (collapseHyphens (hyphenate s))) as [|c t] eqn:E;
      [easy|].
    simpl in Hl.
    assert (Hin : In c (hyphenate s)).
    { apply collapseHyphens_sub, stripEdgeHyphens_sub. rewrite E. now left. }
    assert (Hid : isIdChar c = true).
    { pose proof (hyphenate_idchars s) as Hall.
      rewrite List.Forall_forall in Hall. now apply Hall. }
    unfold isIdChar in Hid. rewrite Hl, orb_false_r in Hid.
    exists c. split; [|assumption]. now apply (hyphenate_alnum s c Hid) in Hin.
  - intros (c & Hin & Hc) E.
    apply (hyphenate_alnum s c Hc) in Hin.
    pose proof (isLowerAlnum_not_hyphen c Hc) as Hh.
    apply (collapseHyphens_keeps _ _ Hh), (stripEdgeHyphens_keeps _ _ Hh) in Hin.
    now rewrite E in Hin.
Qed.

End PracticeId.

(** C5, as amended.  [generatePracticeId] is a function of the domain alone;
    its value consists of characters of [[a-z0-9-]], has at most 25 of them
    and does not start with a hyphen; it is non-empty exactly when the
    domain, once the [www.] prefix and the ending are removed and the rest is
    lower-cased, keeps a letter or a digit; and it does not end with a
    hyphen whenever the id before truncation has at most 25 characters. *)
Theorem generatePracticeId_shape (d : str) :
  (forall d' : str, d' = d -> generatePracticeId d' = generatePracticeId d) /\
  matchesIdPattern 0 (generatePracticeId d) = true /\
  leadingHyphen (generatePracticeId d) = false /\
  (generatePracticeId d <> [] <->
   existsb Js.isLowerAlnum
     (Js.toLowerCase (stripTld (Js.stripPrefix "www." d))) = true) /\
  (length (practiceIdUncut d) <= 25 ->
   trailingHyphen (generatePracticeId d) = false).
Proof.
  unfold generatePracticeId, Js.substring0.
  destruct (practiceIdUncut_edges d) as [Hl Ht].
  split; [|split; [|split; [|split]]].
  - intros d' ->. reflexivity.
  - unfold matchesIdPattern. apply andb_true_iff. split; [apply andb_true_iff; split|].
    + apply forallb_forall. intros c Hc.
      pose proof (practiceIdUncut_idchars d) as Hall.
      rewrite List.Forall_forall in Hall. apply Hall.
      revert Hc. apply firstn_In.
    + reflexivity.
    + apply Nat.leb_le. rewrite length_firstn. lia.
  - now apply leadingHyphen_firstn.
  - rewrite <- practiceIdUncut_nonempty.
    destruct (practiceIdUncut d); simpl; split; congruence.
  - intros Hlen. now rewrite firstn_all2.
Qed.

Lemma generatePracticeId_shape_witness :
  trailingHyphen (generatePracticeId "www.glow-aesthetics.co.uk") = false.
Proof.
  apply (generatePracticeId_shape "www.glow-aesthetics.co.uk").
  vm_compute. lia.
Defined.

(** C5 as stated fails twice: the host of [http://[::]/] has no letter or
    digit and yields the empty id, and a hyphen at position 25 survives the
    truncation. *)
Lemma generatePracticeId_pattern_fails :
  matchesIdPattern 1 (generatePracticeId "[::]") = false /\
  generatePracticeId "abcdefghijklmnopqrstuvwx-yz.com" = "abcdefghijklmnopqrstuvwx-" /\
  trailingHyphen (generatePracticeId "abcdefghijklmnopqrstuvwx-yz.com") = true.
Proof. repeat split. Qed.

(** ** The custom filter engine *)

Example passesCustomFilters_sample :
  passesCustomFilters
    {| r_url := "https://glow.example"; r_title := Some ("Generic Beauty Directory" : str);
       r_text := None; r_id := "1" |}
    ["exclude generic" : str; "require real doctors" : str] = false.
Proof. reflexivity. Qed.

Example passesCustomFilters_sample_pass :
  passesCustomFilters
    {| r_url := "https://glow.example"; r_title := Some ("Glow Clinic" : str);
       r_text := Some ("Our doctors offer botox" : str); r_id := "1" |}
    ["exclude generic" : str; "require real doctors" : str] = true.
Proof. reflexivity. Qed.

Section FilterEngine.

Lemma includes_cons (k : str) (c : ascii) (t : str) :
  Js.includes k (c :: t) = Js.startsWith k (c :: t) || Js.includes k t.
Proof. reflexivity. Qed.

Lemma removeAll_id (keywords : list str) (s : str) :
  (forall k, In k keywords -> Js.includes k s = false) ->
  removeAll keywords 0 s = s.
Proof.
  induction s as [|c t IH]; intros H; [reflexivity|].
  cbn [removeAll].
  destruct (List.find (fun k => Js.startsWith k (c :: t)) keywords) as [k|] eqn:E.
  - apply find_some in E as [Hin Hs].
    specialize (H k Hin). rewrite includes_cons, Hs in H. discriminate.
  - f_equal. apply IH. intros k Hk. specialize (H k Hk).
    rewrite includes_cons in H. now apply orb_false_iff in H.
Qed.

Lemma removeAll_exclude (lx : str) :
  removeAll ["exclude" : str; "avoid" : str] 0 (("exclude " : str) ++ lx)
  = (" " : str) ++ removeAll ["exclude" : str; "avoid" : str] 0 lx.
Proof. reflexivity. Qed.

Lemma isSpace_lowerChar (c : ascii) : Js.isSpace (Js.lowerChar c) = Js.isSpace c.
Proof. destruct c as [[] [] [] [] [] [] [] []]; reflexivity. Qed.

Lemma noSpace_toLowerCase (s : str) :
  forallb (fun c => negb (Js.isSpace c)) (Js.toLowerCase s)
  = forallb (fun c => negb (Js.isSpace c)) s.
Proof.
  induction s as [|c t IH]; simpl; [reflexivity|].
  now rewrite isSpace_lowerChar, IH.
Qed.

Lemma dropWhile_none (f : ascii -> bool) (s : str) :
  forallb (fun c => negb (f c)) s = true -> Js.dropWhile f s = s.
Proof.
  destruct s as [|c t]; simpl; [reflexivity|].
  destruct (f c); simpl; [discriminate|reflexivity].
Qed.

Lemma forallb_rev (f : ascii -> bool) (s : str) :
  forallb f s = true -> forallb f (rev s) = true.
Proof.
  rewrite !forallb_forall. intros H c Hc. apply H. now apply in_rev.
Qed.

Lemma trimEnd_noSpace (s : str) :
  forallb (fun c => negb (Js.isSpace c)) s = true -> Js.trimEnd s = s.
Proof.
  intros H. unfold Js.trimEnd.
  rewrite (dropWhile_none _ (rev s)); [apply rev_involutive|].
  now apply forallb_rev.
Qed.

Lemma trim_blank_noSpace (s : str) :
  forallb (fun c => negb (Js.isSpace c)) s = true ->
  Js.trim ((" " : str) ++ s) = s.
Proof.
  intros H. unfold Js.trim.
  change (Js.trimStart ((" " : str) ++ s)) with (Js.trimStart s).
  unfold Js.trimStart. rewrite (dropWhile_none _ s H).
  now apply trimEnd_noSpace.
Qed.

Lemma isBlank_isSpace (c : ascii) : isBlank c = true -> Js.isSpace c = true.
Proof. unfold isBlank. destruct (Ascii.eqb_spec c " "); [now subst|easy]. Qed.

Lemma splitOn_noSpace (s : str) :
  forallb (fun c => negb (Js.isSpace c)) s = true ->
  Js.splitOn isBlank s = [s].
Proof.
  induction s as [|c t IH]; simpl; [reflexivity|].
  intros H. apply andb_true_iff in H as [Hc Ht].
  destruct (isBlank c) eqn:E.
  - apply isBlank_isSpace in E. rewrite E in Hc. discriminate.
  - now rewrite (IH Ht).
Qed.

(** The block-list of the entry ["exclude X"] is the single term [X]. *)
Lemma filterTerms_exclude (X : str) :
  isWord X ->
  Js.includes "exclude" (Js.toLowerCase X) = false ->
  Js.includes "avoid" (Js.toLowerCase X) = false ->
  filterTerms ["exclude" : str; "avoid" : str]
    (Js.toLowerCase (("exclude " : str) ++ X))
  = [Js.toLowerCase X].
Proof.
  intros [_ Hw] He Ha. unfold filterTerms, Js.toLowerCase.
  rewrite map_app. fold (Js.toLowerCase X).
  change (map Js.lowerChar ("exclude " : str)) with ("exclude " : str).
  rewrite removeAll_exclude, removeAll_id.
  - assert (Hl : forallb (fun c => negb (Js.isSpace c)) (Js.toLowerCase X) = true)
      by now rewrite noSpace_toLowerCase.
    rewrite (trim_blank_noSpace _ Hl). now apply splitOn_noSpace.
  - intros k [<-|[<-|[]]]; assumption.
Qed.

Lemma passesCustomFilters_cons_false (practice : ExaResult) (f : str)
    (rest : list str) :
  passesCustomFilters practice rest = false ->
  passesCustomFilters practice (f :: rest) = false.
Proof.
  intros H. cbn [passesCustomFilters]. rewrite H.
  repeat match goal with |- context [if ?b then _ else _] => destruct b end;
    reflexivity.
Qed.

End FilterEngine.

(** C8, as amended.  For every filter list with an entry ["exclude X"], where
    [X] is a word that contains neither keyword of an exclusion filter
    (["exclude"], ["avoid"]), every candidate whose title or text contains
    [X], case-insensitively, is rejected. *)
Theorem passesCustomFilters_exclude (practice : ExaResult) (filters : list str)
    (X : str) :
  isWord X ->
  Js.includes "exclude" (Js.toLowerCase X) = false ->
  Js.includes "avoid" (Js.toLowerCase X) = false ->
  In (("exclude " : str) ++ X) filters ->
  mentions X practice = true ->
  passesCustomFilters practice filters = false.
Proof.
  intros Hw He Ha Hin Hm.
  induction filters as [|f rest IH]; [destruct Hin|].
  destruct Hin as [->|Hin]; [|now apply passesCustomFilters_cons_false, IH].
  cbn [passesCustomFilters].
  rewrite (filterTerms_exclude X Hw He Ha).
  replace (Js.includes "exclude" (Js.toLowerCase (("exclude " : str) ++ X)))
    with true by reflexivity.
  cbn [orb someTermOccurs existsb].
  unfold mentions in Hm. rewrite Hm, orb_false_r, andb_true_r.
  destruct Hw as [Hne _]. destruct X; [easy|reflexivity].
Qed.

Lemma passesCustomFilters_exclude_witness :
  passesCustomFilters
    {| r_url := "https://glow.example";
       r_title := Some ("Generic Beauty Directory" : str);
       r_text := None; r_id := "1" |}
    ["require doctors" : str; "exclude generic" : str] = false.
Proof.
  apply (passesCustomFilters_exclude _ _ ("generic" : str)).
  - split; [discriminate|reflexivity].
  - reflexivity.
  - reflexivity.
  - simpl. right. left. reflexivity.
  - reflexivity.
Defined.

(** C8 as stated fails when [X] is itself a keyword: the entry
    ["exclude avoid"] leaves an empty block-list, and a candidate whose title
    contains "avoid" passes. *)
Lemma passesCustomFilters_exclude_keyword_passes :
  let practice :=
    {| r_url := "https://smooth.example";
       r_title := Some ("Avoid Wrinkles Clinic" : str);
       r_text := None; r_id := "7" |} in
  In (("exclude " : str) ++ ("avoid" : str)) ["exclude avoid" : str] /\
  isWord ("avoid" : str) /\
  mentions ("avoid" : str) practice = true /\
  passesCustomFilters practice ["exclude avoid" : str] = true.
Proof.
  repeat split; try reflexivity; [now left|discriminate].
Qed.

(** ** Candidate discovery *)

(** C7.  Discovery returns at most [leadCount] candidates, and each of them
    passes the location filter (some variant of the expanded synonym set
    occurs in its search text) and the specialty filter (the specialty occurs,
    case-insensitively, in its title or in its text) whenever these are
    active. *)
Theorem findHealthcarePracticesWithCustomEXA_sound (exa : ExaWorld)
    (query : str) (count : nat) (cfg : WorkflowConfig) (found : list ExaResult) :
  findHealthcarePracticesWithCustomEXA exa query count cfg = Ok found ->
  length found <= count /\
  forall practice, In practice found ->
    passesLocationFilter cfg practice /\ passesSpecialtyFilter cfg practice.
Proof.
  unfold findHealthcarePracticesWithCustomEXA, passesLocationFilter,
    passesSpecialtyFilter.
  destruct (exa _) as [e|data]; simpl; [discriminate|].
  destruct (length _ =? 0).
  { intros [= <-]. split; [simpl; lia|intros ? []]. }
  intros [= <-]. split; [apply firstn_le_length|].
  intros practice Hin. apply firstn_In in Hin.
  destruct (truthyStr (specialty cfg)) as [spec|];
    destruct (truthyStr (location cfg)) as [loc|];
    repeat match type of Hin with
           | In _ (List.filter _ _) => apply filter_In in Hin as [Hin ?]
           end;
    split; auto.
  all: try match goal with
           | H : matchesLocation _ _ = true |- _ =>
               apply existsb_exists in H as (v & Hv & Hi); exists v; now split
           end.
  all: match goal with
       | H : matchesSpecialty _ _ = true |- _ =>
           apply orb_true_iff in H as [H|H]; [left|right];
           unfold lowerIncludes in H;
           match type of H with
           | match ?f with _ => _ end = true =>
               destruct f as [t|] eqn:E; [exists t; now split|discriminate]
           end
       end.
Qed.

(** ** The conversational configurator *)

Example JsonFragment_parse_object :
  JsonFragment.parse
    ("{" ++ JsonFragment.quoted "executeWorkflow" ++ ": false, "
     ++ JsonFragment.quoted "response" ++ ": " ++ JsonFragment.quoted "Hi" ++ ", "
     ++ JsonFragment.quoted "n" ++ ": [1, -2, null]}")
  = Some (JObj [("executeWorkflow" : str, JBool false); ("response" : str, JStr "Hi");
                ("n" : str, JArr [JNum 1; JNum (-2); JNull])]).
Proof. vm_compute. reflexivity. Qed.

Example JsonFragment_parse_text : JsonFragment.parse "I can find clinics." = None.
Proof. vm_compute. reflexivity. Qed.

Example UrlFragment_hostname_sample :
  UrlFragment.hostname "https://www.Glow-Aesthetics.co.uk/about?x=1"
  = Some ("www.glow-aesthetics.co.uk" : str)
  /\ UrlFragment.hostname "glow aesthetics" = None
  /\ UrlFragment.hostname "http://[::]/" = Some ("[::]" : str)
  /\ UrlFragment.hostname "https://glow.example:8080/x" = Some ("glow.example" : str).
Proof. vm_compute. auto. Qed.

Section Configurator.

Context {pf : Platform}.

Lemma buildPrompt_throws (history : list HistoryEntry) :
  (exists e, buildPrompt history = Throw e) <->
  exists msg, In msg history /\ canStringify (content msg) = false.
Proof.
  unfold buildPrompt.
  destruct (forallb _ history) eqn:E.
  - split; [intros [e He]; discriminate|].
    intros (msg & Hin & Hc). rewrite forallb_forall in E.
    rewrite (E msg Hin) in Hc. discriminate.
  - split; [|eauto]. intros _.
    apply not_true_iff_false in E.
    destruct (existsb (fun msg => negb (canStringify (content msg))) history) eqn:Ex.
    + apply existsb_exists in Ex as (msg & Hin & Hc).
      exists msg. split; [exact Hin|]. now apply negb_true_iff in Hc.
    + exfalso. apply E. apply forallb_forall. intros msg Hin.
      apply not_false_iff_true. intros Hc.
      assert (Ht : existsb (fun msg => negb (canStringify (content msg))) history = true).
      { apply existsb_exists. exists msg. split; [exact Hin|]. now rewrite Hc. }
      rewrite Ht in Ex. discriminate.
Qed.

Lemma buildPrompt_message (history : list HistoryEntry) (e : str) :
  buildPrompt history = Throw e -> e = typeErrorPrimitive.
Proof. unfold buildPrompt. destruct (forallb _ history); now intros [= <-]. Qed.

Lemma requestCompletion_resolved (llm : CompletionWorld)
    (messageText : str) (history : list HistoryEntry) (data aiContent : JsVal) :
  llm messageText history = AxiosResolves data ->
  completionContent data = Ok aiContent ->
  requestCompletion llm messageText history =
  Ok match parseCompletion aiContent with
     | Ok parsed => parsed
     | Throw _ => textResponse aiContent
     end.
Proof.
  intros Hd Hc. unfold requestCompletion. rewrite Hd. simpl.
  rewrite Hc. simpl. now destruct (parseCompletion aiContent).
Qed.

Lemma requestCompletion_throws (llm : CompletionWorld)
    (messageText : str) (history : list HistoryEntry) :
  ((exists e, requestCompletion llm messageText history = Throw e) <->
   (exists e, llm messageText history = AxiosRejects e) \/
   (exists data e, llm messageText history = AxiosResolves data /\
                   completionContent data = Throw e)) /\
  (forall e, requestCompletion llm messageText history = Throw e ->
             e = ("AI model communication failed" : str)).
Proof.
  split; [split|].
  - intros [e He].
    destruct (llm messageText history) as [e'|data] eqn:Hd; [left; eauto|].
    right. exists data.
    destruct (completionContent data) as [aiContent|e'] eqn:Hc; [|eauto].
    rewrite (requestCompletion_resolved _ _ _ _ _ Hd Hc) in He.
    discriminate.
  - unfold requestCompletion.
    intros [[e He]|(data & e & Hd & Hc)].
    + rewrite He. simpl. eauto.
    + rewrite Hd. simpl. rewrite Hc. simpl. eauto.
  - intros e. unfold requestCompletion.
    destruct (llm messageText history) as [e'|data]; simpl; [now intros [= <-]|].
    destruct (completionContent data) as [aiContent|e']; simpl; [|now intros [= <-]].
    destruct (parseCompletion aiContent); simpl; discriminate.
Qed.

(** C9, as amended.  [processConversationalInput] throws exactly when the
    prompt cannot be built because the content of a history entry has no
    conversion to a string, or the transport call fails, or the read of
    [choices[0].message.content] off the delivered body throws.  In the first
    case the [TypeError] leaves as it is; in the other two the message is
    the one of the outer [catch].  Whenever the prompt is built and a
    completion text is received, the fenced wrapping is stripped, a strict
    parse is attempted, and on a parse failure the result is the text
    response carrying the raw text; a content that is no string is carried
    by the text response as it is. *)
Theorem processConversationalInput_outcome (llm : CompletionWorld)
    (messageText : str) (history : list HistoryEntry) :
  ((exists e, processConversationalInput llm messageText history = Throw e) <->
   (exists msg, In msg history /\ canStringify (content msg) = false) \/
   (exists e, llm messageText history = AxiosRejects e) \/
   (exists data e, llm messageText history = AxiosResolves data /\
                   completionContent data = Throw e)) /\
  (forall e,
     processConversationalInput llm messageText history = Throw e ->
     if forallb (fun msg => canStringify (content msg)) history
     then e = ("AI model communication failed" : str)
     else e = typeErrorPrimitive) /\
  (forall data text,
     forallb (fun msg => canStringify (content msg)) history = true ->
     llm messageText history = AxiosResolves data ->
     completionContent data = Ok (JStr text) ->
     processConversationalInput llm messageText history =
     Ok match JSON_parse (stripCodeFences text) with
        | Some parsed => parsed
        | None => textResponse (JStr text)
        end) /\
  (forall data aiContent,
     forallb (fun msg => canStringify (content msg)) history = true ->
     llm messageText history = AxiosResolves data ->
     completionContent data = Ok aiContent ->
     (forall text, aiContent <> JStr text) ->
     processConversationalInput llm messageText history
     = Ok (textResponse aiContent)).
Proof.
  pose proof (buildPrompt_throws history) as Hb.
  pose proof (requestCompletion_throws llm messageText history) as [Hr Hm].
  unfold processConversationalInput.
  split; [|split; [|split]].
  - destruct (buildPrompt history) as [[]|e0] eqn:Eb; simpl.
    + rewrite Hr. split; [auto|].
      intros [Hu|H]; [|exact H].
      apply Hb in Hu as [e He]. discriminate.
    + split; [intros _; left; apply Hb; eauto|eauto].
  - intros e. unfold buildPrompt.
    destruct (forallb _ history); simpl; [apply Hm|now intros [= <-]].
  - intros data text Hh Hd Hc. unfold buildPrompt. rewrite Hh. simpl.
    rewrite (requestCompletion_resolved _ _ _ _ _ Hd Hc). simpl.
    now destruct (JSON_parse (stripCodeFences text)).
  - intros data aiContent Hh Hd Hc Hn. unfold buildPrompt. rewrite Hh. simpl.
    rewrite (requestCompletion_resolved _ _ _ _ _ Hd Hc).
    destruct aiContent; try reflexivity. now destruct (Hn s).
Qed.

(** The history of a channel after the user's push has at most ten
    entries. *)
Lemma pushUserMessage_length (ctx : UserContext) (w : TurnWorld) (m : str) :
  length (conversationHistory (pushUserMessage ctx w m)) <= 10.
Proof.
  unfold pushUserMessage, lastTen. simpl.
  destruct (10 <? _) eqn:E.
  - rewrite length_skipn. apply Nat.ltb_lt in E. lia.
  - apply Nat.ltb_ge in E. exact E.
Qed.

(** A turn on one channel leaves the context of every other channel as it
    was. *)
Lemma handleConversationalMessage_other (st : gmap Z UserContext)
    (chatId other : Z) (m : str) (w : TurnWorld) :
  chatId <> other ->
  handleConversationalMessage st chatId m w !! other = st !! other.
Proof.
  intros Hne. unfold handleConversationalMessage. now rewrite lookup_insert_ne.
Qed.

End Configurator.

Lemma processConversationalInput_outcome_witness :
  processConversationalInput (pf := samplePlatform)
    (t_llm (chatWorld (completionOf (JStr fencedReply)))) "What can you do?" []
  = Ok (JObj [("executeWorkflow" : str, JBool false);
              ("response" : str, JStr "I find clinics.")]).
Proof.
  apply (proj1 (proj2 (proj2 (processConversationalInput_outcome
                                (pf := samplePlatform)
                                (t_llm (chatWorld (completionOf (JStr fencedReply))))
                                "What can you do?" [])))
           (completionOf (JStr fencedReply)) fencedReply);
    reflexivity.
Defined.

(** C9 as stated fails on a delivered body that has no completion: the
    transport call resolves, and the configurator throws all the same. *)
Lemma processConversationalInput_throws_on_resolved_call :
  t_llm (chatWorld errorBody) "What can you do?" [] = AxiosResolves errorBody /\
  processConversationalInput (pf := samplePlatform)
    (t_llm (chatWorld errorBody)) "What can you do?" []
  = Throw "AI model communication failed".
Proof. split; reflexivity. Qed.

(** C4 at its failing input.  Six answered turns on one channel: the cut to
    the last ten entries runs after the user's push only, so the answer of
    the sixth turn is the eleventh entry; the other channel stays empty. *)
Theorem handleConversationalMessage_history_eleven :
  let turn := (42%Z, "Find 3 botox clinics in Berlin" : str,
               chatWorld (completionOf (JStr "I can find clinics."))) in
  let st := runTurns (pf := samplePlatform) ∅ (replicate 6 turn) in
  length (historyOf st 42) = 11 /\ historyOf st 7 = [].
Proof. vm_compute. split; reflexivity. Qed.

(** ** The site extractor *)

Example scrapeHealthcareWebsite_fallback_sample :
  scrapeHealthcareWebsite (pf := samplePlatform) unreachableWorld
    "https://www.glow-aesthetics.co.uk/"
  = Ok {| company := "Glow Aesthetics Clinic";
          contactName := "Glow Aesthetics Clinic Team";
          phone := "+44 20 7223 1130";
          email := "info@www.glow-aesthetics.co.uk";
          p_location := "Unknown Location";
          services := [JStr "Healthcare Services"];
          practiceType := "beauty";
          practiceId := "glow-aesthetics";
          leadSource := "fallback-extraction";
          leadScore := 60;
          brandColors := clinicColors;
          website := None;
          isGeneralVersion := true |}.
Proof. vm_compute. reflexivity. Qed.

Section Extractor.

Context {pf : Platform}.

Lemma scrapeHealthcareWebsite_no_host (w : ScrapeWorld) (url : str) :
  URL_hostname url = None ->
  scrapeHealthcareWebsite w url = Throw "Invalid URL".
Proof.
  unfold scrapeHealthcareWebsite, scrapeFromPage, scrapeFallback, hostnameOf.
  now intros ->.
Qed.

(** The [try] block returns exactly when the URL parses, the page loads and
    the first two services can be printed; it then returns the profile of
    the page. *)
Lemma scrapeFromPage_returns (w : ScrapeWorld) (url : str) (profile : PracticeData) :
  snd (scrapeFromPage w url) = Ok profile <->
  exists domain html,
    URL_hostname url = Some domain /\ fetchPage w url = Ok html /\
    forallb canStringify (firstn 2 (services (pageProfile w url domain))) = true /\
    profile = pageProfile w url domain.
Proof.
  unfold scrapeFromPage, hostnameOf, servicesLogLine.
  destruct (URL_hostname url) as [domain|]; cbn [snd].
  2:{ split; [discriminate|]. intros (? & ? & ? & _). discriminate. }
  destruct (fetchPage w url) as [html|e]; cbn [snd].
  2:{ split; [discriminate|]. intros (? & ? & _ & ? & _). discriminate. }
  destruct (forallb canStringify _) eqn:E.
  - split.
    + intros [= <-]. exists domain, html. auto.
    + intros (d & h & [= <-] & _ & _ & ->). reflexivity.
  - split; [discriminate|].
    intros (d & h & [= <-] & _ & Hc & _). rewrite E in Hc. discriminate.
Qed.

(** On a URL that parses, the extractor returns a profile: the one of the
    [try] block when that block returns, the fallback one otherwise. *)
Lemma scrapeHealthcareWebsite_of_host (w : ScrapeWorld) (url domain : str) :
  URL_hostname url = Some domain ->
  exists drawn,
    scrapeHealthcareWebsite w url =
    Ok match snd (scrapeFromPage w url) with
       | Ok profile => profile
       | Throw _ => fallbackProfile w drawn domain
       end /\
    match snd (scrapeFromPage w url) with
    | Ok profile => profile = pageProfile w url domain
    | Throw _ => True
    end.
Proof.
  intros Hd. unfold scrapeHealthcareWebsite, scrapeFromPage, scrapeFallback,
    hostnameOf, servicesLogLine.
  rewrite Hd. cbn [mbind Result_bind].
  destruct (fetchPage w url) as [html|e].
  - exists (phoneDraws domain).
    destruct (forallb canStringify _); split; first [reflexivity|exact I].
  - exists 0. split; first [reflexivity|exact I].
Qed.

Lemma scrapeHealthcareWebsite_returns (w : ScrapeWorld) (url domain : str) :
  URL_hostname url = Some domain ->
  exists profile,
    scrapeHealthcareWebsite w url = Ok profile /\
    (profile = pageProfile w url domain \/
     exists drawn, profile = fallbackProfile w drawn domain).
Proof.
  intros Hd.
  destruct (scrapeHealthcareWebsite_of_host w url domain Hd) as (drawn & Hs & Hp).
  eexists. split; [exact Hs|].
  destruct (snd (scrapeFromPage w url)); [now left|right; eauto].
Qed.

(** A returned profile, read backwards. *)
Lemma scrapeHealthcareWebsite_inv (w : ScrapeWorld) (url : str)
    (profile : PracticeData) :
  scrapeHealthcareWebsite w url = Ok profile ->
  exists domain,
    URL_hostname url = Some domain /\
    ((snd (scrapeFromPage w url) = Ok profile /\ profile = pageProfile w url domain) \/
     ((exists e, snd (scrapeFromPage w url) = Throw e) /\
      exists drawn, profile = fallbackProfile w drawn domain)).
Proof.
  intros H.
  destruct (URL_hostname url) as [domain|] eqn:Hd.
  2:{ rewrite (scrapeHealthcareWebsite_no_host w url Hd) in H. discriminate. }
  exists domain. split; [reflexivity|].
  destruct (scrapeHealthcareWebsite_of_host w url domain Hd) as (drawn & Hs & Hp).
  rewrite Hs in H. injection H as <-.
  destruct (snd (scrapeFromPage w url)) as [p|e]; [left; now subst|right; eauto].
Qed.

Lemma extractLocationWithGLM_nonEmpty (w : FetchOutcome JsVal) (loc : str) :
  extractLocationWithGLM w = Some loc -> nonEmpty loc = true.
Proof.
  unfold extractLocationWithGLM.
  destruct (completionOfResponse w) as [[[l|]|]|]; try discriminate.
  destruct (nonEmpty l) eqn:E; simpl; [|discriminate].
  destruct (negb _); [|discriminate]. now intros [= <-].
Qed.

Lemma scrapeHealthcareWebsite_location (w : ScrapeWorld) (url : str)
    (profile : PracticeData) :
  scrapeHealthcareWebsite w url = Ok profile ->
  nonEmpty (p_location profile) = true.
Proof.
  intros H. apply scrapeHealthcareWebsite_inv in H
    as (domain & _ & [[_ ->]|[_ [drawn ->]]]); [|reflexivity].
  unfold pageProfile. cbn [p_location].
  destruct (extractLocationWithGLM (s_location w)) as [loc|] eqn:E; simpl;
    [now apply extractLocationWithGLM_nonEmpty in E|reflexivity].
Qed.

(** C10.  Every profile the extractor returns has the fixed practice type,
    the general-version flag, the contact name made of the company name and
    [" Team"], and the fixed brand colours.  Its score is 80 when it is the
    profile of the [try] block and 60 when it is the one of the [catch]
    block; the [try] block is the one that returns exactly when the page
    loads and the first two services it extracted can be printed by its
    last log line. *)
Theorem scrapeHealthcareWebsite_constants (w : ScrapeWorld) (url : str)
    (profile : PracticeData) :
  scrapeHealthcareWebsite w url = Ok profile ->
  practiceType profile = ("beauty" : str) /\
  isGeneralVersion profile = true /\
  contactName profile = company profile ++ (" Team" : str) /\
  brandColors profile = {| primary := "#0066cc"; secondary := "#004499" |} /\
  ((snd (scrapeFromPage w url) = Ok profile /\
    leadSource profile = ("clinic-team-version" : str) /\ leadScore profile = 80) \/
   ((exists e, snd (scrapeFromPage w url) = Throw e) /\
    leadSource profile = ("fallback-extraction" : str) /\ leadScore profile = 60)) /\
  (snd (scrapeFromPage w url) = Ok profile <->
   exists domain html,
     URL_hostname url = Some domain /\ fetchPage w url = Ok html /\
     forallb canStringify (firstn 2 (services (pageProfile w url domain))) = true /\
     profile = pageProfile w url domain).
Proof.
  intros H. pose proof (scrapeFromPage_returns w url profile) as Hiff.
  apply scrapeHealthcareWebsite_inv in H
    as (domain & _ & [[Hs ->]|[He [drawn ->]]]).
  - repeat split; try reflexivity; try apply Hiff; auto.
  - repeat split; try reflexivity; try apply Hiff; auto.
Qed.

End Extractor.

(** The page loads in both worlds; in the second the services completion is
    an array whose first entry cannot be printed. *)
Lemma scrapeHealthcareWebsite_constants_witness :
  (exists profile,
     scrapeHealthcareWebsite (pf := samplePlatform) emptyServicesWorld
       "https://www.glow-aesthetics.co.uk/" = Ok profile /\
     contactName profile = ("Glow Aesthetics Clinic Team" : str) /\
     leadScore profile = 80) /\
  (exists profile,
     scrapeHealthcareWebsite (pf := samplePlatform) unprintableServicesWorld
       "https://www.glow-aesthetics.co.uk/" = Ok profile /\
     contactName profile = ("Glow Aesthetics Clinic Team" : str) /\
     leadScore profile = 60).
Proof.
  split.
  - destruct (scrapeHealthcareWebsite_returns (pf := samplePlatform)
                emptyServicesWorld "https://www.glow-aesthetics.co.uk/"
                "www.glow-aesthetics.co.uk" eq_refl) as (profile & Hp & _).
    exists profile. split; [exact Hp|].
    destruct (scrapeHealthcareWebsite_constants (pf := samplePlatform) _ _ _ Hp)
      as (_ & _ & Hc & _ & Hs & _).
    vm_compute in Hp. injection Hp as <-. split; [reflexivity|].
    destruct Hs as [(_ & _ & Hs)|([e He] & _)]; [exact Hs|discriminate].
  - destruct (scrapeHealthcareWebsite_returns (pf := samplePlatform)
                unprintableServicesWorld "https://www.glow-aesthetics.co.uk/"
                "www.glow-aesthetics.co.uk" eq_refl) as (profile & Hp & _).
    exists profile. split; [exact Hp|].
    destruct (scrapeHealthcareWebsite_constants (pf := samplePlatform) _ _ _ Hp)
      as (_ & _ & Hc & _ & Hs & _).
    vm_compute in Hp. injection Hp as <-. split; [reflexivity|].
    destruct Hs as [(Hs & _)|(_ & _ & Hs)]; [discriminate|exact Hs].
Defined.

(** C3 at its failing input.  The page loads and the services completion is
    the text [[]]: the parsed array is truthy, no default is substituted, and
    the profile lists no service.  And on a string that is no URL the [catch]
    block parses it a second time and the exception leaves the extractor. *)
Theorem scrapeHealthcareWebsite_empty_services :
  (exists profile,
     scrapeHealthcareWebsite (pf := samplePlatform) emptyServicesWorld
       "https://www.glow-aesthetics.co.uk/" = Ok profile /\
     leadSource profile = ("clinic-team-version" : str) /\
     services profile = []) /\
  scrapeHealthcareWebsite (pf := samplePlatform) emptyServicesWorld "glow aesthetics"
  = Throw "Invalid URL".
Proof.
  split; [|reflexivity].
  exists emptyServicesProfile. split; [vm_compute; reflexivity|]. split; reflexivity.
Qed.

(** ** Candidate discovery: an instance *)

Lemma findHealthcarePracticesWithCustomEXA_sound_witness :
  let found :=
    [{| r_url := "https://www.glow.at/"; r_title := Some ("Glow Botox Wien" : str);
        r_text := None; r_id := "a" |}] in
  findHealthcarePracticesWithCustomEXA austriaSearch
    "botox clinic practice doctor Austria" 1 austriaBotox = Ok found /\
  length found <= 1 /\
  forall practice, In practice found ->
    passesLocationFilter austriaBotox practice /\
    passesSpecialtyFilter austriaBotox practice.
Proof.
  split; [vm_compute; reflexivity|].
  apply (findHealthcarePracticesWithCustomEXA_sound austriaSearch
           "botox clinic practice doctor Austria" 1 austriaBotox).
  vm_compute. reflexivity.
Defined.

(** ** The deployment orchestrator *)

Section Deployment.

Lemma cliSetAll_calls (w : RailwayWorld) (sid : str) (vars : list (str * str)) :
  forallb isVariableCall (calls (cliSetAll w sid vars)) = true.
Proof.
  induction vars as [|[k v] rest IH]; [reflexivity|].
  cbn [cliSetAll]. unfold mbind, Traced_bind. cbn [perform outcome calls].
  destruct (cliVariableResult _); simpl; [exact IH|reflexivity].
Qed.

Lemma gqlSetAll_calls (w : RailwayWorld) (pid eid sid : str)
    (vars : list (str * str)) :
  forallb isVariableCall (calls (gqlSetAll w pid eid sid vars)) = true.
Proof.
  induction vars as [|[k v] rest IH]; [reflexivity|].
  cbn [gqlSetAll]. unfold mbind at 1, Traced_bind at 1. cbn [perform outcome calls].
  match goal with |- context [match ?r with Ok _ => _ | Throw _ => _ end] =>
    destruct r end; simpl; [exact IH|reflexivity].
Qed.

Lemma tryCatchT_calls (A : Type) (m : Traced A) (h : str -> Traced A)
    (P : Call -> bool) :
  forallb P (calls m) = true ->
  (forall e, forallb P (calls (h e)) = true) ->
  forallb P (calls (tryCatchT m h)) = true.
Proof.
  intros Hm Hh. unfold tryCatchT. destruct (outcome m); [assumption|].
  simpl. rewrite forallb_app, Hm, Hh. reflexivity.
Qed.

Lemma tryCatchT_outcome (A : Type) (m : Traced A) (h : str -> Traced A) :
  outcome (tryCatchT m h) =
  match outcome m with
  | Ok a => Ok a
  | Throw e => outcome (h e)
  end.
Proof. unfold tryCatchT. now destruct (outcome m) eqn:E. Qed.

(** Variable setting never throws and makes variable calls only. *)
Lemma railwaySetVariables_spec (w : RailwayWorld) (pid eid sid : str)
    (pd : PracticeData) :
  outcome (railwaySetVariables w pid eid sid pd) = Ok tt /\
  forallb isVariableCall (calls (railwaySetVariables w pid eid sid pd)) = true.
Proof.
  split.
  - unfold railwaySetVariables. rewrite tryCatchT_outcome.
    destruct (outcome (cliSetAll _ _ _)) as [[]|e]; [reflexivity|].
    rewrite tryCatchT_outcome.
    now destruct (outcome (gqlSetAll _ _ _ _ _)) as [[]|e'].
  - unfold railwaySetVariables.
    apply tryCatchT_calls; [apply cliSetAll_calls|]. intros e.
    apply tryCatchT_calls; [apply gqlSetAll_calls|]. reflexivity.
Qed.

Lemma cliSetAll_spec (w : RailwayWorld) (sid : str) (vars : list (str * str)) :
  forallb isCliVariableCall (calls (cliSetAll w sid vars)) = true /\
  length (calls (cliSetAll w sid vars)) <= length vars /\
  (outcome (cliSetAll w sid vars) = Ok tt <-> someCliSetFails w sid vars = false) /\
  (someCliSetFails w sid vars = true -> exists e, outcome (cliSetAll w sid vars) = Throw e).
Proof.
  induction vars as [|[k v] rest (IH1 & IH2 & IH3 & IH4)].
  - split; [reflexivity|]. split; [simpl; lia|]. split; [easy|discriminate].
  - cbn [cliSetAll someCliSetFails existsb fst snd].
    unfold mbind, Traced_bind. cbn [perform outcome calls].
    destruct (cliVariableResult (rw_cliVariableSet w k v sid)) as [[]|e].
    + cbn [app calls outcome forallb isCliVariableCall andb orb length].
      split; [exact IH1|]. split; [lia|]. split; [exact IH3|exact IH4].
    + cbn [app calls outcome forallb isCliVariableCall andb orb length].
      split; [reflexivity|]. split; [lia|]. split; [easy|eauto].
Qed.

Lemma gqlSetAll_spec (w : RailwayWorld) (pid eid sid : str) (vars : list (str * str)) :
  forallb isGqlVariableCall (calls (gqlSetAll w pid eid sid vars)) = true /\
  length (calls (gqlSetAll w pid eid sid vars)) <= length vars /\
  (vars <> [] -> calls (gqlSetAll w pid eid sid vars) <> []).
Proof.
  induction vars as [|[k v] rest (IH1 & IH2 & IH3)].
  - split; [reflexivity|]. split; [simpl; lia|easy].
  - cbn [gqlSetAll]. unfold mbind at 1, Traced_bind at 1. cbn [perform outcome calls].
    match goal with |- context [match ?r with Ok _ => _ | Throw _ => _ end] =>
      destruct r end; simpl;
      (split; [try exact IH1; reflexivity|]; split; [lia|discriminate]).
Qed.

Lemma gqlSetAll_ids (w : RailwayWorld) (pid eid sid : str) (vars : list (str * str))
    (k v p e s' : str) :
  In (CGqlVariableUpsert k v p e s') (calls (gqlSetAll w pid eid sid vars)) ->
  p = pid /\ e = eid /\ s' = sid.
Proof.
  induction vars as [|[k0 v0] rest IH]; [intros []|].
  cbn [gqlSetAll]. unfold mbind at 1, Traced_bind at 1.
  cbn [perform outcome calls].
  match goal with |- context [match ?r with Ok _ => _ | Throw _ => _ end] =>
    destruct r end; simpl.
  - intros [[= <- <- <- <- <-]|H]; [auto|now apply IH].
  - intros [[= <- <- <- <- <-]|[]]; auto.
Qed.

(** The variable step: the command line for every variable in turn, and
    after the first refusal the structured API for all of them. *)
Lemma railwaySetVariables_calls (w : RailwayWorld) (pid eid sid : str)
    (pd : PracticeData) :
  calls (railwaySetVariables w pid eid sid pd)
  = calls (cliSetAll w sid (railwayVariables pd))
    ++ (if someCliSetFails w sid (railwayVariables pd)
        then calls (gqlSetAll w pid eid sid (railwayVariables pd))
        else []).
Proof.
  destruct (cliSetAll_spec w sid (railwayVariables pd)) as (_ & _ & Hc3 & _).
  unfold railwaySetVariables, tryCatchT.
  destruct (outcome (cliSetAll w sid (railwayVariables pd))) as [[]|e1] eqn:E1.
  - rewrite (proj1 Hc3 eq_refl). now rewrite app_nil_r.
  - assert (Hf : someCliSetFails w sid (railwayVariables pd) = true).
    { apply not_false_is_true. intros Ef. apply Hc3 in Ef. discriminate. }
    rewrite Hf. cbn [calls]. f_equal.
    destruct (outcome (gqlSetAll w pid eid sid (railwayVariables pd)));
      [reflexivity|]. cbn [calls mret Traced_ret]. apply app_nil_r.
Qed.

Lemma afterCliDomain_app (l rest : list Call) (sid : str) :
  forallb isVariableCall l = true ->
  afterCliDomain (l ++ CCliDomainGenerate sid :: rest) = rest.
Proof.
  induction l as [|c l IH]; simpl; [reflexivity|].
  intros H. apply andb_true_iff in H as [Hc Hl].
  destruct c; try discriminate; now apply IH.
Qed.

(** The domain step: the structured mutation is called exactly when the
    command line fails, with the identifiers the step was given. *)
Lemma railwayCreateDomain_calls (w : RailwayWorld) (pid eid sid : str) :
  calls (railwayCreateDomain w pid eid sid) =
  CCliDomainGenerate sid ::
  match cliDomainResult (rw_cliDomainGenerate w sid) with
  | Ok _ => []
  | Throw _ => [CGqlDomainCreate pid eid sid]
  end.
Proof.
  unfold railwayCreateDomain, tryCatchT, cliCreateDomain, gqlCreateDomain.
  unfold mbind, Traced_bind. cbn [perform outcome calls].
  destruct (cliDomainResult _) as [d|e]; cbn; [reflexivity|].
  match goal with |- context [match ?r with Ok _ => _ | Throw _ => _ end] =>
    destruct r end; reflexivity.
Qed.

Lemma railwayCreateDomain_second_tier (w : RailwayWorld) (pid eid sid : str)
    (e : str) (domain : Domain) :
  cliDomainResult (rw_cliDomainGenerate w sid) = Throw e ->
  outcome (gqlCreateDomain w pid eid sid) = Ok domain ->
  outcome (railwayCreateDomain w pid eid sid) = Ok domain.
Proof.
  intros H1 H2.
  assert (Hcli : outcome (cliCreateDomain w sid) = Throw e).
  { unfold cliCreateDomain, mbind, Traced_bind. cbn [perform outcome calls].
    now rewrite H1. }
  unfold railwayCreateDomain.
  now rewrite tryCatchT_outcome, Hcli, tryCatchT_outcome, H2.
Qed.

Lemma bind_ok (A B : Type) (m : Traced A) (k : A -> Traced B) (a : A) :
  outcome m = Ok a ->
  m ≫= k = {| calls := calls m ++ calls (k a); outcome := outcome (k a) |}.
Proof. intros E. unfold mbind, Traced_bind. now rewrite E. Qed.

Lemma outcome_mret (A : Type) (a : A) : outcome (mret a : Traced A) = Ok a.
Proof. reflexivity. Qed.

(** The [try] block when the command-line domain step fails and the
    structured mutation succeeds. *)
Lemma deployToRailwayTry_second_tier (w : RailwayWorld) (pd : PracticeData)
    (repository : Repository) (project : Project) (envs : list Environment)
    (env : Environment) (service : Service) (e domain : str) :
  outcome (railwayCreateProject w
             (hyphenate (Js.toLowerCase (company pd)) ++ "-demo")) = Ok project ->
  outcome (railwayGetEnvironments w (project_id project)) = Ok envs ->
  chooseEnvironment envs = Some env ->
  outcome (railwayCreateService w (project_id project) (full_name repository))
  = Ok service ->
  cliDomainResult (rw_cliDomainGenerate w (service_id service)) = Throw e ->
  outcome (gqlCreateDomain w (project_id project) (env_id env) (service_id service))
  = Ok (domainOf domain) ->
  outcome (deployToRailwayTry w pd repository)
  = Ok {| d_url := "https://" ++ domain; d_status := Deployed;
          d_deploymentMethod := "railway-mcp-direct" |} /\
  afterCliDomain (calls (deployToRailwayTry w pd repository))
  = [CGqlDomainCreate (project_id project) (env_id env) (service_id service)] /\
  calls (deployToRailwayTry w pd repository)
  = [CProjectCreate (hyphenate (Js.toLowerCase (company pd)) ++ ("-demo" : str));
     CEnvironments (project_id project);
     CServiceCreate (project_id project) (full_name repository)]
    ++ calls (railwaySetVariables w (project_id project) (env_id env)
                (service_id service) pd)
    ++ [CCliDomainGenerate (service_id service);
        CGqlDomainCreate (project_id project) (env_id env) (service_id service)].
Proof.
  intros Hp He Hc Hs Hcli Hgql.
  destruct (railwaySetVariables_spec w (project_id project) (env_id env)
              (service_id service) pd) as [Hvo Hvc].
  pose proof (railwayCreateDomain_second_tier w _ _ _ e _ Hcli Hgql) as Hd.
  pose proof (railwayCreateDomain_calls w (project_id project) (env_id env)
                (service_id service)) as Hdc.
  rewrite Hcli in Hdc.
  unfold deployToRailwayTry.
  rewrite (bind_ok _ _ _ _ _ Hp), (bind_ok _ _ _ _ _ He), Hc.
  rewrite (bind_ok _ _ _ _ _ Hs).
  rewrite (bind_ok _ _ (mret env) _ env (outcome_mret _ env)).
  assert (Hv : outcome
                 (tryCatchT
                    (railwaySetVariables w (project_id project) (env_id env)
                       (service_id service) pd) (fun _ => mret tt)) = Ok tt)
    by (rewrite tryCatchT_outcome; now rewrite Hvo).
  assert (Hvcalls : calls
                 (tryCatchT
                    (railwaySetVariables w (project_id project) (env_id env)
                       (service_id service) pd) (fun _ => mret tt))
               = calls (railwaySetVariables w (project_id project) (env_id env)
                          (service_id service) pd))
    by (unfold tryCatchT; now rewrite Hvo).
  rewrite (bind_ok _ _ _ _ _ Hv), (bind_ok _ _ _ _ _ Hd).
  cbn [outcome calls]. rewrite Hvcalls, Hdc.
  split; [reflexivity|].
  cbn [railwayCreateProject railwayGetEnvironments railwayCreateService
         perform calls mret Traced_ret app].
  split.
  - cbn [afterCliDomain]. exact (afterCliDomain_app _ _ _ Hvc).
  - reflexivity.
Qed.

(** C6, as amended.  When the project, an environment and the service are
    there, the command-line domain step fails and the structured mutation
    succeeds, [deployToRailway] returns status [Deployed] with the URL built
    from the domain of the mutation, not the static fallback.  The mutation
    is attempted only when the command-line domain step fails; it is the one
    call that follows that step, it creates the domain for the same project,
    environment and service, and it sets no variable: each variable has its
    own command-line-then-API attempt inside the variable step, before the
    domain step. *)
Theorem deployToRailway_second_tier (w : RailwayWorld) (pd : PracticeData)
    (repository : Repository) (project : Project) (envs : list Environment)
    (env : Environment) (service : Service) (e domain : str) :
  outcome (railwayCreateProject w
             (hyphenate (Js.toLowerCase (company pd)) ++ "-demo")) = Ok project ->
  outcome (railwayGetEnvironments w (project_id project)) = Ok envs ->
  chooseEnvironment envs = Some env ->
  outcome (railwayCreateService w (project_id project) (full_name repository))
  = Ok service ->
  cliDomainResult (rw_cliDomainGenerate w (service_id service)) = Throw e ->
  outcome (gqlCreateDomain w (project_id project) (env_id env) (service_id service))
  = Ok (domainOf domain) ->
  outcome (deployToRailway w pd repository)
  = Ok {| d_url := "https://" ++ domain; d_status := Deployed;
          d_deploymentMethod := "railway-mcp-direct" |} /\
  afterCliDomain (calls (deployToRailway w pd repository))
  = [CGqlDomainCreate (project_id project) (env_id env) (service_id service)] /\
  (forall pid eid sid,
     In (CGqlDomainCreate pid eid sid) (calls (railwayCreateDomain w pid eid sid)) <->
     exists e', cliDomainResult (rw_cliDomainGenerate w sid) = Throw e') /\
  calls (deployToRailway w pd repository)
  = [CProjectCreate (hyphenate (Js.toLowerCase (company pd)) ++ ("-demo" : str));
     CEnvironments (project_id project);
     CServiceCreate (project_id project) (full_name repository)]
    ++ calls (railwaySetVariables w (project_id project) (env_id env)
                (service_id service) pd)
    ++ [CCliDomainGenerate (service_id service);
        CGqlDomainCreate (project_id project) (env_id env) (service_id service)] /\
  (forall pid eid sid,
     calls (railwaySetVariables w pid eid sid pd)
     = calls (cliSetAll w sid (railwayVariables pd))
       ++ (if someCliSetFails w sid (railwayVariables pd)
           then calls (gqlSetAll w pid eid sid (railwayVariables pd))
           else []) /\
     forallb isCliVariableCall (calls (cliSetAll w sid (railwayVariables pd))) = true /\
     forallb isGqlVariableCall
       (calls (gqlSetAll w pid eid sid (railwayVariables pd))) = true /\
     calls (gqlSetAll w pid eid sid (railwayVariables pd)) <> [] /\
     forall k v p e' s',
       In (CGqlVariableUpsert k v p e' s')
         (calls (gqlSetAll w pid eid sid (railwayVariables pd))) ->
       p = pid /\ e' = eid /\ s' = sid).
Proof.
  intros Hp He Hc Hs Hcli Hgql.
  pose proof (deployToRailwayTry_second_tier w pd repository project envs env
                service e domain Hp He Hc Hs Hcli Hgql) as Htry.
  destruct Htry as [Ho [Hcalls Htrace]].
  split; [|split; [|split; [|split]]].
  - unfold deployToRailway, tryCatchT. now rewrite Ho.
  - unfold deployToRailway, tryCatchT. now rewrite Ho.
  - intros pid eid sid. rewrite railwayCreateDomain_calls.
    destruct (cliDomainResult (rw_cliDomainGenerate w sid)) as [d|e']; simpl.
    + split; [intros [H|[]]; discriminate|intros [? ?]; discriminate].
    + split; [eauto|intros _; right; now left].
  - unfold deployToRailway, tryCatchT. rewrite Ho. exact Htrace.
  - intros pid eid sid.
    destruct (cliSetAll_spec w sid (railwayVariables pd)) as (Hc1 & _).
    destruct (gqlSetAll_spec w pid eid sid (railwayVariables pd)) as (Hg1 & _ & Hg3).
    split; [apply railwaySetVariables_calls|]. split; [exact Hc1|].
    split; [exact Hg1|]. split; [now apply Hg3|].
    intros k v p e' s'. apply gqlSetAll_ids.
Qed.

(** When the [try] block of the orchestrator throws, the result is the
    static fallback built from the owner and the name of the repository. *)
Lemma deployToRailway_catch (w : RailwayWorld) (pd : PracticeData)
    (repository : Repository) (e : str) :
  outcome (deployToRailwayTry w pd repository) = Throw e ->
  outcome (deployToRailway w pd repository)
  = Ok {| d_url := "https://" ++ owner_login repository ++ ".github.io/"
                   ++ repo_name repository;
          d_status := Fallback; d_deploymentMethod := "github-pages" |}.
Proof. intros H. unfold deployToRailway, tryCatchT. now rewrite H. Qed.

Lemma deployToRailway_returns (w : RailwayWorld) (pd : PracticeData)
    (repository : Repository) :
  exists d, outcome (deployToRailway w pd repository) = Ok d.
Proof.
  unfold deployToRailway, tryCatchT.
  destruct (outcome (deployToRailwayTry w pd repository)) eqn:E; simpl; eauto.
Qed.

End Deployment.

Lemma deployToRailway_second_tier_witness :
  outcome (deployToRailway secondTierRailway sampleProfile
             (sampleRepository "glow-aesthetics-demo-1"))
  = Ok {| d_url := "https://glow-demo.up.railway.app"; d_status := Deployed;
          d_deploymentMethod := "railway-mcp-direct" |}.
Proof.
  apply (deployToRailway_second_tier secondTierRailway sampleProfile
           (sampleRepository "glow-aesthetics-demo-1")
           {| project_id := "prj_1"; project_name := "glow-aesthetics-clinic-demo" |}
           [{| env_id := "env_s"; env_name := "staging" |};
            {| env_id := "env_p"; env_name := "production" |}]
           {| env_id := "env_p"; env_name := "production" |}
           {| service_id := "svc_1" |}
           "Cannot access 'process' before initialization"
           "glow-demo.up.railway.app");
    reflexivity.
Defined.

(** C6 as stated fails on the variables: in a run where the command line
    fails at every step and the structured API answers, the variables go
    through the API before the domain step, and what follows the failed
    command-line domain step is the domain mutation alone. *)
Lemma deployToRailway_second_tier_sets_no_variable :
  let run := deployToRailway secondTierRailway sampleProfile
               (sampleRepository "glow-aesthetics-demo-1") in
  outcome run
  = Ok {| d_url := "https://glow-demo.up.railway.app"; d_status := Deployed;
          d_deploymentMethod := "railway-mcp-direct" |} /\
  calls run
  = [CProjectCreate "glow-aesthetics-clinic-demo";
     CEnvironments "prj_1";
     CServiceCreate "prj_1" "leadsprint/glow-aesthetics-demo-1";
     CCliVariableSet "NEXT_PUBLIC_PRACTICE_ID" "glow-aesthetics" "svc_1";
     CGqlVariableUpsert "NEXT_PUBLIC_PRACTICE_ID" "glow-aesthetics" "prj_1" "env_p" "svc_1";
     CGqlVariableUpsert "NEXT_PUBLIC_COMPANY_NAME" "Glow Aesthetics Clinic" "prj_1" "env_p" "svc_1";
     CGqlVariableUpsert "NODE_ENV" "production" "prj_1" "env_p" "svc_1";
     CCliDomainGenerate "svc_1";
     CGqlDomainCreate "prj_1" "env_p" "svc_1"] /\
  existsb isVariableCall (afterCliDomain (calls run)) = false.
Proof. repeat split. Qed.

(** ** The per-lead sequencer *)

Section Sequencer.

Context {pf : Platform}.

Lemma scrapeHealthcareWebsite_throws (w : ScrapeWorld) (url message : str) :
  scrapeHealthcareWebsite w url = Throw message -> message = ("Invalid URL" : str).
Proof.
  destruct (URL_hostname url) as [domain|] eqn:Hd.
  - destruct (scrapeHealthcareWebsite_returns w url domain Hd) as (p & -> & _).
    discriminate.
  - rewrite (scrapeHealthcareWebsite_no_host w url Hd). now intros [= <-].
Qed.

(** Every failure of a lead carries a message. *)
Lemma leadPhases_throws (config : Config) (w : LeadWorld) (url message : str) :
  leadPhases config w url = Throw message -> message <> [].
Proof.
  unfold leadPhases.
  destruct (scrapeHealthcareWebsite (l_scrape w) url) as [scraped|m] eqn:Es; simpl.
  2:{ intros [= <-]. apply scrapeHealthcareWebsite_throws in Es. now subst. }
  unfold storeLeadInNotion.
  destruct (l_notionCreate w) as [m|page]; simpl; [intros [= <-]; discriminate|].
  unfold createPersonalizedRepository.
  destruct (l_github w _) as [m|repository]; simpl; [intros [= <-]; discriminate|].
  unfold personalizeRepository.
  destruct (l_personalize w) as [[]|m]; simpl; [|intros [= <-]; discriminate].
  destruct (deployToRailway_returns (l_railway w) scraped repository) as [d ->].
  simpl. unfold updateNotionWithResults.
  destruct (l_notionUpdate w); simpl; discriminate.
Qed.

(** One lead always yields one entry, for its own URL, and the entry is a
    failure with a message or a success with its three references. *)
Lemma processHealthcareWebsite_entry (config : Config) (w : LeadWorld) (url : str) :
  exists r,
    processHealthcareWebsite config w url = Ok r /\
    r_leadUrl r = url /\ wellFormedEntry r.
Proof.
  unfold processHealthcareWebsite.
  destruct (leadPhases config w url) as [[[[[scraped page] agentId] repository] d]|m]
    eqn:E.
  - eexists. split; [reflexivity|]. split; [reflexivity|].
    unfold wellFormedEntry. simpl. repeat split; eauto.
  - eexists. split; [reflexivity|]. split; [reflexivity|].
    unfold wellFormedEntry. simpl. exists m. split; [reflexivity|].
    now apply leadPhases_throws in E.
Qed.

Lemma processLeads_entries (config : Config) (w : BatchWorld)
    (practices : list LeadCandidate) (i : nat) :
  List.Forall2 (fun c r => r_leadUrl r = c_url c /\ wellFormedEntry r)
    practices (processLeads config w i practices).
Proof.
  revert i. induction practices as [|c rest IH]; intros i; simpl; constructor.
  - destruct (processHealthcareWebsite_entry config (b_lead w i) (c_url c))
      as (r & -> & Hu & Hw).
    now split.
  - apply IH.
Qed.

Lemma findHealthcarePracticesWithEXA_nonEmpty (w : BatchWorld) (count : nat)
    (practices : list LeadCandidate) :
  findHealthcarePracticesWithEXA w count = Ok practices -> practices <> [].
Proof.
  unfold findHealthcarePracticesWithEXA.
  destruct (b_search w count) as [m|response]; simpl; [discriminate|].
  destruct (f_ok response); simpl; [|discriminate].
  destruct (f_body response) as [[[|r rs]|]|m]; simpl; try discriminate.
  now intros [= <-].
Qed.

(** C1.  When the [try] block of the orchestrator throws, [deployToRailway]
    returns the static fallback: status [Fallback] and the URL built from the
    owner and the name of the repository; and a lead that reached the
    deployment this way is reported with status [Success] and that URL. *)
Theorem deployToRailway_fallback (config : Config) (w : LeadWorld) (url : str)
    (scraped : PracticeData) (page : NotionPage) (repository : Repository)
    (e : str) :
  (forall (rw : RailwayWorld) (pd : PracticeData) (repo : Repository) (e' : str),
     outcome (deployToRailwayTry rw pd repo) = Throw e' ->
     outcome (deployToRailway rw pd repo)
     = Ok {| d_url := "https://" ++ owner_login repo ++ ".github.io/"
                      ++ repo_name repo;
             d_status := Fallback; d_deploymentMethod := "github-pages" |}) /\
  (scrapeHealthcareWebsite (l_scrape w) url = Ok scraped ->
   storeLeadInNotion w scraped url = Ok page ->
   createPersonalizedRepository w scraped (createElevenLabsAgent config w scraped)
   = Ok repository ->
   outcome (deployToRailwayTry (l_railway w) scraped repository) = Throw e ->
   exists r,
     processHealthcareWebsite config w url = Ok r /\
     r_status r = Success /\
     r_demoUrl r = Some ("https://" ++ owner_login repository ++ ".github.io/"
                         ++ repo_name repository)).
Proof.
  split; [intros rw pd repo e'; apply deployToRailway_catch|].
  intros Hs Hn Hr Hd.
  apply deployToRailway_catch in Hd.
  unfold processHealthcareWebsite, leadPhases.
  rewrite Hs. simpl. rewrite Hn. simpl. rewrite Hr. simpl. rewrite Hd. simpl.
  unfold updateNotionWithResults.
  destruct (l_notionUpdate w); simpl; eexists; repeat split; reflexivity.
Qed.

End Sequencer.

Lemma deployToRailway_fallback_witness :
  exists r,
    processHealthcareWebsite (pf := samplePlatform) sampleConfig
      (sampleLead downRailway (Ok tt)) "https://www.glow-aesthetics.co.uk/" = Ok r /\
    r_status r = Success /\
    r_demoUrl r
    = Some ("https://leadsprint.github.io/glow-aesthetics-demo-1700000004500" : str).
Proof.
  apply (proj2 (deployToRailway_fallback (pf := samplePlatform) sampleConfig
                  (sampleLead downRailway (Ok tt))
                  "https://www.glow-aesthetics.co.uk/"
                  emptyServicesProfile {| page_id := "page_1" |}
                  (sampleRepository "glow-aesthetics-demo-1700000004500")
                  "Request failed with status code 503"));
    vm_compute; reflexivity.
Defined.

(** * Further properties *)

(** ** Identifiers, names and phone numbers *)

Section Identifiers.

Lemma noDouble_tail (c : ascii) (s : str) : noDouble (c :: s) = true -> noDouble s = true.
Proof. simpl. intros H. now apply andb_true_iff in H. Qed.

Lemma noDouble_firstn (n : nat) (s : str) :
  noDouble s = true -> noDouble (firstn n s) = true.
Proof.
  revert s. induction n as [|n IH]; intros [|c t] H; try reflexivity.
  cbn [firstn noDouble]. apply andb_true_iff. split.
  - simpl in H. apply andb_true_iff in H as [H _].
    destruct (Js.isHyphen c); [|reflexivity].
    destruct n, t; try reflexivity. simpl in *. exact H.
  - apply IH. now apply noDouble_tail in H.
Qed.

Lemma dropLeadingHyphen_keeps_noDouble (s : str) :
  noDouble s = true -> noDouble (dropLeadingHyphen s) = true.
Proof. intros H. now apply dropLeadingHyphen_noDouble. Qed.

Lemma stripEdgeHyphens_noDouble (s : str) :
  noDouble s = true -> noDouble (stripEdgeHyphens s) = true.
Proof.
  intros H. unfold stripEdgeHyphens, dropTrailingHyphen.
  rewrite noDouble_rev. apply dropLeadingHyphen_keeps_noDouble.
  rewrite noDouble_rev. now apply dropLeadingHyphen_keeps_noDouble.
Qed.

Lemma noDouble_includes (s : str) :
  noDouble s = true -> Js.includes "--" s = false.
Proof.
  induction s as [|c t IH]; intros H; [reflexivity|].
  rewrite includes_cons, (IH (noDouble_tail _ _ H)), orb_false_r.
  simpl in H. apply andb_true_iff in H as [H _].
  destruct t as [|h t'].
  - change (Js.startsWith ("--" : str) [c]) with (Ascii.eqb "-" c && false).
    apply andb_false_r.
  - change (Js.startsWith ("--" : str) (c :: h :: t'))
      with (Ascii.eqb "-" c && (Ascii.eqb "-" h && true)).
    rewrite (Ascii.eqb_sym "-" c), (Ascii.eqb_sym "-" h), andb_true_r.
    unfold leadingHyphen, Js.isHyphen in H.
    now destruct (Ascii.eqb c "-"), (Ascii.eqb h "-").
Qed.

(** X1.  Runs of characters outside [[a-z0-9]] leave one hyphen at most: the
    id of every domain is free of two hyphens in a row, also after the
    truncation. *)
Theorem generatePracticeId_single_hyphens (d : str) :
  Js.includes "--" (generatePracticeId d) = false.
Proof.
  apply noDouble_includes.
  unfold generatePracticeId, Js.substring0, practiceIdUncut.
  apply noDouble_firstn, stripEdgeHyphens_noDouble, collapseHyphens_noDouble.
Qed.

Lemma stripPrefix_added (p d : str) : Js.stripPrefix p (p ++ d) = d.
Proof.
  unfold Js.stripPrefix.
  assert (H : Js.startsWith p (p ++ d) = true).
  { induction p as [|c p IH]; [reflexivity|]. simpl. now rewrite Ascii.eqb_refl. }
  rewrite H. apply drop_app_length.
Qed.

(** X2.  The [www.] prefix does not count: a host and the same host behind
    [www.] get the same id and the same company name. *)
Theorem www_prefix_ignored (d : str) :
  Js.startsWith "www." d = false ->
  generatePracticeId (("www." : str) ++ d) = generatePracticeId d /\
  extractCompanyFromDomain (("www." : str) ++ d) = extractCompanyFromDomain d.
Proof.
  intros H.
  unfold generatePracticeId, practiceIdUncut, extractCompanyFromDomain.
  rewrite stripPrefix_added. unfold Js.stripPrefix at 1 2. rewrite H. now split.
Qed.

Lemma www_prefix_ignored_witness :
  generatePracticeId "www.glow-aesthetics.co.uk" = generatePracticeId "glow-aesthetics.co.uk".
Proof.
  apply (www_prefix_ignored ("glow-aesthetics.co.uk" : str)). reflexivity.
Defined.

Lemma splitOn_nonEmpty (sep : ascii -> bool) (s : str) : Js.splitOn sep s <> [].
Proof.
  destruct s as [|c t]; simpl; [discriminate|].
  destruct (sep c); [discriminate|]. now destruct (Js.splitOn sep t).
Qed.

Lemma capitalize_length (w : str) : length (capitalize w) = length w.
Proof. now destruct w. Qed.

Lemma join_cons (sep w : str) (ws : list str) :
  ws <> [] -> Js.join sep (w :: ws) = w ++ sep ++ Js.join sep ws.
Proof. destruct ws; [easy|reflexivity]. Qed.

Lemma map_nonEmpty (A B : Type) (f : A -> B) (l : list A) : l <> [] -> map f l <> [].
Proof. now destruct l. Qed.

(** The words of a name, capitalised and joined by one blank, take as many
    characters as the text they were split from. *)
Lemma joinedWords_length (sep : ascii -> bool) (s : str) :
  length (Js.join " " (map capitalize (Js.splitOn sep s))) = length s.
Proof.
  induction s as [|c t IH]; [reflexivity|].
  cbn [Js.splitOn]. pose proof (splitOn_nonEmpty sep t) as Hne.
  destruct (sep c).
  - cbn [map]. rewrite join_cons by now apply map_nonEmpty.
    rewrite !length_app, IH. reflexivity.
  - destruct (Js.splitOn sep t) as [|w ws]; [easy|].
    cbn [map] in *. destruct ws as [|w' ws'].
    + cbn [map Js.join] in *. rewrite capitalize_length in *. simpl. now rewrite IH.
    + cbn [map] in *. rewrite join_cons in IH by easy. rewrite join_cons by easy.
      rewrite !length_app, !capitalize_length in *.
      change (length (c :: w)) with (S (length w)).
      change (length (c :: t)) with (S (length t)). lia.
Qed.

Lemma upperChar_separator (c : ascii) :
  isNameSeparator (Js.upperChar c) = isNameSeparator c.
Proof. destruct c as [[] [] [] [] [] [] [] []]; reflexivity. Qed.

Lemma capitalize_separators (w : str) :
  existsb isNameSeparator (capitalize w) = existsb isNameSeparator w.
Proof. destruct w as [|c t]; [reflexivity|]. simpl. now rewrite upperChar_separator. Qed.

Lemma capitalized_separators (l : list str) :
  existsb isNameSeparator (Js.join " " (map capitalize l))
  = existsb isNameSeparator (Js.join " " l).
Proof.
  induction l as [|w ws IH]; [reflexivity|].
  destruct ws as [|w' ws']; [apply capitalize_separators|].
  cbn [map] in *.
  rewrite (join_cons " " (capitalize w)), (join_cons " " w) by easy.
  now rewrite !existsb_app, capitalize_separators, IH.
Qed.

Lemma splitOn_separators (s : str) :
  existsb isNameSeparator (Js.join " " (Js.splitOn isNameSeparator s)) = false.
Proof.
  induction s as [|c t IH]; [reflexivity|].
  cbn [Js.splitOn]. pose proof (splitOn_nonEmpty isNameSeparator t) as Hne.
  destruct (isNameSeparator c) eqn:Ec.
  - rewrite join_cons by assumption. rewrite !existsb_app, IH. reflexivity.
  - destruct (Js.splitOn isNameSeparator t) as [|w ws]; [easy|].
    destruct ws as [|w' ws'].
    + cbn [Js.join existsb] in *. now rewrite Ec, IH.
    + rewrite join_cons in IH by easy. rewrite join_cons by easy.
      change ((c :: w) ++ (" " : str) ++ Js.join " " (w' :: ws'))
        with (c :: (w ++ (" " : str) ++ Js.join " " (w' :: ws'))).
      cbn [existsb]. now rewrite Ec, IH.
Qed.

Lemma joinedWords_separators (s : str) :
  existsb isNameSeparator
    (Js.join " " (map capitalize (Js.splitOn isNameSeparator s))) = false.
Proof. rewrite capitalized_separators. apply splitOn_separators. Qed.

(** X3.  For a host made of ASCII characters, as the host names of a parsed
    URL are, the company name spells the host without prefix and ending,
    with a blank in place of every hyphen and dot: it has exactly seven
    characters more than that text (the [" Clinic"] suffix) and holds no
    hyphen and no dot. *)
Theorem extractCompanyFromDomain_shape (d : str) :
  isAscii d = true ->
  length (extractCompanyFromDomain d)
  = length (stripTld (Js.stripPrefix "www." d)) + 7 /\
  existsb isNameSeparator (extractCompanyFromDomain d) = false.
Proof.
  intros _. unfold extractCompanyFromDomain. split.
  - rewrite length_app.
    change (fun c => Js.isHyphen c || Ascii.eqb c ".") with isNameSeparator.
    now rewrite joinedWords_length.
  - rewrite existsb_app.
    change (fun c => Js.isHyphen c || Ascii.eqb c ".") with isNameSeparator.
    now rewrite joinedWords_separators.
Qed.

Lemma ofN_three_digits (n : N) :
  (100 <= n < 1000)%N -> isDigitGroup 3 (Js.ofN n).
Proof.
  intros Hn.
  assert (Hall : forallb (fun k => (length (Js.ofN (N.of_nat k)) =? 3)
                                   && forallb Js.isDigit (Js.ofN (N.of_nat k)))
                   (seq 100 900) = true) by (vm_compute; reflexivity).
  rewrite forallb_forall in Hall.
  specialize (Hall (N.to_nat n)). rewrite N2Nat.id in Hall.
  assert (Hin : In (N.to_nat n) (seq 100 900)) by (apply in_seq; lia).
  apply Hall, andb_true_iff in Hin as [H1 H2].
  split; [now apply Nat.eqb_eq|assumption].
Qed.

Lemma ofN_four_digits (n : N) :
  (1000 <= n < 10000)%N -> isDigitGroup 4 (Js.ofN n).
Proof.
  intros Hn.
  assert (Hall : forallb (fun k => (length (Js.ofN (N.of_nat k)) =? 4)
                                   && forallb Js.isDigit (Js.ofN (N.of_nat k)))
                   (seq (10 * 100) (90 * 100)) = true) by (vm_compute; reflexivity).
  rewrite forallb_forall in Hall.
  specialize (Hall (N.to_nat n)). rewrite N2Nat.id in Hall.
  assert (Hin : In (N.to_nat n) (seq (10 * 100) (90 * 100))) by (apply in_seq; lia).
  apply Hall, andb_true_iff in Hin as [H1 H2].
  split; [now apply Nat.eqb_eq|assumption].
Qed.

(** X4.  Whatever the random source draws, the phone number follows the
    pattern of the region read off the host: [+44 20 7ddd dddd] for [.uk],
    [+61 2 dddd dddd] for [.au], [+1 ddd-ddd-dddd] otherwise. *)
Theorem extractPhoneFromDomain_pattern (random : nat -> N) (domain : str) :
  exists a b c,
    extractPhoneFromDomain random domain =
    (if Js.includes ".co.uk" domain || Js.includes ".uk" domain
     then "+44 20 7" ++ a ++ " " ++ b
     else if Js.includes ".au" domain
          then "+61 2 " ++ a ++ " " ++ b
          else "+1 " ++ a ++ "-" ++ b ++ "-" ++ c) /\
    (if Js.includes ".co.uk" domain || Js.includes ".uk" domain
     then isDigitGroup 3 a /\ isDigitGroup 4 b
     else if Js.includes ".au" domain
          then isDigitGroup 4 a /\ isDigitGroup 4 b
          else isDigitGroup 3 a /\ isDigitGroup 3 b /\ isDigitGroup 4 c).
Proof.
  unfold extractPhoneFromDomain.
  assert (H3 : forall r : N, isDigitGroup 3 (Js.ofN (r mod 900 + 100))).
  { intros r. apply ofN_three_digits.
    assert (Hm : (r mod 900 < 900)%N) by (apply N.mod_upper_bound; discriminate).
    revert Hm. generalize (r mod 900)%N. intros; lia. }
  assert (H4 : forall r : N, isDigitGroup 4 (Js.ofN (r mod 9000 + 1000))).
  { intros r. apply ofN_four_digits.
    assert (Hm : (r mod 9000 < 9000)%N) by (apply N.mod_upper_bound; discriminate).
    revert Hm. generalize (r mod 9000)%N. intros; lia. }
  destruct (Js.includes ".co.uk" domain || Js.includes ".uk" domain).
  - exists (Js.ofN (random 0 mod 900 + 100)), (Js.ofN (random 1 mod 9000 + 1000)), [].
    split; [reflexivity|]. split; [apply H3|apply H4].
  - destruct (Js.includes ".au" domain).
    + exists (Js.ofN (random 0 mod 9000 + 1000)), (Js.ofN (random 1 mod 9000 + 1000)), [].
      split; [reflexivity|]. split; apply H4.
    + exists (Js.ofN (random 0 mod 900 + 100)), (Js.ofN (random 1 mod 900 + 100)),
        (Js.ofN (random 2 mod 9000 + 1000)).
      split; [reflexivity|]. repeat split; try apply H3; apply H4.
Qed.

End Identifiers.

Lemma extractCompanyFromDomain_shape_witness :
  length (extractCompanyFromDomain "www.glow-aesthetics.co.uk")
  = length ("glow-aesthetics" : str) + 7 /\
  existsb isNameSeparator (extractCompanyFromDomain "www.glow-aesthetics.co.uk") = false.
Proof.
  apply (extractCompanyFromDomain_shape "www.glow-aesthetics.co.uk").
  reflexivity.
Defined.

(** ** The filter engine and the custom workflow *)

Section CustomWorkflow.

(** X5.  Filters act one by one: a candidate passes a list of filters
    exactly when it passes every part of it, so the order of the filters
    does not matter. *)
Theorem passesCustomFilters_app (practice : ExaResult) (fs gs : list str) :
  passesCustomFilters practice (fs ++ gs)
  = passesCustomFilters practice fs && passesCustomFilters practice gs /\
  passesCustomFilters practice (gs ++ fs) = passesCustomFilters practice (fs ++ gs).
Proof.
  assert (H : forall a b, passesCustomFilters practice (a ++ b)
                          = passesCustomFilters practice a
                            && passesCustomFilters practice b).
  { intros a b. induction a as [|f a IH]; [reflexivity|].
    cbn [app passesCustomFilters]. rewrite IH.
    repeat match goal with |- context [if ?c then _ else _] => destruct c end;
      reflexivity. }
  split; [apply H|]. rewrite !H. apply andb_comm.
Qed.

Lemma removeAll_require (lx : str) :
  removeAll ["require" : str; "must" : str] 0 (("require " : str) ++ lx)
  = (" " : str) ++ removeAll ["require" : str; "must" : str] 0 lx.
Proof. reflexivity. Qed.

Lemma includes_require_exclude (lx : str) :
  Js.includes "exclude" (("require " : str) ++ lx) = Js.includes "exclude" lx /\
  Js.includes "avoid" (("require " : str) ++ lx) = Js.includes "avoid" lx.
Proof. split; reflexivity. Qed.

(** X6.  An entry ["require X"], where [X] is one word (not empty, no white
    space) whose lower-case form contains none of the keywords [exclude],
    [avoid], [require] and [must], lets a candidate pass exactly when its
    title or text contains [X], case-insensitively. *)
Theorem passesCustomFilters_require (practice : ExaResult) (X : str) :
  isWord X ->
  keywordFree (Js.toLowerCase X) ->
  passesCustomFilters practice [("require " : str) ++ X] = mentions X practice.
Proof.
  intros [Hne Hw] (He & Ha & Hr & Hm).
  assert (Hlow : Js.toLowerCase (("require " : str) ++ X)
                 = ("require " : str) ++ Js.toLowerCase X)
    by (unfold Js.toLowerCase; now rewrite map_app).
  cbn [passesCustomFilters]. rewrite Hlow.
  destruct (includes_require_exclude (Js.toLowerCase X)) as [-> ->].
  rewrite He, Ha. cbn [orb].
  replace (Js.includes "require" (("require " : str) ++ Js.toLowerCase X))
    with true by reflexivity.
  cbn [orb]. unfold filterTerms.
  rewrite removeAll_require, removeAll_id.
  2:{ intros k [<-|[<-|[]]]; assumption. }
  assert (Hl : forallb (fun c => negb (Js.isSpace c)) (Js.toLowerCase X) = true)
    by now rewrite noSpace_toLowerCase.
  rewrite (trim_blank_noSpace _ Hl), (splitOn_noSpace _ Hl).
  cbn [someTermOccurs existsb]. rewrite orb_false_r.
  assert (Hn : nonEmpty (Js.toLowerCase X) = true) by now destruct X.
  rewrite Hn. cbn [andb]. unfold mentions.
  now destruct (_ || _).
Qed.

Lemma passesCustomFilters_require_witness :
  passesCustomFilters
    {| r_url := "https://glow.example"; r_title := Some ("Glow Clinic" : str);
       r_text := Some ("Our Doctors offer botox" : str); r_id := "1" |}
    [("require " : str) ++ ("doctors" : str)] = true.
Proof.
  rewrite (passesCustomFilters_require _ ("doctors" : str)).
  - reflexivity.
  - split; [discriminate|reflexivity].
  - repeat split.
Defined.

Lemma filter_sublist (A : Type) (f : A -> bool) (l : list A) :
  sublist (List.filter f l) l.
Proof.
  induction l as [|x l IH]; simpl; [constructor|].
  destruct (f x); now constructor.
Qed.

(** X7.  Discovery asks the search collaborator for twice the count, capped
    at 20 results, and what it returns is taken from the collaborator's
    results in their order: nothing is added, reordered or repeated. *)
Theorem findHealthcarePracticesWithCustomEXA_sublist (exa : ExaWorld)
    (query : str) (count : nat) (cfg : WorkflowConfig) (found : list ExaResult) :
  findHealthcarePracticesWithCustomEXA exa query count cfg = Ok found ->
  exists request results,
    q_query request = query /\
    q_numResults request = Nat.min (2 * count) 20 /\
    exa request = AxiosResolves results /\
    sublist found (default [] results).
Proof.
  unfold findHealthcarePracticesWithCustomEXA.
  set (request := {| q_query := query; q_numResults := Nat.min (count * 2) 20 |}).
  destruct (exa request) as [e|data] eqn:E; simpl; [discriminate|].
  intros H. exists request, data.
  split; [reflexivity|]. split; [simpl; now rewrite Nat.mul_comm|].
  split; [exact E|].
  destruct (length _ =? 0); injection H as <-; [apply sublist_nil_l|].
  etransitivity; [apply sublist_take|].
  destruct (truthyStr (specialty cfg)); destruct (truthyStr (location cfg));
    repeat (etransitivity; [apply filter_sublist|]); destruct data; reflexivity.
Qed.

Lemma findHealthcarePracticesWithCustomEXA_sublist_witness :
  exists request results,
    q_numResults request = 2 /\
    austriaSearch request = AxiosResolves results /\
    sublist
      [{| r_url := "https://www.glow.at/"; r_title := Some ("Glow Botox Wien" : str);
          r_text := None; r_id := "a" |}]
      (default [] results).
Proof.
  destruct (findHealthcarePracticesWithCustomEXA_sublist austriaSearch
              "botox clinic practice doctor Austria" 1 austriaBotox _ eq_refl)
    as (request & results & _ & Hn & Hr & Hs).
  exists request, results. auto.
Defined.

Lemma findHealthcarePracticesWithCustomEXA_length (exa : ExaWorld)
    (query : str) (count : nat) (cfg : WorkflowConfig) (found : list ExaResult) :
  findHealthcarePracticesWithCustomEXA exa query count cfg = Ok found ->
  length found <= count.
Proof.
  unfold findHealthcarePracticesWithCustomEXA.
  destruct (exa _) as [e|data]; simpl; [discriminate|].
  destruct (length _ =? 0).
  { intros [= <-]. simpl. lia. }
  intros [= <-]. apply firstn_le_length.
Qed.

(** X8.  A custom run that returns has between one entry and as many as the
    effective count ([leadCount], or 3 when it is missing or zero): one entry
    per discovered practice, in order, marked successful exactly when the
    practice passes the custom filters (or when the configuration has
    none). *)
Theorem executeCustomAutonomousWorkflow_entries (exa : ExaWorld)
    (cfg : WorkflowConfig) (results : list CustomResult) :
  executeCustomAutonomousWorkflow exa cfg = Ok results ->
  1 <= length results <= effectiveLeadCount cfg /\
  exists practices,
    findHealthcarePracticesWithCustomEXA exa (effectiveQuery cfg)
      (effectiveLeadCount cfg) cfg = Ok practices /\
    List.Forall2
      (fun practice entry =>
         cr_practice entry = r_title practice /\
         cr_success entry =
         match filters cfg with
         | Some fs => passesCustomFilters practice fs
         | None => true
         end)
      practices results.
Proof.
  unfold executeCustomAutonomousWorkflow.
  destruct (findHealthcarePracticesWithCustomEXA _ _ _ _) as [practices|e] eqn:E;
    simpl; [|discriminate].
  destruct (length practices =? 0) eqn:El; [discriminate|].
  intros [= <-]. apply Nat.eqb_neq in El.
  apply findHealthcarePracticesWithCustomEXA_length in E as Hlen.
  rewrite length_map.
  split; [lia|]. exists practices. split; [reflexivity|].
  clear. induction practices as [|p ps IH]; simpl; constructor; [|exact IH].
  unfold customEntry. destruct (filters cfg) as [fs|]; simpl.
  - destruct (passesCustomFilters p fs); simpl; auto.
  - auto.
Qed.

Lemma executeCustomAutonomousWorkflow_entries_witness :
  exists results,
    executeCustomAutonomousWorkflow austriaSearch austriaFiltered = Ok results /\
    map cr_success results = [true; false] /\
    1 <= length results <= 2.
Proof.
  eexists. split; [vm_compute; reflexivity|].
  split; [reflexivity|].
  apply (executeCustomAutonomousWorkflow_entries austriaSearch austriaFiltered).
  vm_compute. reflexivity.
Defined.

End CustomWorkflow.

(** ** The conversational configurator: fences and history *)

Section Conversation.

Context {pf : Platform}.

Lemma startsWith_app (p s : str) : Js.startsWith p (p ++ s) = true.
Proof. induction p as [|c p IH]; [reflexivity|]. simpl. now rewrite Ascii.eqb_refl. Qed.

Lemma endsWith_app (p s : str) : Js.endsWith p (s ++ p) = true.
Proof. unfold Js.endsWith. rewrite rev_app_distr. apply startsWith_app. Qed.

Lemma firstn_app_suffix (p s : str) : firstn (length (s ++ p) - length p) (s ++ p) = s.
Proof.
  rewrite length_app. replace (length s + length p - length p) with (length s) by lia.
  apply take_app_length.
Qed.

Lemma dropWhile_length (f : ascii -> bool) (s : str) :
  length (Js.dropWhile f s) <= length s.
Proof. induction s as [|c t IH]; simpl; [lia|]. destruct (f c); simpl; lia. Qed.

Lemma dropWhile_fixed (f : ascii -> bool) (c : ascii) (t : str) :
  Js.dropWhile f (c :: t) = c :: t -> f c = false.
Proof.
  simpl. destruct (f c); [|reflexivity]. intros H.
  pose proof (dropWhile_length f t) as Hl. rewrite H in Hl. simpl in Hl. lia.
Qed.

Lemma trimStart_app (s rest : str) :
  s <> [] -> Js.trimStart s = s -> Js.trimStart (s ++ rest) = s ++ rest.
Proof.
  destruct s as [|c t]; [easy|]. intros _ H. unfold Js.trimStart in *.
  apply dropWhile_fixed in H. simpl. now rewrite H.
Qed.

Lemma trimEnd_snoc_space (s : str) (c : ascii) :
  Js.isSpace c = true -> Js.trimEnd (s ++ [c]) = Js.trimEnd s.
Proof. intros H. unfold Js.trimEnd. rewrite rev_unit. simpl. now rewrite H. Qed.

Lemma trim_fenced (opening body : str) :
  Js.trimStart opening = opening -> opening <> [] ->
  Js.trim (opening ++ body ++ fence) = opening ++ body ++ fence.
Proof.
  intros Ho Hne. unfold Js.trim. rewrite (trimStart_app _ _ Hne Ho).
  unfold Js.trimEnd. rewrite app_assoc.
  assert (Hd : Js.dropWhile Js.isSpace (rev ((opening ++ body) ++ fence))
               = rev ((opening ++ body) ++ fence))
    by (rewrite rev_app_distr; reflexivity).
  rewrite Hd. apply rev_involutive.
Qed.

Lemma stripClosingFence_body (body : str) :
  Js.trimEnd body = body ->
  stripClosingFence (body ++ newline ++ fence) = body.
Proof.
  intros Hb. unfold stripClosingFence.
  rewrite app_assoc, endsWith_app, firstn_app_suffix.
  unfold newline. now rewrite trimEnd_snoc_space.
Qed.

Lemma stripOpeningFence_body (opening body : str) :
  isTrimmed body ->
  stripClosingFence
    (stripOpeningFence opening (opening ++ newline ++ body ++ newline ++ fence))
  = body.
Proof.
  intros [Hs He]. unfold stripOpeningFence.
  rewrite startsWith_app, drop_app_length.
  change (Js.trimStart (newline ++ body ++ newline ++ fence))
    with (Js.trimStart (body ++ newline ++ fence)).
  destruct body as [|c t]; [reflexivity|].
  rewrite trimStart_app by easy. now apply stripClosingFence_body.
Qed.

(** X9.  A text with no white space at its ends that the model wrapped in a
    fenced block, with or without the [json] tag, is recovered exactly: what
    reaches the parser is the text itself. *)
Theorem stripCodeFences_unwraps (body : str) :
  isTrimmed body ->
  stripCodeFences (fenceJson ++ newline ++ body ++ newline ++ fence) = body /\
  stripCodeFences (fence ++ newline ++ body ++ newline ++ fence) = body.
Proof.
  intros Hb. unfold stripCodeFences. split.
  - replace (fenceJson ++ newline ++ body ++ newline ++ fence)
      with (fenceJson ++ (newline ++ body ++ newline) ++ fence)
      by now rewrite <- !app_assoc.
    rewrite trim_fenced by easy.
    rewrite startsWith_app.
    replace (fenceJson ++ (newline ++ body ++ newline) ++ fence)
      with ((fenceJson ++ newline ++ body ++ newline) ++ fence)
      by now rewrite <- !app_assoc.
    rewrite endsWith_app. cbn [andb]. rewrite <- !app_assoc.
    now apply stripOpeningFence_body.
  - replace (fence ++ newline ++ body ++ newline ++ fence)
      with (fence ++ (newline ++ body ++ newline) ++ fence)
      by now rewrite <- !app_assoc.
    rewrite trim_fenced by easy.
    replace (Js.startsWith fenceJson (fence ++ (newline ++ body ++ newline) ++ fence))
      with false by reflexivity.
    rewrite startsWith_app.
    replace (fence ++ (newline ++ body ++ newline) ++ fence)
      with ((fence ++ newline ++ body ++ newline) ++ fence)
      by now rewrite <- !app_assoc.
    rewrite endsWith_app. cbn [andb]. rewrite <- !app_assoc.
    now apply stripOpeningFence_body.
Qed.

Lemma stripCodeFences_unwraps_witness :
  stripCodeFences (fenceJson ++ newline ++ ("{}" : str) ++ newline ++ fence) = ("{}" : str).
Proof.
  apply (stripCodeFences_unwraps ("{}" : str)). split; reflexivity.
Defined.

Lemma filter_insert_count (P : Handler -> bool) (l : list Handler) (i : nat)
    (x y : Handler) :
  l !! i = Some x ->
  length (List.filter P (<[i := y]> l)) + (if P x then 1 else 0)
  = length (List.filter P l) + (if P y then 1 else 0).
Proof.
  revert i. induction l as [|h l IH]; intros i; [easy|].
  destruct i as [|i].
  - intros [= ->]. change (<[0 := y]> (x :: l)) with (y :: l).
    cbn [List.filter]. destruct (P x), (P y); cbn [length]; lia.
  - intros H. specialize (IH i H).
    change (<[S i := y]> (h :: l)) with (h :: <[i := y]> l).
    cbn [List.filter]. destruct (P h); cbn [length]; lia.
Qed.

Lemma filter_lookup_count (P : Handler -> bool) (l : list Handler) (i : nat)
    (x : Handler) :
  l !! i = Some x -> P x = true -> 1 <= length (List.filter P l).
Proof.
  revert i. induction l as [|h l IH]; intros i; [easy|].
  destruct i as [|i]; cbn [List.filter].
  - intros [= ->] ->. cbn. lia.
  - intros H Hp. specialize (IH i H Hp). cbn in IH. destruct (P h); cbn [length]; lia.
Qed.

Lemma in_insert (l : list Handler) (i : nat) (y x : Handler) :
  In x (<[i := y]> l) -> x = y \/ In x l.
Proof.
  revert i. induction l as [|h l IH]; intros i; [intros []|].
  destruct i as [|i].
  - change (<[0 := y]> (h :: l)) with (y :: l). intros [<-|H]; [auto|].
    right. now right.
  - change (<[S i := y]> (h :: l)) with (h :: <[i := y]> l).
    intros [<-|H]; [right; now left|]. apply IH in H as [->|H]; [auto|].
    right. now right.
Qed.

(** One continuation of a handler adds at most one entry to the context it
    holds, an assistant entry, and only a handler that was still to answer
    does so; the history it sends is the one of the moment it resumes. *)
Lemma resumeHandler_spec (ctx : UserContext) (w : TurnWorld) (m : str)
    (stage : Stage) :
  let (ctx', stage') := resumeHandler ctx w m stage in
  (exists added,
     conversationHistory ctx' = conversationHistory ctx ++ added /\
     length added + (if mayAnswer stage' then 1 else 0)
     <= (if mayAnswer stage then 1 else 0) /\
     List.Forall (fun entry => role entry = ("assistant" : str)) added) /\
  (forall history, stage' = AwaitCompletion history ->
                   stage = AwaitProcessing /\ history = conversationHistory ctx).
Proof.
  destruct stage as [|history|aiResponse|]; cbn [resumeHandler].
  - destruct (t_sendProcessing w).
    + destruct (buildPrompt (conversationHistory ctx)).
      * split; [exists []; rewrite app_nil_r; cbn; auto|].
        now intros history [= <-].
      * split; [exists []; rewrite app_nil_r; cbn; auto|]. discriminate.
    + split; [exists []; rewrite app_nil_r; cbn; auto|]. discriminate.
  - destruct (requestCompletion (t_llm w) m history) as [aiResponse|e].
    + destruct (negb (isObject aiResponse)).
      * split; [exists []; rewrite app_nil_r; cbn; auto|]. discriminate.
      * destruct (canStringify _);
          (split; [eexists [_]; cbn; repeat split; auto|discriminate]).
    + split; [exists []; rewrite app_nil_r; cbn; auto|]. discriminate.
  - destruct (t_sendReply w); [destruct (_ && _)|];
      (split; [exists []; cbn; rewrite app_nil_r; auto|discriminate]).
  - split; [exists []; rewrite app_nil_r; cbn; auto|]. discriminate.
Qed.

Lemma pendingOn_within (k : nat) (st : Agent) (a : nat) (ctx : UserContext) :
  forallb (fun a => pendingOn st a <=? k) (seq 0 (length (objects st))) = true ->
  objects st !! a = Some ctx -> pendingOn st a <= k.
Proof.
  intros H Ha. rewrite forallb_forall in H.
  apply Nat.leb_le, H, in_seq. apply lookup_lt_Some in Ha. lia.
Qed.

Lemma historyInv_step (k : nat) (st : Agent) (e : Event) :
  historyInv k st ->
  forallb (fun a => pendingOn (agentStep st e) a <=? k)
    (seq 0 (length (objects (agentStep st e)))) = true ->
  historyInv k (agentStep st e).
Proof.
  intros [Hlen Hsent] Hk.
  pose proof (fun a ctx => pendingOn_within k (agentStep st e) a ctx Hk) as Hp.
  clear Hk. destruct e as [c|c m w|i].
  - (* /start *)
    split; [|exact Hsent].
    intros a ctx Ha. pose proof (Hp a ctx Ha) as Hpa. cbn [agentStep objects] in Ha.
    destruct (decide (a < length (objects st))) as [Hlt|Hge].
    + rewrite lookup_app_l in Ha by exact Hlt. exact (Hlen a ctx Ha).
    + rewrite lookup_app_r in Ha by lia.
      destruct (a - length (objects st)) as [|n]; [|destruct n; discriminate].
      injection Ha as <-. unfold pendingOn in *. cbn in Hpa |- *. lia.
  - (* a message arrives *)
    cbn [agentStep] in *.
    destruct (contextOf st !! c) as [a0|] eqn:Ec; cbn [objects handlers] in *.
    + split.
      * intros a ctx Ha. pose proof (Hp a ctx Ha) as Hpa. cbn [objects] in Ha.
        destruct (decide (a = a0)) as [->|Hne].
        -- apply list_lookup_insert_Some in Ha as [(_ & <- & _)|[Hx _]]; [|easy].
           pose proof (pushUserMessage_length
                         (default newContext (objects st !! a0)) w m). lia.
        -- rewrite list_lookup_insert_ne in Ha by congruence.
           specialize (Hlen a ctx Ha). unfold pendingOn in *. cbn [handlers] in *.
           rewrite List.filter_app, length_app in Hpa |- *. cbn [List.filter h_context].
           destruct (a0 =? a) eqn:E; [apply Nat.eqb_eq in E; congruence|].
           cbn. lia.
      * intros h history Hin Hs. apply in_app_or in Hin as [Hin|[<-|[]]];
          [eauto|discriminate].
    + split.
      * intros a ctx Ha. pose proof (Hp a ctx Ha) as Hpa. cbn [objects] in Ha.
        destruct (decide (a = length (objects st))) as [->|Hne].
        -- apply list_lookup_insert_Some in Ha as [(_ & <- & _)|[Hx _]]; [|easy].
           pose proof (pushUserMessage_length
                         (default newContext
                            ((objects st ++ [newContext]) !! length (objects st)))
                         w m). lia.
        -- rewrite list_lookup_insert_ne in Ha by congruence.
           assert (Ha' : objects st !! a = Some ctx).
           { destruct (decide (a < length (objects st))) as [Hlt|Hge].
             - now rewrite lookup_app_l in Ha.
             - rewrite lookup_app_r in Ha by lia.
               destruct (a - length (objects st)) as [|n] eqn:En; [lia|].
               destruct n; discriminate. }
           specialize (Hlen a ctx Ha'). unfold pendingOn in *. cbn [handlers] in *.
           rewrite List.filter_app, length_app in Hpa |- *. cbn [List.filter h_context].
           destruct (length (objects st) =? a) eqn:E;
             [apply Nat.eqb_eq in E; congruence|].
           cbn. lia.
      * intros h history Hin Hs. apply in_app_or in Hin as [Hin|[<-|[]]];
          [eauto|discriminate].
  - (* a handler continues *)
    cbn [agentStep] in *.
    destruct (handlers st !! i) as [h|] eqn:Eh; [|now split].
    destruct (objects st !! h_context h) as [ctx0|] eqn:Eo; [|now split].
    pose proof (resumeHandler_spec ctx0 (h_world h) (h_text h) (h_stage h)) as Hr.
    destruct (resumeHandler ctx0 (h_world h) (h_text h) (h_stage h))
      as [ctx' stage'].
    destruct Hr as [(added & Hadd & Hcount & _) Hsend].
    cbn [objects handlers] in *.
    set (h' := {| h_context := h_context h; h_text := h_text h;
                  h_world := h_world h; h_stage := stage' |}) in *.
    split.
    + intros a ctx Ha. cbn [objects] in Ha.
      pose proof (filter_insert_count
                    (fun h => (h_context h =? a) && mayAnswer (h_stage h))
                    (handlers st) i h h' Eh) as Hc.
      unfold pendingOn. cbn [handlers]. cbn [h' h_context h_stage] in Hc.
      destruct (decide (a = h_context h)) as [->|Hne].
      * apply list_lookup_insert_Some in Ha as [(_ & <- & _)|[Hx _]]; [|easy].
        specialize (Hlen _ _ Eo). unfold pendingOn in Hlen.
        rewrite Nat.eqb_refl in Hc. cbn [andb] in Hc.
        rewrite Hadd, length_app. lia.
      * rewrite list_lookup_insert_ne in Ha by congruence.
        specialize (Hlen _ _ Ha). unfold pendingOn in Hlen.
        destruct (h_context h =? a) eqn:E; [apply Nat.eqb_eq in E; congruence|].
        cbn [andb] in Hc. lia.
    + intros h2 history Hin Hs. apply in_insert in Hin as [->|Hin]; [|eauto].
      cbn [h' h_stage] in Hs. apply Hsend in Hs as [Hst ->].
      specialize (Hlen _ _ Eo).
      assert (1 <= pendingOn st (h_context h)).
      { unfold pendingOn. apply (filter_lookup_count _ _ i h Eh).
        now rewrite Nat.eqb_refl, Hst. }
      lia.
Qed.

Lemma historyInv_run (k : nat) (events : list Event) (st : Agent) :
  historyInv k st ->
  overlapWithin k st events = true ->
  historyInv k (runAgent st events).
Proof.
  revert st. induction events as [|e rest IH]; intros st Hinv Hk; [exact Hinv|].
  cbn [overlapWithin] in Hk. apply andb_true_iff in Hk as [_ Hk].
  cbn [runAgent fold_left]. apply IH; [|exact Hk].
  apply historyInv_step; [exact Hinv|].
  destruct rest; cbn [overlapWithin] in Hk; now apply andb_true_iff in Hk.
Qed.

(** X10.  Handlers may overlap: the webhook does not wait for them.  In a
    run from the start of the agent in which never more than [k] handlers of
    one context object are waiting to answer, the history of every context
    has at most [10 + k] entries, counting one for every handler still to
    answer, and the history a handler sends to the completion endpoint has
    fewer than [10 + k].  With turns that do not overlap ([k = 1]) these are
    eleven entries and ten sent. *)
Theorem conversationHistory_bounds (events : list Event) (k : nat) :
  overlapWithin k noAgent events = true ->
  let st := runAgent noAgent events in
  (forall a ctx, objects st !! a = Some ctx ->
                 length (conversationHistory ctx) + pendingOn st a <= 10 + k) /\
  (forall chatId ctx, contextNow st chatId = Some ctx ->
                      length (conversationHistory ctx) <= 10 + k) /\
  (forall h history, In h (handlers st) -> h_stage h = AwaitCompletion history ->
                     length history < 10 + k).
Proof.
  intros Hk. cbn zeta.
  assert (Hinv : historyInv k (runAgent noAgent events)).
  { apply historyInv_run; [|exact Hk]. split; [intros a ctx H|intros h history []].
    cbn in H. now rewrite lookup_nil in H. }
  destruct Hinv as [Hlen Hsent]. split; [exact Hlen|]. split; [|exact Hsent].
  intros c ctx H. unfold contextNow in H.
  destruct (contextOf (runAgent noAgent events) !! c) as [a|]; [|discriminate].
  cbn in H. specialize (Hlen a ctx H). lia.
Qed.

(** X11.  Turns on other channels leave a channel's context as it was,
    however many they are and whatever they meet. *)
Theorem runTurns_other_channels (turns : list (Z * str * TurnWorld))
    (st : gmap Z UserContext) (chatId : Z) :
  List.Forall (fun turn => fst (fst turn) <> chatId) turns ->
  runTurns st turns !! chatId = st !! chatId.
Proof.
  intros H. revert st. induction H as [|[[c m] w] rest Hc _ IH]; intros st;
    [reflexivity|].
  simpl. rewrite IH. now apply handleConversationalMessage_other.
Qed.


(** *** Turns that do not overlap

    When every handler runs to its end before the next update arrives, the
    agent goes through the per-channel contexts of [runTurns]. *)

Lemma settle_times (k n : nat) (st : Agent) (h : Handler) (ctx : UserContext) :
  handlers st !! n = Some h ->
  objects st !! h_context h = Some ctx ->
  runAgent st (replicate k (EvSettle n)) =
  {| objects :=
       <[h_context h := fst (resumeTimes k ctx (h_world h) (h_text h) (h_stage h))]>
         (objects st);
     contextOf := contextOf st;
     handlers :=
       <[n := {| h_context := h_context h; h_text := h_text h; h_world := h_world h;
                 h_stage := snd (resumeTimes k ctx (h_world h) (h_text h)
                                   (h_stage h)) |}]>
         (handlers st) |}.
Proof.
  revert st h ctx. induction k as [|k IH]; intros st h ctx Hh Ho.
  - cbn [replicate runAgent fold_left resumeTimes fst snd].
    destruct st as [objs cm hs], h as [a t w stage]. cbn in *.
    now rewrite (list_insert_id _ _ _ Ho), (list_insert_id _ _ _ Hh).
  - cbn [replicate runAgent fold_left]. cbn [agentStep]. rewrite Hh, Ho.
    cbn [resumeTimes].
    destruct (resumeHandler ctx (h_world h) (h_text h) (h_stage h))
      as [ctx1 stage1] eqn:Er.
    pose proof (lookup_lt_Some _ _ _ Hh) as Hn.
    pose proof (lookup_lt_Some _ _ _ Ho) as Ha.
    set (h1 := {| h_context := h_context h; h_text := h_text h;
                  h_world := h_world h; h_stage := stage1 |}).
    change (fold_left agentStep (replicate k (EvSettle n)) ?x)
      with (runAgent x (replicate k (EvSettle n))).
    rewrite (IH _ h1 ctx1).
    + cbn [objects contextOf handlers h1 h_context h_text h_world h_stage].
      now rewrite !list_insert_insert_eq.
    + cbn [handlers]. now apply list_lookup_insert_eq.
    + cbn [objects h1 h_context]. now apply list_lookup_insert_eq.
Qed.

Lemma turn_represents (st : Agent) (m : gmap Z UserContext) (c : Z) (t : str)
    (w : TurnWorld) :
  represents st m ->
  represents (runAgent st (turnEvents (length (handlers st)) (c, t, w)))
    (handleConversationalMessage m c t w) /\
  length (handlers (runAgent st (turnEvents (length (handlers st)) (c, t, w))))
  = S (length (handlers st)).
Proof.
  intros (Hview & Hvalid & Hinj).
  cbn [turnEvents runAgent fold_left].
  change (fold_left agentStep (replicate 3 (EvSettle ?n)) ?x)
    with (runAgent x (replicate 3 (EvSettle n))).
  set (n := length (handlers st)).
  set (ctx0 := default newContext (m !! c)).
  assert (Hst1 : exists a objs,
             agentStep st (EvMessage c t w)
             = {| objects := <[a := pushUserMessage ctx0 w t]> objs;
                  contextOf := <[c := a]> (contextOf st);
                  handlers :=
                    handlers st
                    ++ [{| h_context := a; h_text := t; h_world := w;
                           h_stage := AwaitProcessing |}] |} /\
             a < length objs /\ length (objects st) <= length objs /\
             (forall a', a' <> a -> a' < length (objects st) ->
                         objs !! a' = objects st !! a') /\
             (forall c' a', c' <> c -> contextOf st !! c' = Some a' -> a' <> a)).
  { cbn [agentStep]. pose proof (Hview c) as Hc. unfold contextNow in Hc.
    destruct (contextOf st !! c) as [a|] eqn:Ec; cbn in Hc.
    - exists a, (objects st). unfold ctx0. rewrite <- Hc.
      split; [reflexivity|]. split; [now apply (Hvalid c)|]. split; [lia|].
      split; [auto|]. intros c' a' Hne Hc' ->. apply Hne. now apply (Hinj c' c a).
    - exists (length (objects st)), (objects st ++ [newContext]).
      unfold ctx0. rewrite <- Hc.
      rewrite lookup_app_r by lia. rewrite Nat.sub_diag. cbn [lookup list_lookup].
      split; [reflexivity|]. rewrite length_app. cbn [length].
      split; [lia|]. split; [lia|].
      split; [intros a' _ Hlt; now rewrite lookup_app_l|].
      intros c' a' _ Hc' ->. apply Hvalid in Hc'. lia. }
  destruct Hst1 as (a & objs & -> & Ha & Hlen & Hsame & Hfresh).
  rewrite (settle_times 3 n _
             {| h_context := a; h_text := t; h_world := w;
                h_stage := AwaitProcessing |}
             (pushUserMessage ctx0 w t)).
  2:{ cbn [handlers]. unfold n. rewrite lookup_app_r by lia.
      now rewrite Nat.sub_diag. }
  2:{ cbn [objects h_context]. now apply list_lookup_insert_eq. }
  cbn [objects contextOf handlers h_context h_text h_world h_stage].
  rewrite list_insert_insert_eq.
  fold (answerTurn (pushUserMessage ctx0 w t) w t).
  split; [|rewrite length_insert, length_app; cbn [length]; unfold n; lia].
  split; [|split].
  - intros c'. unfold contextNow, handleConversationalMessage.
    cbn [objects contextOf]. fold ctx0.
    destruct (decide (c' = c)) as [->|Hne].
    + rewrite !lookup_insert_eq. cbn. now apply list_lookup_insert_eq.
    + rewrite !lookup_insert_ne by congruence.
      rewrite <- (Hview c'). unfold contextNow.
      destruct (contextOf st !! c') as [a'|] eqn:Ec'; [|reflexivity]. cbn.
      assert (Hna : a' <> a) by now apply (Hfresh c' a').
      rewrite list_lookup_insert_ne by congruence.
      apply Hsame; [exact Hna|now apply (Hvalid c')].
  - intros c' a'. cbn [objects contextOf]. rewrite length_insert.
    destruct (decide (c' = c)) as [->|Hne].
    + rewrite lookup_insert_eq. now intros [= <-].
    + rewrite lookup_insert_ne by congruence. intros H. apply Hvalid in H. lia.
  - intros c1 c2 a'. cbn [contextOf].
    destruct (decide (c1 = c)) as [->|H1], (decide (c2 = c)) as [->|H2];
      rewrite ?lookup_insert_eq, ?lookup_insert_ne by congruence.
    + reflexivity.
    + intros [= <-] H. now destruct (Hfresh c2 a H2 H).
    + intros H [= <-]. now destruct (Hfresh c1 a H1 H).
    + apply Hinj.
Qed.

(** Without overlap the agent and [runTurns] agree on every channel. *)
Lemma sequentialRun_represents (turns : list (Z * str * TurnWorld)) (st : Agent)
    (m : gmap Z UserContext) :
  represents st m ->
  represents (runAgent st (sequentialRun (length (handlers st)) turns))
    (runTurns m turns).
Proof.
  revert st m. induction turns as [|[[c t] w] rest IH]; intros st m Hrep;
    [exact Hrep|].
  cbn [sequentialRun runTurns]. unfold runAgent. rewrite fold_left_app.
  destruct (turn_represents st m c t w Hrep) as [Hrep' Hn].
  fold (runAgent st (turnEvents (length (handlers st)) (c, t, w))).
  rewrite <- Hn. apply IH, Hrep'.
Qed.

Lemma sequentialRun_runTurns (turns : list (Z * str * TurnWorld)) (chatId : Z) :
  contextNow (runAgent noAgent (sequentialRun 0 turns)) chatId
  = runTurns ∅ turns !! chatId.
Proof.
  apply (sequentialRun_represents turns noAgent ∅).
  split; [|split].
  - intros c. unfold contextNow. cbn. now rewrite !lookup_empty.
  - intros c a. cbn. now rewrite lookup_empty.
  - intros c1 c2 a. cbn. now rewrite lookup_empty.
Qed.

End Conversation.

(** Two overlapping handlers after five turns: twelve entries. *)
Lemma conversationHistory_bounds_witness :
  exists ctx,
    contextNow (runAgent (pf := samplePlatform) noAgent overlappingRun) 42
    = Some ctx /\
    length (conversationHistory ctx) = 12 /\
    length (conversationHistory ctx) <= 10 + 2.
Proof.
  eexists. split; [vm_compute; reflexivity|]. split; [reflexivity|].
  apply (proj1 (proj2 (conversationHistory_bounds (pf := samplePlatform)
                         overlappingRun 2 ltac:(vm_compute; reflexivity)))
           42%Z).
  vm_compute. reflexivity.
Defined.


Lemma runTurns_other_channels_witness :
  runTurns (pf := samplePlatform) ∅
    [(7%Z, "hello" : str, chatWorld errorBody);
     (8%Z, "hi" : str, chatWorld (completionOf (JStr "Hello!")))] !! 42%Z
  = (∅ : gmap Z UserContext) !! 42%Z.
Proof.
  apply (runTurns_other_channels (pf := samplePlatform)).
  repeat constructor; simpl; discriminate.
Defined.

(** ** The site extractor: what a profile always carries *)

Section Profiles.

Context {pf : Platform}.

(** X13.  The extractor raises exactly on a string that the URL parser
    rejects, and then with the parser's message; page and completion
    failures never leave it. *)
Theorem scrapeHealthcareWebsite_raises_iff (w : ScrapeWorld) (url : str) :
  ((exists e, scrapeHealthcareWebsite w url = Throw e) <-> URL_hostname url = None) /\
  (forall e, scrapeHealthcareWebsite w url = Throw e -> e = ("Invalid URL" : str)).
Proof.
  split; [|intros e; apply scrapeHealthcareWebsite_throws].
  destruct (URL_hostname url) as [domain|] eqn:E.
  - destruct (scrapeHealthcareWebsite_returns w url domain E) as (p & Hp & _).
    rewrite Hp. split; [intros [e He]; discriminate|discriminate].
  - split; [reflexivity|]. intros _. exists ("Invalid URL" : str).
    now apply scrapeHealthcareWebsite_no_host.
Qed.

(** X14.  The identity of a profile is read off the host alone: whatever
    the page and the completions answer, two extractions of one URL agree on
    company, contact name, e-mail address and practice id, and these are the
    ones derived from the host name. *)
Theorem scrapeHealthcareWebsite_identity (w1 w2 : ScrapeWorld) (url : str)
    (p1 p2 : PracticeData) :
  scrapeHealthcareWebsite w1 url = Ok p1 ->
  scrapeHealthcareWebsite w2 url = Ok p2 ->
  exists domain,
    URL_hostname url = Some domain /\
    practiceId p1 = generatePracticeId domain /\
    company p1 = extractCompanyFromDomain domain /\
    email p1 = ("info@" : str) ++ domain /\
    practiceId p2 = practiceId p1 /\ company p2 = company p1 /\
    contactName p2 = contactName p1 /\ email p2 = email p1.
Proof.
  intros H1 H2.
  apply scrapeHealthcareWebsite_inv in H1 as (domain & Hd & H1).
  apply scrapeHealthcareWebsite_inv in H2 as (domain' & Hd' & H2).
  rewrite Hd in Hd'. injection Hd' as <-.
  exists domain. split; [exact Hd|].
  destruct H1 as [[_ ->]|[_ [n1 ->]]], H2 as [[_ ->]|[_ [n2 ->]]];
    repeat split; reflexivity.
Qed.

Lemma extractServicesWithGLM_length (w : FetchOutcome JsVal) (l : list JsVal) :
  extractServicesWithGLM w = Some l -> length l <= 4.
Proof.
  unfold extractServicesWithGLM.
  destruct (completionOfResponse w) as [[[text|]|]|]; try discriminate.
  destruct (JSON_parse text) as [[]|]; try discriminate.
  intros [= <-]. apply firstn_le_length.
Qed.

(** X15.  A profile never lists more than four services: the completion's
    array is cut to four, the default has three and the fallback one. *)
Theorem scrapeHealthcareWebsite_services_bound (w : ScrapeWorld) (url : str)
    (profile : PracticeData) :
  scrapeHealthcareWebsite w url = Ok profile -> length (services profile) <= 4.
Proof.
  intros H. apply scrapeHealthcareWebsite_inv in H
    as (domain & _ & [[_ ->]|[_ [drawn ->]]]); [|cbn; lia].
  unfold pageProfile. cbn [services].
  destruct (extractServicesWithGLM (s_services w)) as [l|] eqn:E; simpl;
    [now apply extractServicesWithGLM_length in E|lia].
Qed.

Lemma dropWhile_idempotent (f : ascii -> bool) (s : str) :
  Js.dropWhile f (Js.dropWhile f s) = Js.dropWhile f s.
Proof.
  induction s as [|c t IH]; [reflexivity|]. simpl.
  destruct (f c) eqn:E; [exact IH|]. simpl. now rewrite E.
Qed.

Lemma dropWhile_snoc (f : ascii -> bool) (s : str) (c : ascii) :
  f c = false -> Js.dropWhile f (s ++ [c]) = Js.dropWhile f s ++ [c].
Proof.
  intros Hc. induction s as [|a t IH]; simpl; [now rewrite Hc|].
  destruct (f a); [exact IH|reflexivity].
Qed.

Lemma trimEnd_keeps_head (c : ascii) (t : str) :
  Js.isSpace c = false -> exists t', Js.trimEnd (c :: t) = c :: t'.
Proof.
  intros Hc. unfold Js.trimEnd. simpl rev. rewrite (dropWhile_snoc _ _ _ Hc).
  rewrite rev_unit. eauto.
Qed.

Lemma trim_isTrimmed (s : str) : isTrimmed (Js.trim s).
Proof.
  unfold isTrimmed, Js.trim.
  assert (Hy : Js.dropWhile Js.isSpace (Js.trimStart s) = Js.trimStart s)
    by apply dropWhile_idempotent.
  destruct (Js.trimStart s) as [|c t]; [split; reflexivity|].
  apply dropWhile_fixed in Hy. split.
  - destruct (trimEnd_keeps_head c t Hy) as [t' ->].
    unfold Js.trimStart. simpl. now rewrite Hy.
  - unfold Js.trimEnd at 1 2. now rewrite rev_involutive, dropWhile_idempotent.
Qed.

Lemma extractLocationWithGLM_shape (w : FetchOutcome JsVal) (loc : str) :
  extractLocationWithGLM w = Some loc ->
  nonEmpty loc = true /\ loc <> ("null" : str) /\ isTrimmed loc.
Proof.
  unfold extractLocationWithGLM, completionOfResponse.
  destruct (awaitFetch w) as [response|]; simpl; [|discriminate].
  destruct (f_ok response); simpl; [|discriminate].
  destruct (f_body response) as [data|]; simpl; [|discriminate].
  unfold completionText.
  destruct (getProp data "choices") as [choices|]; simpl; [|discriminate].
  destruct (getFirst choices) as [first|]; simpl; [|discriminate].
  match goal with
  | |- context [match ?x with JUndefined => _ | _ => _ end] =>
      destruct x as [| |b|n|text|items|fields]
  end; simpl; try discriminate.
  destruct (nonEmpty (Js.trim text)) eqn:En; simpl; [|discriminate].
  unfold strEq. case_bool_decide as Hn; simpl; [discriminate|].
  intros [= <-]. split; [assumption|]. split; [assumption|apply trim_isTrimmed].
Qed.

(** X16.  The location of a profile is never empty, never the text [null],
    and carries no white space at its ends: a completion that is blank or
    says [null] is replaced by the default. *)
Theorem scrapeHealthcareWebsite_location_shape (w : ScrapeWorld) (url : str)
    (profile : PracticeData) :
  scrapeHealthcareWebsite w url = Ok profile ->
  nonEmpty (p_location profile) = true /\
  p_location profile <> ("null" : str) /\
  isTrimmed (p_location profile).
Proof.
  intros H. apply scrapeHealthcareWebsite_inv in H
    as (domain & _ & [[_ ->]|[_ [drawn ->]]]).
  - unfold pageProfile. cbn [p_location].
    destruct (extractLocationWithGLM (s_location w)) as [loc|] eqn:E; simpl.
    + now apply extractLocationWithGLM_shape in E.
    + repeat split; discriminate.
  - repeat split; discriminate.
Qed.

End Profiles.

Lemma scrapeHealthcareWebsite_identity_witness :
  exists domain,
    UrlFragment.hostname "https://www.glow-aesthetics.co.uk/" = Some domain /\
    practiceId emptyServicesProfile = generatePracticeId domain.
Proof.
  destruct (scrapeHealthcareWebsite_identity (pf := samplePlatform)
              emptyServicesWorld unreachableWorld "https://www.glow-aesthetics.co.uk/"
              emptyServicesProfile
              {| company := "Glow Aesthetics Clinic";
                 contactName := "Glow Aesthetics Clinic Team";
                 phone := "+44 20 7223 1130";
                 email := "info@www.glow-aesthetics.co.uk";
                 p_location := "Unknown Location";
                 services := [JStr "Healthcare Services"];
                 practiceType := "beauty";
                 practiceId := "glow-aesthetics";
                 leadSource := "fallback-extraction";
                 leadScore := 60;
                 brandColors := clinicColors;
                 website := None;
                 isGeneralVersion := true |})
    as (domain & Hd & Hid & _); [vm_compute; reflexivity|vm_compute; reflexivity|].
  exists domain. split; assumption.
Defined.

Lemma scrapeHealthcareWebsite_services_bound_witness :
  length (services emptyServicesProfile) <= 4.
Proof.
  apply (scrapeHealthcareWebsite_services_bound (pf := samplePlatform)
           emptyServicesWorld "https://www.glow-aesthetics.co.uk/").
  vm_compute. reflexivity.
Defined.

Lemma scrapeHealthcareWebsite_location_shape_witness :
  nonEmpty (p_location emptyServicesProfile) = true /\
  p_location emptyServicesProfile <> ("null" : str) /\
  isTrimmed (p_location emptyServicesProfile).
Proof.
  apply (scrapeHealthcareWebsite_location_shape (pf := samplePlatform)
           emptyServicesWorld "https://www.glow-aesthetics.co.uk/").
  vm_compute. reflexivity.
Defined.

(** ** The deployment orchestrator: tiers and calls *)

Section Tiers.

Lemma railwaySetVariables_calls_bound (w : RailwayWorld) (pid eid sid : str)
    (pd : PracticeData) :
  length (calls (railwaySetVariables w pid eid sid pd)) <= 6.
Proof.
  destruct (cliSetAll_spec w sid (railwayVariables pd)) as (_ & Hc2 & _).
  destruct (gqlSetAll_spec w pid eid sid (railwayVariables pd)) as (_ & Hg2 & _).
  change (length (railwayVariables pd)) with 3 in Hc2, Hg2.
  unfold railwaySetVariables, tryCatchT.
  destruct (outcome (cliSetAll w sid (railwayVariables pd))) as [[]|e1]; [lia|].
  cbn [calls].
  destruct (outcome (gqlSetAll w pid eid sid (railwayVariables pd)));
    cbn [calls mret Traced_ret]; rewrite ?length_app; cbn [length]; lia.
Qed.

(** X17.  Setting the variables never throws and makes no call other than
    variable calls, six at most; the structured API is used exactly when the
    command line refuses one of the three variables, and then for the same
    project, environment and service. *)
Theorem railwaySetVariables_tiers (w : RailwayWorld) (pid eid sid : str)
    (pd : PracticeData) :
  let run := railwaySetVariables w pid eid sid pd in
  outcome run = Ok tt /\
  forallb isVariableCall (calls run) = true /\
  length (calls run) <= 6 /\
  (existsb isGqlVariableCall (calls run)
   = someCliSetFails w sid (railwayVariables pd)) /\
  (forall k v p e s', In (CGqlVariableUpsert k v p e s') (calls run) ->
                      p = pid /\ e = eid /\ s' = sid).
Proof.
  cbn zeta.
  destruct (railwaySetVariables_spec w pid eid sid pd) as [Ho Hc].
  split; [exact Ho|]. split; [exact Hc|].
  destruct (cliSetAll_spec w sid (railwayVariables pd)) as (Hc1 & Hc2 & Hc3 & Hc4).
  destruct (gqlSetAll_spec w pid eid sid (railwayVariables pd)) as (Hg1 & Hg2 & Hg3).
  assert (Hcli_no_gql : existsb isGqlVariableCall
                          (calls (cliSetAll w sid (railwayVariables pd))) = false).
  { apply not_true_is_false. intros Hex. apply existsb_exists in Hex as (c & Hin & Hg).
    rewrite forallb_forall in Hc1. specialize (Hc1 c Hin). now destruct c. }
  assert (Hid : forall k v p e s',
             In (CGqlVariableUpsert k v p e s')
               (calls (gqlSetAll w pid eid sid (railwayVariables pd))) ->
             p = pid /\ e = eid /\ s' = sid).
  { clear. induction (railwayVariables pd) as [|[k0 v0] rest IH]; [intros ? ? ? ? ? []|].
    intros k v p e s'. cbn [gqlSetAll]. unfold mbind at 1, Traced_bind at 1.
    cbn [perform outcome calls].
    match goal with |- context [match ?r with Ok _ => _ | Throw _ => _ end] =>
      destruct r end; simpl.
    - intros [[= <- <- <- <- <-]|H]; [auto|now apply (IH k v)].
    - intros [[= <- <- <- <- <-]|[]]; auto. }
  change (length (railwayVariables pd)) with 3 in Hc2, Hg2.
  unfold railwaySetVariables, tryCatchT in *.
  destruct (outcome (cliSetAll w sid (railwayVariables pd))) as [[]|e1] eqn:E1.
  - split; [lia|]. split.
    + rewrite Hcli_no_gql. symmetry. now apply Hc3.
    + intros k v p e s' Hin. exfalso.
      rewrite forallb_forall in Hc1. now specialize (Hc1 _ Hin).
  - assert (Hf : someCliSetFails w sid (railwayVariables pd) = true).
    { apply not_false_is_true. intros Ef. apply Hc3 in Ef. discriminate. }
    assert (Hcalls : forall h,
               calls (match outcome (gqlSetAll w pid eid sid (railwayVariables pd)) with
                      | Ok _ => gqlSetAll w pid eid sid (railwayVariables pd)
                      | Throw e0 =>
                          {| calls := calls (gqlSetAll w pid eid sid (railwayVariables pd))
                                      ++ calls (h e0);
                             outcome := outcome (h e0) |}
                      end : Traced unit)
               = calls (gqlSetAll w pid eid sid (railwayVariables pd))
                 ++ match outcome (gqlSetAll w pid eid sid (railwayVariables pd)) with
                    | Ok _ => []
                    | Throw e0 => calls (h e0)
                    end).
    { intros h. destruct (outcome (gqlSetAll _ _ _ _ _)); simpl;
        [now rewrite app_nil_r|reflexivity]. }
    cbn [calls]. rewrite Hcalls.
    assert (Htail : match outcome (gqlSetAll w pid eid sid (railwayVariables pd)) with
                    | Ok _ => []
                    | Throw e0 => calls ((fun _ : str => mret tt : Traced unit) e0)
                    end = []) by now destruct (outcome (gqlSetAll _ _ _ _ _)).
    rewrite Htail, app_nil_r. split; [rewrite length_app; lia|]. split.
    + rewrite existsb_app, Hcli_no_gql, Hf. cbn [orb].
      specialize (Hg3 ltac:(discriminate)).
      destruct (calls (gqlSetAll w pid eid sid (railwayVariables pd))) as [|c l];
        [easy|].
      cbn [forallb] in Hg1. cbn [existsb]. apply andb_true_iff in Hg1 as [-> _].
      reflexivity.
    + intros k v p e s' Hin. apply in_app_or in Hin as [Hin|Hin].
      * exfalso. rewrite forallb_forall in Hc1. now specialize (Hc1 _ Hin).
      * now apply (Hid k v).
Qed.

(** X18.  Creating the domain fails only when both tiers fail, and the
    error then carries both messages. *)
Theorem railwayCreateDomain_fails_iff (w : RailwayWorld) (pid eid sid message : str) :
  outcome (railwayCreateDomain w pid eid sid) = Throw message <->
  exists e1 e2,
    cliDomainResult (rw_cliDomainGenerate w sid) = Throw e1 /\
    outcome (gqlCreateDomain w pid eid sid) = Throw e2 /\
    message = ("Railway domain creation completely failed: " : str) ++ e1
              ++ (" | " : str) ++ e2.
Proof.
  unfold railwayCreateDomain. rewrite tryCatchT_outcome.
  assert (Hcli : outcome (cliCreateDomain w sid)
                 = match cliDomainResult (rw_cliDomainGenerate w sid) with
                   | Ok d => Ok (domainOf d)
                   | Throw e => Throw e
                   end).
  { unfold cliCreateDomain, mbind, Traced_bind. cbn [perform outcome calls].
    now destruct (cliDomainResult _). }
  rewrite Hcli.
  destruct (cliDomainResult (rw_cliDomainGenerate w sid)) as [d|e1].
  - split; [discriminate|]. intros (? & ? & ? & _). discriminate.
  - rewrite tryCatchT_outcome.
    destruct (outcome (gqlCreateDomain w pid eid sid)) as [d|e2].
    + split; [discriminate|]. intros (? & ? & _ & ? & _). discriminate.
    + cbn [throwT outcome]. split.
      * intros [= <-]. eauto.
      * intros (a & b & [= <-] & [= <-] & ->). reflexivity.
Qed.

Lemma takeUntil_prefix (stop : ascii -> bool) (s : str) :
  exists rest, s = takeUntil stop s ++ rest /\
               forallb (fun c => negb (stop c)) (takeUntil stop s) = true.
Proof.
  induction s as [|c t (rest & Hr & Hall)]; [exists []; split; reflexivity|].
  simpl. destruct (stop c) eqn:E.
  - exists (c :: t). split; reflexivity.
  - exists rest. simpl. rewrite E, Hall. split; [now rewrite <- Hr|reflexivity].
Qed.

Lemma startsWith_split (p s : str) :
  Js.startsWith p s = true -> s = p ++ skipn (length p) s.
Proof.
  revert s. induction p as [|a p IH]; intros [|b s]; simpl; try discriminate;
    [reflexivity|reflexivity|].
  intros H. apply andb_true_iff in H as [Hab Hs].
  apply Ascii.eqb_eq in Hab. subst. f_equal. now apply IH.
Qed.

Lemma startsWith_app_longer (p s rest : str) :
  Js.startsWith p (p ++ s ++ rest) = true /\
  Js.startsWith (p ++ s) (p ++ s ++ rest) = true.
Proof. split; [apply startsWith_app|rewrite app_assoc; apply startsWith_app]. Qed.

Lemma domainHere_spec (s host : str) :
  domainHere s = Some host ->
  host <> [] /\ forallb (fun c => negb (isHostStop c)) host = true /\
  (Js.startsWith (("https://" : str) ++ host) s = true \/
   Js.startsWith (("http://" : str) ++ host) s = true).
Proof.
  unfold domainHere.
  destruct (Js.startsWith "https://" s) eqn:E1;
    [|destruct (Js.startsWith "http://" s) eqn:E2; [|discriminate]].
  - destruct (takeUntil_prefix isHostStop (skipn 8 s)) as (rest & Hr & Hall).
    destruct (takeUntil isHostStop (skipn 8 s)) as [|c t] eqn:Et; [discriminate|].
    intros [= <-]. split; [discriminate|]. split; [exact Hall|]. left.
    apply startsWith_split in E1. rewrite E1.
    change (length ("https://" : str)) with 8. rewrite Hr.
    apply startsWith_app_longer.
  - destruct (takeUntil_prefix isHostStop (skipn 7 s)) as (rest & Hr & Hall).
    destruct (takeUntil isHostStop (skipn 7 s)) as [|c t] eqn:Et; [discriminate|].
    intros [= <-]. split; [discriminate|]. split; [exact Hall|]. right.
    apply startsWith_split in E2. rewrite E2.
    change (length ("http://" : str)) with 7. rewrite Hr.
    apply startsWith_app_longer.
Qed.

(** X19.  The domain read from the output of the command line is never
    empty, holds no slash and no white space, and stands in the output right
    after [https://] or [http://]. *)
Theorem matchDomain_spec (output host : str) :
  matchDomain output = Some host ->
  host <> [] /\
  forallb (fun c => negb (isHostStop c)) host = true /\
  (Js.includes (("https://" : str) ++ host) output = true \/
   Js.includes (("http://" : str) ++ host) output = true).
Proof.
  induction output as [|c t IH].
  - simpl. discriminate.
  - cbn [matchDomain].
    destruct (domainHere (c :: t)) as [h|] eqn:E.
    + intros [= <-]. apply domainHere_spec in E as (Hne & Hall & Hs).
      split; [exact Hne|]. split; [exact Hall|].
      rewrite !includes_cons. destruct Hs as [-> | ->]; auto.
    + intros H. destruct (IH H) as (Hne & Hall & Hs).
      split; [exact Hne|]. split; [exact Hall|].
      rewrite !includes_cons. destruct Hs as [-> | ->]; rewrite orb_true_r; auto.
Qed.

Lemma matchDomain_spec_witness :
  ("glow-demo.up.railway.app" : str) <> [] /\
  forallb (fun c => negb (isHostStop c)) ("glow-demo.up.railway.app" : str) = true /\
  (Js.includes (("https://" : str) ++ ("glow-demo.up.railway.app" : str))
     "Service Domain created: https://glow-demo.up.railway.app/ ready" = true \/
   Js.includes (("http://" : str) ++ ("glow-demo.up.railway.app" : str))
     "Service Domain created: https://glow-demo.up.railway.app/ ready" = true).
Proof.
  apply (matchDomain_spec
           "Service Domain created: https://glow-demo.up.railway.app/ ready").
  vm_compute. reflexivity.
Defined.

Lemma railwayCreateDomain_url (w : RailwayWorld) (pid eid sid : str) (d : Domain) :
  outcome (railwayCreateDomain w pid eid sid) = Ok d ->
  dom_url d = ("https://" : str) ++ dom_domain d.
Proof.
  unfold railwayCreateDomain. rewrite tryCatchT_outcome.
  unfold cliCreateDomain at 1, mbind, Traced_bind. cbn [perform outcome calls].
  destruct (cliDomainResult _) as [dom|e]; cbn.
  - now intros [= <-].
  - rewrite tryCatchT_outcome. unfold gqlCreateDomain at 1. cbn [perform outcome].
    unfold gqlCreateDomain. cbn [perform outcome].
    destruct (awaitAxios _) as [body|]; simpl; [|discriminate].
    destruct (g_errors body); [discriminate|].
    destruct (g_data body); [|discriminate]. now intros [= <-].
Qed.

End Tiers.

Section Orchestrator.

Lemma bind_inv (A B : Type) (m : Traced A) (k : A -> Traced B) (b : B) :
  outcome (m ≫= k) = Ok b -> exists a, outcome m = Ok a /\ outcome (k a) = Ok b.
Proof.
  unfold mbind, Traced_bind. destruct (outcome m) as [a|e]; simpl; [eauto|discriminate].
Qed.

Lemma bind_calls (A B : Type) (m : Traced A) (k : A -> Traced B) :
  calls (m ≫= k) = calls m ++ match outcome m with
                               | Ok a => calls (k a)
                               | Throw _ => []
                               end.
Proof.
  unfold mbind, Traced_bind. destruct (outcome m); simpl; [reflexivity|].
  now rewrite app_nil_r.
Qed.

Lemma deployToRailwayTry_deployed (w : RailwayWorld) (pd : PracticeData)
    (repository : Repository) (d : DeploymentResult) :
  outcome (deployToRailwayTry w pd repository) = Ok d ->
  d_status d = Deployed /\ Js.startsWith "https://" (d_url d) = true.
Proof.
  unfold deployToRailwayTry. intros H.
  apply bind_inv in H as (project & _ & H).
  apply bind_inv in H as (envs & _ & H).
  apply bind_inv in H as (service & _ & H).
  apply bind_inv in H as (env & _ & H).
  apply bind_inv in H as ([] & _ & H).
  apply bind_inv in H as (domain & Hd & H).
  injection H as <-. split; [reflexivity|].
  apply railwayCreateDomain_url in Hd. cbn [d_url]. rewrite Hd.
  apply startsWith_app.
Qed.

(** X20.  [deployToRailway] never throws, and whatever it returns is an
    [https] URL: the one of the created domain with status [Deployed] when
    the orchestration went through, the static one with status [Fallback]
    exactly when it threw. *)
Theorem deployToRailway_total (w : RailwayWorld) (pd : PracticeData)
    (repository : Repository) :
  exists d,
    outcome (deployToRailway w pd repository) = Ok d /\
    Js.startsWith "https://" (d_url d) = true /\
    (d_status d = Fallback <->
     exists e, outcome (deployToRailwayTry w pd repository) = Throw e) /\
    (d_status d = Fallback -> d_url d = fallbackUrl repository).
Proof.
  unfold deployToRailway. rewrite tryCatchT_outcome.
  destruct (outcome (deployToRailwayTry w pd repository)) as [d|e] eqn:E.
  - exists d. apply deployToRailwayTry_deployed in E as [Hs Hu].
    split; [reflexivity|]. split; [exact Hu|]. rewrite Hs.
    split; [split; [discriminate|intros [? ?]; discriminate]|discriminate].
  - eexists. split; [reflexivity|]. cbn [d_url d_status].
    split; [reflexivity|]. split; [split; eauto|reflexivity].
Qed.

Lemma railwayCreateDomain_calls_bound (w : RailwayWorld) (pid eid sid : str) :
  length (calls (railwayCreateDomain w pid eid sid)) <= 2.
Proof.
  rewrite railwayCreateDomain_calls.
  destruct (cliDomainResult _); simpl; lia.
Qed.

Lemma railwayCreateProject_calls (w : RailwayWorld) (name : str) :
  calls (railwayCreateProject w name) = [CProjectCreate name].
Proof. reflexivity. Qed.

Lemma railwayGetEnvironments_calls (w : RailwayWorld) (pid : str) :
  calls (railwayGetEnvironments w pid) = [CEnvironments pid].
Proof. reflexivity. Qed.

Lemma railwayCreateService_calls (w : RailwayWorld) (pid repo : str) :
  calls (railwayCreateService w pid repo) = [CServiceCreate pid repo].
Proof. reflexivity. Qed.

Local Ltac count_calls :=
  repeat first [rewrite length_app | progress cbn [length app]]; lia.

(** X21.  The orchestrator starts with the creation of the project and makes
    eleven calls to the platform at most; when the project is refused,
    nothing else is attempted. *)
Theorem deployToRailway_calls (w : RailwayWorld) (pd : PracticeData)
    (repository : Repository) :
  let name := hyphenate (Js.toLowerCase (company pd)) ++ ("-demo" : str) in
  exists rest,
    calls (deployToRailway w pd repository) = CProjectCreate name :: rest /\
    length rest <= 10 /\
    ((exists e, outcome (railwayCreateProject w name) = Throw e) -> rest = []).
Proof.
  cbn zeta.
  assert (Hcatch : calls (deployToRailway w pd repository)
                   = calls (deployToRailwayTry w pd repository)).
  { unfold deployToRailway, tryCatchT.
    destruct (outcome (deployToRailwayTry w pd repository)); simpl;
      [reflexivity|now rewrite app_nil_r]. }
  rewrite Hcatch. unfold deployToRailwayTry.
  set (name := hyphenate (Js.toLowerCase (company pd)) ++ ("-demo" : str)).
  rewrite bind_calls, railwayCreateProject_calls.
  eexists. split; [reflexivity|].
  split; [|intros [e He]; now rewrite He].
  destruct (outcome (railwayCreateProject w name)) as [project|]; [|count_calls].
  rewrite bind_calls, railwayGetEnvironments_calls.
  destruct (outcome (railwayGetEnvironments w (project_id project))) as [envs|];
    [|count_calls].
  rewrite bind_calls, railwayCreateService_calls.
  destruct (outcome (railwayCreateService w _ _)) as [service|]; [|count_calls].
  rewrite bind_calls.
  destruct (chooseEnvironment envs) as [env|];
    [|cbn [throwT calls outcome app]; count_calls].
  cbn [mret Traced_ret calls outcome app].
  rewrite bind_calls.
  assert (Hv : calls
                 (tryCatchT
                    (railwaySetVariables w (project_id project) (env_id env)
                       (service_id service) pd) (fun _ => mret tt))
               = calls (railwaySetVariables w (project_id project) (env_id env)
                          (service_id service) pd)).
  { unfold tryCatchT.
    now rewrite (proj1 (railwaySetVariables_spec w _ _ _ pd)). }
  rewrite Hv.
  pose proof (railwaySetVariables_calls_bound w (project_id project) (env_id env)
                (service_id service) pd) as Hlen.
  pose proof (railwayCreateDomain_calls_bound w (project_id project) (env_id env)
                (service_id service)) as Hd.
  destruct (outcome (tryCatchT _ _)); [|count_calls].
  rewrite bind_calls.
  destruct (outcome (railwayCreateDomain _ _ _ _)); cbn [mret Traced_ret calls];
    count_calls.
Qed.

End Orchestrator.

(** ** The per-lead sequencer: what decides the outcome of a lead *)

Section Leads.

Context {pf : Platform}.

Lemma scrapeHealthcareWebsite_host_fields (w : ScrapeWorld) (url domain : str)
    (profile : PracticeData) :
  URL_hostname url = Some domain ->
  scrapeHealthcareWebsite w url = Ok profile ->
  practiceId profile = generatePracticeId domain /\
  company profile = extractCompanyFromDomain domain /\
  contactName profile = extractCompanyFromDomain domain ++ (" Team" : str).
Proof.
  intros Hd H.
  apply scrapeHealthcareWebsite_inv in H as (d & Hd' & H).
  rewrite Hd in Hd'. injection Hd' as <-.
  destruct H as [[_ ->]|[_ [drawn ->]]]; auto.
Qed.

Lemma deployToRailway_https (w : RailwayWorld) (pd : PracticeData)
    (repository : Repository) (d : DeploymentResult) :
  outcome (deployToRailway w pd repository) = Ok d ->
  Js.startsWith "https://" (d_url d) = true.
Proof.
  unfold deployToRailway. rewrite tryCatchT_outcome.
  destruct (outcome (deployToRailwayTry w pd repository)) as [d'|e] eqn:E.
  - intros [= <-]. now apply deployToRailwayTry_deployed in E.
  - intros [= <-]. reflexivity.
Qed.

(** The entry of one lead: the one of a lead that went through, or the one
    of a lead that did not. *)
Lemma processHealthcareWebsite_cases (config : Config) (w : LeadWorld) (url : str) :
  exists r,
    processHealthcareWebsite config w url = Ok r /\
    r_leadUrl r = url /\
    ((leadGoesThrough w url /\ successEntry w url r /\
      exists domain,
        URL_hostname url = Some domain /\
        r_company r = Some (extractCompanyFromDomain domain) /\
        r_doctor r = Some (extractCompanyFromDomain domain ++ (" Team" : str))) \/
     (~ leadGoesThrough w url /\ failureEntry w url r)).
Proof.
  unfold processHealthcareWebsite, leadPhases.
  destruct (URL_hostname url) as [domain|] eqn:Eh.
  2:{ rewrite (scrapeHealthcareWebsite_no_host (l_scrape w) url Eh).
      cbn [mbind Result_bind].
      eexists. split; [reflexivity|]. split; [reflexivity|]. right. split.
      - intros (? & ? & ? & H & _). rewrite Eh in H. discriminate.
      - unfold failureEntry. cbn. repeat split.
        exists ("Invalid URL" : str). split; [reflexivity|]. split; [discriminate|].
        left. now split. }
  destruct (scrapeHealthcareWebsite_returns (l_scrape w) url domain Eh)
    as (scraped & Hs & _).
  destruct (scrapeHealthcareWebsite_host_fields (l_scrape w) url domain scraped Eh Hs)
    as (Hid & Hco & Hcn).
  rewrite Hs. cbn [mbind Result_bind]. unfold storeLeadInNotion.
  destruct (l_notionCreate w) as [m|page] eqn:En; cbn [awaitAxios tryCatch].
  { eexists. split; [reflexivity|]. split; [reflexivity|]. right. split.
    - intros (? & ? & ? & _ & H & _). rewrite En in H. discriminate.
    - unfold failureEntry. cbn [r_status r_demoUrl r_agentId r_repositoryUrl r_error].
      repeat split.
      exists (("Notion storage failed: " : str) ++ m).
      split; [reflexivity|]. split; [discriminate|]. right. left. eauto. }
  unfold createPersonalizedRepository. rewrite Hid.
  destruct (l_github w _) as [m|repository] eqn:Eg;
    cbn [awaitAxios tryCatch mbind Result_bind].
  { eexists. split; [reflexivity|]. split; [reflexivity|]. right. split.
    - intros (d & ? & ? & Hd & _ & Hg & _). rewrite Eh in Hd. injection Hd as <-.
      pose proof (eq_trans (eq_sym Eg) Hg) as X. discriminate X.
    - unfold failureEntry. cbn [r_status r_demoUrl r_agentId r_repositoryUrl r_error].
      repeat split.
      exists (("Repository creation failed: " : str) ++ m).
      split; [reflexivity|]. split; [discriminate|]. right. right. eauto. }
  unfold personalizeRepository.
  destruct (l_personalize w) as [[]|m] eqn:Ep; cbn [tryCatch mbind Result_bind].
  2:{ eexists. split; [reflexivity|]. split; [reflexivity|]. right. split.
      - intros (? & ? & ? & _ & _ & _ & H). rewrite Ep in H. discriminate.
      - unfold failureEntry. cbn [r_status r_demoUrl r_agentId r_repositoryUrl r_error].
        repeat split.
        eexists. split; [reflexivity|]. split; [discriminate|]. right. right. eauto. }
  destruct (outcome (deployToRailway (l_railway w) scraped repository)) as [d|e] eqn:Ed.
  2:{ destruct (deployToRailway_returns (l_railway w) scraped repository) as [d Hd].
      rewrite Hd in Ed. discriminate. }
  cbn [mbind Result_bind]. unfold updateNotionWithResults.
  assert (Hu : exists u, tryCatch (awaitAxios (l_notionUpdate w))
                           (fun _ : str => Ok tt) = Ok u)
    by (destruct (l_notionUpdate w); cbn; eauto).
  destruct Hu as [u ->]. cbn [mbind Result_bind].
  eexists. split; [reflexivity|]. split; [reflexivity|]. left.
  split; [exists domain, page, repository; repeat split; assumption|].
  split.
  - exists domain, repository, scraped, d.
    cbn [r_status r_demoUrl r_agentId r_repositoryUrl r_error].
    unfold createElevenLabsAgent. rewrite Hid.
    repeat split; try assumption; try reflexivity.
    now apply deployToRailway_https in Ed.
  - exists domain. cbn [r_company r_doctor]. rewrite Hco, Hcn. auto.
Qed.

Lemma processLeads_lookup (config : Config) (w : BatchWorld)
    (practices : list LeadCandidate) (first i : nat) (c : LeadCandidate) :
  practices !! i = Some c ->
  processLeads config w first practices !! i =
  Some match processHealthcareWebsite config (b_lead w (first + i)) (c_url c) with
       | Ok result => result
       | Throw message => failedEntry (b_lead w (first + i)) (c_url c) message
       end.
Proof.
  revert first i. induction practices as [|p rest IH]; intros first i; [easy|].
  destruct i as [|i]; cbn [processLeads].
  - intros [= <-]. now rewrite Nat.add_0_r.
  - intros H. replace (first + S i) with (S first + i) by lia.
    exact (IH (S first) i H).
Qed.

(** C2.  A batch over the discovered candidates returns one entry per
    candidate, in order and for that candidate's URL, whatever happens to
    the single leads.  The entry of a lead that went through (URL parsed,
    record stored, repository created and personalised) has status
    [Success], no error, and carries the demo URL, the agent id and the
    repository URL; the entry of any other lead has status [Failed], a
    non-empty message naming the failed step, and none of the three. *)
Theorem executeAutonomousWorkflow_entries (config : Config) (w : BatchWorld)
    (leadCount : nat) (practices : list LeadCandidate) :
  findHealthcarePracticesWithEXA w leadCount = Ok practices ->
  exists results,
    executeAutonomousWorkflow config w leadCount = Ok results /\
    length results = length practices /\
    List.Forall2 (fun c r => r_leadUrl r = c_url c /\ wellFormedEntry r)
      practices results /\
    forall i c,
      practices !! i = Some c ->
      exists r,
        results !! i = Some r /\
        r_leadUrl r = c_url c /\
        ((leadGoesThrough (b_lead w i) (c_url c) /\
          successEntry (b_lead w i) (c_url c) r) \/
         (~ leadGoesThrough (b_lead w i) (c_url c) /\
          failureEntry (b_lead w i) (c_url c) r)).
Proof.
  intros Hf. exists (processLeads config w 0 practices).
  pose proof (processLeads_entries config w practices 0) as Hall.
  split; [|split; [|split; [exact Hall|]]].
  - unfold executeAutonomousWorkflow. rewrite Hf. simpl.
    apply findHealthcarePracticesWithEXA_nonEmpty in Hf.
    destruct practices; [easy|reflexivity].
  - symmetry. eapply Forall2_length. exact Hall.
  - intros i c Hi.
    rewrite (processLeads_lookup config w practices 0 i c Hi). cbn [Nat.add].
    destruct (processHealthcareWebsite_cases config (b_lead w i) (c_url c))
      as (r & -> & Hu & [(Hg & Hs & _)|Hn]).
    + exists r. split; [reflexivity|]. split; [exact Hu|]. left. now split.
    + exists r. split; [reflexivity|]. split; [exact Hu|]. now right.
Qed.

(** X22.  A lead succeeds exactly when its URL parses, the store accepts the
    record, the repository is created and the personalisation goes through:
    no failure of the page, of the completions, of the deployment or of the
    final store update turns a lead into a failure. *)
Theorem processHealthcareWebsite_success_iff (config : Config) (w : LeadWorld)
    (url : str) :
  exists r,
    processHealthcareWebsite config w url = Ok r /\
    (r_status r = Success <->
     exists domain page repository,
       URL_hostname url = Some domain /\
       l_notionCreate w = AxiosResolves page /\
       l_github w (generatePracticeId domain ++ ("-demo-" : str)
                   ++ Js.ofZ (l_clock w 3)) = AxiosResolves repository /\
       l_personalize w = Ok tt).
Proof.
  destruct (processHealthcareWebsite_cases config w url)
    as (r & Hr & _ & [(Hg & Hs & _)|(Hn & Hf & _)]); exists r; (split; [exact Hr|]).
  - split; [intros _; exact Hg|].
    intros _. now destruct Hs as (? & ? & ? & ? & _ & _ & _ & _ & Hs & _).
  - split; [rewrite Hf; discriminate|]. intros H. now destruct Hn.
Qed.

(** X23.  The error of a failed lead names the phase that failed: the URL
    parser's message, or the message of the store behind
    [Notion storage failed:], or a message behind
    [Repository creation failed:]; and a failed entry carries no demo URL,
    agent id or repository URL. *)
Theorem processHealthcareWebsite_failure (config : Config) (w : LeadWorld)
    (url : str) (r : PipelineResult) :
  processHealthcareWebsite config w url = Ok r ->
  r_status r = Failed ->
  (exists message,
     r_error r = Some message /\
     ((message = ("Invalid URL" : str) /\ URL_hostname url = None) \/
      (exists e, message = ("Notion storage failed: " : str) ++ e /\
                 l_notionCreate w = AxiosRejects e) \/
      (exists e, message = ("Repository creation failed: " : str) ++ e))) /\
  r_demoUrl r = None /\ r_agentId r = None /\ r_repositoryUrl r = None.
Proof.
  intros Hr Hst.
  destruct (processHealthcareWebsite_cases config w url)
    as (r' & Hr' & _ & [(_ & Hs & _)|(_ & Hf)]);
    rewrite Hr in Hr'; injection Hr' as <-.
  - destruct Hs as (? & ? & ? & ? & _ & _ & _ & _ & Hs & _).
    rewrite Hs in Hst. discriminate.
  - destruct Hf as (_ & Hd & Ha & Hu & message & Hm & _ & Hp).
    split; [exists message; now split|auto].
Qed.

(** X24.  A successful entry carries an [https] demo URL, an agent id of the
    form [agent_<time>_<practice id>], the company with its team name as the
    contact, and no error. *)
Theorem processHealthcareWebsite_success_shape (config : Config) (w : LeadWorld)
    (url : str) (r : PipelineResult) :
  processHealthcareWebsite config w url = Ok r ->
  r_status r = Success ->
  exists demoUrl domain,
    r_demoUrl r = Some demoUrl /\ Js.startsWith "https://" demoUrl = true /\
    URL_hostname url = Some domain /\
    r_agentId r = Some (("agent_" : str) ++ Js.ofZ (l_clock w 2) ++ ("_" : str)
                        ++ generatePracticeId domain) /\
    r_company r = Some (extractCompanyFromDomain domain) /\
    r_doctor r = Some (extractCompanyFromDomain domain ++ (" Team" : str)) /\
    r_error r = None.
Proof.
  intros Hr Hst.
  destruct (processHealthcareWebsite_cases config w url)
    as (r' & Hr' & _ & [(_ & Hs & Hc)|(_ & Hf & _)]);
    rewrite Hr in Hr'; injection Hr' as <-.
  - destruct Hs as (domain & repo & sc & dep & Hh & _ & _ & _ & _ & He & Hd & Hp
                    & Ha & _).
    destruct Hc as (domain' & Hh' & Hco & Hdo).
    rewrite Hh in Hh'. injection Hh' as <-.
    exists (d_url dep), domain. repeat split; assumption.
  - rewrite Hf in Hst. discriminate.
Qed.

Lemma lookupField_app (name : str) (a b : list (str * JsVal)) :
  forallb (fun kv => negb (strEq (fst kv) name)) a = true ->
  lookupField name (a ++ b) = lookupField name b.
Proof.
  induction a as [|[k v] a IH]; [reflexivity|]. simpl.
  destruct (strEq k name); [discriminate|exact IH].
Qed.

Lemma optField_keys (name field : str) (value : option str) :
  strEq field name = false ->
  forallb (fun kv => negb (strEq (fst kv) name)) (optField field value) = true.
Proof. intros H. destruct value; simpl; [now rewrite H|reflexivity]. Qed.

Lemma resultObject_success (r : PipelineResult) :
  lookupField "success" (resultObject r) = JUndefined.
Proof.
  unfold resultObject.
  repeat (rewrite lookupField_app;
          [|first [now apply optField_keys | reflexivity
                  | now destruct (r_duration r)]]).
  reflexivity.
Qed.

Lemma successCount_zero (results : list PipelineResult) : successCount results = 0.
Proof.
  unfold successCount. induction results as [|r rs IH]; [reflexivity|].
  simpl. now rewrite resultObject_success.
Qed.

(** X25.  The chat summary of the standard workflow counts the entries whose
    [success] property is set, and the entries carry a [status] instead: the
    summary, whenever it is sent, reports zero successes out of at least one
    lead, and the no-leads message is never sent. *)
Theorem executeWorkflowWithUpdates_summary (config : Config)
    (send : nat -> Result unit) (w : BatchWorld) (leadCount : nat) (m : BotMessage) :
  In m (fst (executeWorkflowWithUpdates config send w leadCount)) ->
  m <> MsgNoLeads /\
  (forall successes total,
     m = MsgWorkflowComplete successes total -> successes = 0 /\ 1 <= total).
Proof.
  unfold executeWorkflowWithUpdates.
  destruct (send 0); [|simpl; intros [<-|[<-|[]]]; split; congruence].
  destruct (executeAutonomousWorkflow config w leadCount) as [results|e] eqn:E;
    [|simpl; intros [<-|[<-|[]]]; split; congruence].
  assert (Hne : (0 <? length results) = true).
  { unfold executeAutonomousWorkflow in E.
    destruct (findHealthcarePracticesWithEXA w leadCount) as [practices|] eqn:Ef;
      simpl in E; [|discriminate].
    apply findHealthcarePracticesWithEXA_nonEmpty in Ef.
    destruct practices as [|c cs]; [easy|]. simpl in E. now injection E as <-. }
  rewrite Hne. rewrite successCount_zero.
  assert (Hlen : 1 <= length results) by (apply Nat.ltb_lt in Hne; lia).
  destruct (send 1); simpl; intros H;
    repeat (destruct H as [<-|H]; [split; [discriminate|]; intros ? ?; try discriminate;
                                   intros [= <- <-]; auto|]);
    destruct H.
Qed.

End Leads.

Lemma executeAutonomousWorkflow_entries_witness :
  exists results,
    executeAutonomousWorkflow (pf := samplePlatform) sampleConfig twoLeadBatch 2
    = Ok results /\
    length results = 2 /\
    map r_status results = [Failed; Success] /\
    map r_error results
    = [Some ("Repository creation failed: Repository personalization failed: Command failed: git push origin main" : str);
       None].
Proof.
  destruct (executeAutonomousWorkflow_entries (pf := samplePlatform) sampleConfig
              twoLeadBatch 2 _ eq_refl) as (results & Hr & Hl & _).
  exists results. split; [exact Hr|]. split; [exact Hl|].
  vm_compute in Hr. injection Hr as <-. split; reflexivity.
Defined.

Lemma processHealthcareWebsite_failure_witness :
  exists r,
    processHealthcareWebsite (pf := samplePlatform) sampleConfig
      (sampleLead secondTierRailway (Throw "Command failed: git push origin main"))
      "https://www.glow-aesthetics.co.uk/" = Ok r /\
    r_status r = Failed /\ r_demoUrl r = None.
Proof.
  eexists. split; [vm_compute; reflexivity|]. split; [reflexivity|].
  apply (processHealthcareWebsite_failure (pf := samplePlatform) sampleConfig
           (sampleLead secondTierRailway (Throw "Command failed: git push origin main"))
           "https://www.glow-aesthetics.co.uk/");
    vm_compute; reflexivity.
Defined.

Lemma processHealthcareWebsite_success_shape_witness :
  exists r demoUrl,
    processHealthcareWebsite (pf := samplePlatform) sampleConfig
      (sampleLead secondTierRailway (Ok tt)) "https://www.glow-aesthetics.co.uk/"
    = Ok r /\
    r_demoUrl r = Some demoUrl /\ Js.startsWith "https://" demoUrl = true.
Proof.
  eexists.
  destruct (processHealthcareWebsite_success_shape (pf := samplePlatform) sampleConfig
              (sampleLead secondTierRailway (Ok tt))
              "https://www.glow-aesthetics.co.uk/" _
              ltac:(vm_compute; reflexivity) eq_refl)
    as (demoUrl & domain & Hd & Hs & _).
  exists demoUrl. split; [reflexivity|]. split; assumption.
Defined.

Lemma executeWorkflowWithUpdates_summary_witness :
  MsgWorkflowComplete 0 2 <> MsgNoLeads /\
  (forall successes total,
     MsgWorkflowComplete 0 2 = MsgWorkflowComplete successes total ->
     successes = 0 /\ 1 <= total).
Proof.
  apply (executeWorkflowWithUpdates_summary (pf := samplePlatform) sampleConfig
           (fun _ => Ok tt) twoLeadBatch 2).
  vm_compute. right. left. reflexivity.
Defined.

(** ** Waiting for a deployment *)

Section Waiting.

Variable w : WaitWorld.
Variable repository : Repository.
Variable practiceId : str.

Lemma findRun_spec (attempt i : nat) (runs : list WorkflowRun) (run : WorkflowRun) :
  findRun w attempt i runs = Some run ->
  In run runs /\ run_name run = ("Deploy to Railway" : str) /\
  run_conclusion run = Some ("success" : str).
Proof.
  revert i. induction runs as [|r rs IH]; intros i; [discriminate|]. simpl.
  destruct (isRecentDeployment w attempt i r) eqn:E.
  - intros [= <-]. split; [now left|].
    unfold isRecentDeployment in E.
    apply andb_true_iff in E as [E _]. apply andb_true_iff in E as [En Ec].
    apply bool_decide_eq_true in En. split; [exact En|].
    destruct (run_conclusion r) as [c|]; [|discriminate].
    apply bool_decide_eq_true in Ec. now subst c.
  - intros H. apply IH in H as (Hin & Hrest). split; [now right|exact Hrest].
Qed.

Lemma checkDeployment_spec (attempt : nat) (url : str) :
  checkDeployment w attempt repository practiceId = Some url ->
  In url (possibleUrls repository practiceId) /\
  headOk w attempt url = true /\
  exists runs run,
    gw_runs w attempt = AxiosResolves (Some runs) /\ In run runs /\
    run_name run = ("Deploy to Railway" : str) /\
    run_conclusion run = Some ("success" : str).
Proof.
  unfold checkDeployment.
  destruct (gw_runs w attempt) as [e|[runs|]]; try discriminate.
  destruct (findRun w attempt 0 runs) as [run|] eqn:Ef; [|discriminate].
  intros H. apply List.find_some in H as [Hin Hok].
  split; [exact Hin|]. split; [exact Hok|].
  exists runs, run. split; [reflexivity|]. now apply findRun_spec in Ef.
Qed.

Lemma waitLoop_spec (remaining attempt : nat) :
  let url := waitLoop w remaining attempt repository practiceId in
  In url (possibleUrls repository practiceId) /\
  ((url = ("https://" : str) ++ practiceId ++ ("-production.up.railway.app" : str) /\
    forall a, attempt <= a < attempt + remaining ->
              checkDeployment w a repository practiceId = None) \/
   exists a, attempt <= a < attempt + remaining /\
             checkDeployment w a repository practiceId = Some url /\
             forall b, attempt <= b < a ->
                       checkDeployment w b repository practiceId = None).
Proof.
  revert attempt. induction remaining as [|n IH]; intros attempt; simpl.
  - split; [now left|]. left. split; [reflexivity|]. intros a Ha. lia.
  - destruct (checkDeployment w attempt repository practiceId) as [url|] eqn:E.
    + split; [now apply checkDeployment_spec in E|].
      right. exists attempt. split; [lia|]. split; [exact E|]. intros b Hb. lia.
    + destruct (IH (S attempt)) as [Hin [[Hf Hnone]|(a & Ha & Hc & Hb)]].
      * split; [exact Hin|]. left. split; [exact Hf|]. intros a Ha.
        destruct (Nat.eq_dec a attempt) as [->|Hne]; [exact E|].
        apply Hnone. lia.
      * split; [exact Hin|]. right. exists a. split; [lia|]. split; [exact Hc|].
        intros b Hb'. destruct (Nat.eq_dec b attempt) as [->|Hne]; [exact E|].
        apply Hb. lia.
Qed.

(** X26.  The wait always ends with one of the three predicted URLs.  It is
    the first pattern, unverified, when none of the thirty attempts found a
    deployment; otherwise it is the URL found at the first attempt that did:
    that attempt listed a successful [Deploy to Railway] run and the [HEAD]
    request to the URL answered with an ok status. *)
Theorem waitForGitHubActionsDeployment_result :
  let url := waitForGitHubActionsDeployment w repository practiceId in
  In url (possibleUrls repository practiceId) /\
  ((url = ("https://" : str) ++ practiceId ++ ("-production.up.railway.app" : str) /\
    forall a, 1 <= a <= 30 -> checkDeployment w a repository practiceId = None) \/
   exists a runs run,
     1 <= a <= 30 /\
     gw_runs w a = AxiosResolves (Some runs) /\ In run runs /\
     run_name run = ("Deploy to Railway" : str) /\
     run_conclusion run = Some ("success" : str) /\
     headOk w a url = true /\
     forall b, 1 <= b < a -> checkDeployment w b repository practiceId = None).
Proof.
  unfold waitForGitHubActionsDeployment.
  destruct (waitLoop_spec 30 1) as [Hin [[Hf Hnone]|(a & Ha & Hc & Hb)]].
  - split; [exact Hin|]. left. split; [exact Hf|]. intros a Ha. apply Hnone. lia.
  - split; [exact Hin|]. right.
    apply checkDeployment_spec in Hc as (_ & Hok & runs & run & Hr & Hi & Hn & Hs).
    exists a, runs, run. split; [lia|]. auto 10.
Qed.

(** X27.  A listing that fails at every attempt, or never shows a successful
    run, makes the wait return the first pattern without a single [HEAD]
    request having decided it. *)
Theorem waitForGitHubActionsDeployment_timeout :
  (forall a, 1 <= a <= 30 ->
     match gw_runs w a with
     | AxiosResolves (Some runs) =>
         forall run, In run runs -> run_conclusion run <> Some ("success" : str)
     | _ => True
     end) ->
  waitForGitHubActionsDeployment w repository practiceId
  = ("https://" : str) ++ practiceId ++ ("-production.up.railway.app" : str).
Proof.
  intros H. unfold waitForGitHubActionsDeployment.
  destruct (waitLoop_spec 30 1) as [_ [[Hf _]|(a & Ha & Hc & _)]]; [exact Hf|].
  apply checkDeployment_spec in Hc as (_ & _ & runs & run & Hr & Hi & _ & Hs).
  specialize (H a ltac:(lia)). rewrite Hr in H. now apply H in Hi.
Qed.

End Waiting.

Lemma waitForGitHubActionsDeployment_timeout_witness :
  waitForGitHubActionsDeployment
    {| gw_runs := fun _ => AxiosRejects "Request failed with status code 404";
       gw_now := fun _ _ => 1700000100000%Z;
       gw_head := fun _ _ => FetchRejects "getaddrinfo ENOTFOUND" |}
    (sampleRepository "glow-repo") "glow-aesthetics"
  = ("https://glow-aesthetics-production.up.railway.app" : str).
Proof.
  apply (waitForGitHubActionsDeployment_timeout
           {| gw_runs := fun _ => AxiosRejects "Request failed with status code 404";
              gw_now := fun _ _ => 1700000100000%Z;
              gw_head := fun _ _ => FetchRejects "getaddrinfo ENOTFOUND" |}
           (sampleRepository "glow-repo") "glow-aesthetics").
  intros a _. exact I.
Defined.

Example waitForGitHubActionsDeployment_second_attempt :
  waitForGitHubActionsDeployment secondAttemptWorld (sampleRepository "glow-repo")
    "glow-aesthetics"
  = ("https://glow-repo-production.up.railway.app" : str).
Proof. vm_compute. reflexivity. Qed.
